(** * Data-alchemist: the validation engine and the data registry

    A shallow embedding of [lib/validation-engine.ts] (class
    [ValidationEngine]) and of [lib/data-context.ts] (the in-memory
    registry), followed by the properties of the validator.  Around the
    validator it also embeds the report on a batch (module [Report]), the
    part of [lib/file-parser.ts] that turns a sheet into records and feeds
    the registry (module [FileParser]), the summary that
    [lib/export-utils.ts] writes (module [ExportEngine]) and the allocation
    score of [lib/prioritization-engine.ts] (module [PrioritizationEngine],
    on the doubles of module [Double]).

    Conventions of the embedding.
    - A JavaScript string is a [string]: one [ascii] per code unit, so the
      strings of the model are those whose code units are below 256.
    - A JavaScript number is a [JsNum]: [NaN], the two infinities, or a
      finite value carried as an exact rational.  The rounding of doubles
      and the sign of zero are not modelled: the validator adds, subtracts
      and compares small integers and takes one ratio of two field counts.
      The allocation score multiplies and divides by the weights it is
      given: its numbers are binary64 doubles, with their rounding.
    - A record ([any] in the source) is a data object: an association list
      from property names to values, with no own property that shadows a
      method of [Object.prototype].
    - A function that may throw returns an [option], or a [Completion]
      when it has changed the array of results before it throws.  Two
      throws are left out: the one of [validateRecord] when an answer of
      the completion service is not iterable, and the one of an engine
      that cannot hold an array shorter than 2^32 elements.  The
      statements on [validateRecord], [validateBatch] and
      [parseNumberList] are therefore about the results that they return,
      and about the throws that the embedding has.
    - What the engine cannot decide from a value alone is supplied from
      outside: the text-to-number and number-to-text conversions and
      [JSON.parse] by a [JsHost]; the evaluation of rule conditions
      ([new Function]), the completion service behind
      [performAIValidation], the wall clock and the registry by an [Env].
      The properties hold for every host and every environment; module
      [Demo] has one of each to run the engine on examples. *)

From Stdlib Require Import String Ascii List ZArith QArith Qround Lia Bool Arith.
From Stdlib Require Import Sorted Permutation Lqa SpecFloat.
Import ListNotations.
Close Scope Q_scope.
Local Open Scope string_scope.
Local Open Scope list_scope.

Set Implicit Arguments.
Set Warnings "-register-all".

(* ================================================================== *)
(** ** JavaScript values *)
(* ================================================================== *)

Module Js.

(** *** Numbers *)

Inductive JsNum : Type :=
| NaN
| PosInf
| NegInf
| Fin (q : Q).

Definition ofZ (z : Z) : JsNum := Fin (inject_Z z).
Definition ofNat (n : nat) : JsNum := ofZ (Z.of_nat n).

(** [Number.isFinite] on a number. *)
Definition isFinite (n : JsNum) : bool :=
  match n with Fin _ => true | _ => false end.

Definition Qltb (x y : Q) : bool := negb (Qle_bool y x).

(** [a < b] *)
Definition lt (a b : JsNum) : bool :=
  match a, b with
  | NaN, _ | _, NaN => false
  | Fin x, Fin y => Qltb x y
  | NegInf, NegInf => false
  | NegInf, _ => true
  | _, NegInf => false
  | PosInf, _ => false
  | Fin _, PosInf => true
  end.

(** [a > b], [a <= b], [a >= b] *)
Definition gt (a b : JsNum) : bool := lt b a.

Definition le (a b : JsNum) : bool :=
  match a, b with
  | NaN, _ | _, NaN => false
  | Fin x, Fin y => Qle_bool x y
  | NegInf, _ => true
  | _, PosInf => true
  | _, _ => false
  end.

Definition ge (a b : JsNum) : bool := le b a.

Definition neg (a : JsNum) : JsNum :=
  match a with
  | NaN => NaN
  | PosInf => NegInf
  | NegInf => PosInf
  | Fin x => Fin (Qred (Qopp x))
  end.

Definition add (a b : JsNum) : JsNum :=
  match a, b with
  | NaN, _ | _, NaN => NaN
  | PosInf, NegInf | NegInf, PosInf => NaN
  | PosInf, _ | _, PosInf => PosInf
  | NegInf, _ | _, NegInf => NegInf
  | Fin x, Fin y => Fin (Qred (Qplus x y))
  end.

Definition sub (a b : JsNum) : JsNum := add a (neg b).

Definition Qsign (x : Q) : comparison := Z.compare (Qnum x) 0%Z.

Definition mul (a b : JsNum) : JsNum :=
  let inf (positive : bool) := if positive then PosInf else NegInf in
  let byInf (positive : bool) (x : Q) :=
    match Qsign x with
    | Eq => NaN
    | Gt => inf positive
    | Lt => inf (negb positive)
    end in
  match a, b with
  | NaN, _ | _, NaN => NaN
  | Fin x, Fin y => Fin (Qred (Qmult x y))
  | PosInf, PosInf | NegInf, NegInf => PosInf
  | PosInf, NegInf | NegInf, PosInf => NegInf
  | PosInf, Fin x | Fin x, PosInf => byInf true x
  | NegInf, Fin x | Fin x, NegInf => byInf false x
  end.

Definition div (a b : JsNum) : JsNum :=
  match a, b with
  | NaN, _ | _, NaN => NaN
  | Fin x, Fin y =>
      match Qsign y with
      | Eq => match Qsign x with Eq => NaN | Gt => PosInf | Lt => NegInf end
      | _ => Fin (Qred (Qdiv x y))
      end
  | Fin _, _ => Fin 0%Q
  | _, Fin y =>
      match a, Qsign y with
      | PosInf, Lt | NegInf, (Eq | Gt) => NegInf
      | _, _ => PosInf
      end
  | _, _ => NaN
  end.

(** [Math.round]: the nearest integer, a tie going up. *)
Definition round (a : JsNum) : JsNum :=
  match a with
  | Fin x => ofZ (Qfloor (Qplus x (1 # 2)))
  | _ => a
  end.

(** [Math.min] and [Math.max] of two numbers. *)
Definition min (a b : JsNum) : JsNum :=
  match a, b with
  | NaN, _ | _, NaN => NaN
  | _, _ => if lt b a then b else a
  end.

Definition max (a b : JsNum) : JsNum :=
  match a, b with
  | NaN, _ | _, NaN => NaN
  | _, _ => if lt a b then b else a
  end.

(** *** Values *)

Inductive JsValue : Type :=
| VUndefined
| VNull
| VBool (b : bool)
| VNum (n : JsNum)
| VStr (s : string)
| VArr (items : list JsValue)
| VObj (props : list (string * JsValue)).

(** A data object, property by property. *)
Definition JsObj : Type := list (string * JsValue).

(** [o[k]] on a data object: [undefined] when the property is absent. *)
Fixpoint getProp (o : JsObj) (k : string) : JsValue :=
  match o with
  | [] => VUndefined
  | (k', v) :: rest => if String.eqb k' k then v else getProp rest k
  end.

(** [Object.keys(o)] *)
Definition keys (o : JsObj) : list string := map fst o.

(** Truthiness, as [if (v)], [!v], [a || b] and [filter(Boolean)] use it. *)
Definition truthy (v : JsValue) : bool :=
  match v with
  | VUndefined | VNull => false
  | VBool b => b
  | VNum NaN => false
  | VNum (Fin q) => negb (Qeq_bool q 0%Q)
  | VNum _ => true
  | VStr s => negb (String.eqb s "")
  | VArr _ | VObj _ => true
  end.

(** [a ?? b] *)
Definition nullish (a b : JsValue) : JsValue :=
  match a with
  | VUndefined | VNull => b
  | _ => a
  end.

(** [a || b] *)
Definition orElse (a b : JsValue) : JsValue := if truthy a then a else b.

(** *** Strings *)

(** White space of the code units below 256: TAB, LF, VT, FF, CR, SP and
    NBSP. *)
Definition isSpace (c : ascii) : bool :=
  let n := nat_of_ascii c in
  (Nat.leb 9 n && Nat.leb n 13) || Nat.eqb n 32 || Nat.eqb n 160.

Definition isDigit (c : ascii) : bool :=
  let n := nat_of_ascii c in Nat.leb 48 n && Nat.leb n 57.

Fixpoint trimStart (s : string) : string :=
  match s with
  | String c r => if isSpace c then trimStart r else s
  | EmptyString => EmptyString
  end.

Fixpoint rev_string (s acc : string) : string :=
  match s with
  | EmptyString => acc
  | String c r => rev_string r (String c acc)
  end.

Definition trimEnd (s : string) : string :=
  rev_string (trimStart (rev_string s "")) "".

(** [s.trim()] *)
Definition trim (s : string) : string := trimEnd (trimStart s).

(** [c.toLowerCase()] on one code unit: A-Z, and the capital letters of
    0xC0-0xDE apart from the multiplication sign 0xD7. *)
Definition lowerChar (c : ascii) : ascii :=
  let n := nat_of_ascii c in
  if (Nat.leb 65 n && Nat.leb n 90)
     || (Nat.leb 192 n && Nat.leb n 222 && negb (Nat.eqb n 215))
  then ascii_of_nat (n + 32) else c.

(** [s.toLowerCase()] *)
Fixpoint toLowerCase (s : string) : string :=
  match s with
  | EmptyString => EmptyString
  | String c r => String (lowerChar c) (toLowerCase r)
  end.

(** [s.startsWith(p)] is [String.prefix p s]; [s.endsWith(p)]: *)
Definition endsWith (s p : string) : bool :=
  String.prefix (rev_string p "") (rev_string s "").

(** [s.includes(t)] *)
Fixpoint includes (s t : string) : bool :=
  String.prefix t s ||
  match s with
  | EmptyString => false
  | String _ r => includes r t
  end.

(** [xs.join(sep)] on strings. *)
Fixpoint join (sep : string) (xs : list string) : string :=
  match xs with
  | [] => ""
  | [x] => x
  | x :: rest => x ++ sep ++ join sep rest
  end.

(** [s.split(".")] *)
Fixpoint splitDotAux (s cur : string) : list string :=
  match s with
  | EmptyString => [rev_string cur ""]
  | String c r =>
      if Ascii.eqb c "."%char
      then rev_string cur "" :: splitDotAux r ""
      else splitDotAux r (String c cur)
  end.

Definition splitDot (s : string) : list string := splitDotAux s "".

(** [s.split(/\s*,\s*/)].  [cur] is the piece read so far and [pend] the
    white space after it, both reversed: the white space belongs to the
    separator when a comma follows and to the piece otherwise.  After a
    separator ([inSep]) white space is skipped. *)
Fixpoint splitCommaAux (s cur pend : string) (inSep : bool) : list string :=
  match s with
  | EmptyString => [rev_string (pend ++ cur) ""]
  | String c r =>
      if Ascii.eqb c ","%char then
        rev_string cur "" :: splitCommaAux r "" "" true
      else if isSpace c then
        if inSep then splitCommaAux r cur pend true
        else splitCommaAux r cur (String c pend) false
      else splitCommaAux r (String c (pend ++ cur)) "" false
  end.

Definition splitComma (s : string) : list string := splitCommaAux s "" "" false.

(** [s.replace(/\[|\]/g, "")] *)
Fixpoint stripBrackets (s : string) : string :=
  match s with
  | EmptyString => EmptyString
  | String c r =>
      if Ascii.eqb c "["%char || Ascii.eqb c "]"%char
      then stripBrackets r else String c (stripBrackets r)
  end.

(** [s.replace(/^\"|\"$/g, "")]: one quote off the front and one off the
    end. *)
Definition dquote : ascii := ascii_of_nat 34.

Definition quoted (s : string) : string :=
  String dquote (s ++ String dquote "").

Definition dropLastQuote (s : string) : string :=
  match rev_string s "" with
  | String c r => if Ascii.eqb c dquote then rev_string r "" else s
  | EmptyString => s
  end.

Definition stripQuotes (s : string) : string :=
  match s with
  | String c r => if Ascii.eqb c dquote then dropLastQuote r else dropLastQuote s
  | EmptyString => s
  end.

(** [s.match(/^(\d+)\s*-\s*(\d+)$/)]: the two captured digit strings. *)
Fixpoint spanDigits (s acc : string) : string * string :=
  match s with
  | String c r => if isDigit c then spanDigits r (String c acc) else (rev_string acc "", s)
  | EmptyString => (rev_string acc "", s)
  end.

Definition matchRange (s : string) : option (string * string) :=
  let (a, rest) := spanDigits s "" in
  if String.eqb a "" then None else
  match trimStart rest with
  | String c rest' =>
      if Ascii.eqb c "-"%char then
        let (b, tail) := spanDigits (trimStart rest') "" in
        if String.eqb b "" then None
        else if String.eqb tail "" then Some (a, b) else None
      else None
  | EmptyString => None
  end.

(** Decimal digits of a natural number, as [n.toString()] prints an array
    index. *)
Fixpoint digitsAux (fuel n : nat) (acc : string) : string :=
  match fuel with
  | O => acc
  | S fuel' =>
      let acc' := String (ascii_of_nat (48 + n mod 10)) acc in
      if Nat.ltb n 10 then acc' else digitsAux fuel' (n / 10) acc'
  end.

Definition natToString (n : nat) : string := digitsAux (S n) n "".

(** *** Conversions *)

(** The part of the engine that the model takes from its host:
    [Number(s)] on a string, [String(n)] on a number, and [JSON.parse] on a
    text that starts with an opening and ends with a closing bracket, where
    a successful parse is an array ([None] is the [SyntaxError]). *)
Class JsHost : Type := {
  str_to_num : string -> JsNum;
  num_to_str : JsNum -> string;
  json_parse_array : string -> option (list JsValue)
}.

Section Conversions.
Context {host : JsHost}.

(** [String(v)] *)
Fixpoint toStr (v : JsValue) : string :=
  match v with
  | VUndefined => "undefined"
  | VNull => "null"
  | VBool true => "true"
  | VBool false => "false"
  | VNum n => num_to_str n
  | VStr s => s
  | VArr items =>
      join "," (map (fun x => match x with
                              | VUndefined | VNull => ""
                              | _ => toStr x
                              end) items)
  | VObj _ => "[object Object]"
  end.

(** [Number(v)] *)
Definition toNumber (v : JsValue) : JsNum :=
  match v with
  | VUndefined => NaN
  | VNull => ofNat 0
  | VBool b => ofNat (if b then 1 else 0)
  | VNum n => n
  | VStr s => str_to_num s
  | VArr _ | VObj _ => str_to_num (toStr v)
  end.

End Conversions.

(** [v?.[key]]: a property of a data object, the length and the elements
    of an array, the length and the code units of a string.  Inherited
    methods are not values of the model and read as [undefined]. *)
Definition indexOfKey (key : string) (len : nat) : option nat :=
  find (fun i => String.eqb (natToString i) key) (seq 0 len).

Definition member (v : JsValue) (key : string) : JsValue :=
  match v with
  | VObj o => getProp o key
  | VArr items =>
      if String.eqb key "length" then VNum (ofNat (List.length items))
      else match indexOfKey key (List.length items) with
           | Some i => nth i items VUndefined
           | None => VUndefined
           end
  | VStr s =>
      if String.eqb key "length" then VNum (ofNat (String.length s))
      else match indexOfKey key (String.length s) with
           | Some i => VStr (String.substring i 1 s)
           | None => VUndefined
           end
  | _ => VUndefined
  end.

End Js.

(* ================================================================== *)
(** ** lib/data-context.ts: the registry *)
(* ================================================================== *)

Module DataContext.
Import Js.

Inductive DataTypeKey : Type := clients | workers | tasks.

Definition keyName (k : DataTypeKey) : string :=
  match k with
  | clients => "clients"
  | workers => "workers"
  | tasks => "tasks"
  end.

Record Registry : Type := {
  reg_clients : list JsObj;
  reg_workers : list JsObj;
  reg_tasks : list JsObj
}.

(** The registry of a fresh process. *)
Definition registry0 : Registry :=
  {| reg_clients := []; reg_workers := []; reg_tasks := [] |}.

Definition setData (type : DataTypeKey) (data : list JsObj) (registry : Registry)
  : Registry :=
  match type with
  | clients => {| reg_clients := data; reg_workers := reg_workers registry;
                  reg_tasks := reg_tasks registry |}
  | workers => {| reg_clients := reg_clients registry; reg_workers := data;
                  reg_tasks := reg_tasks registry |}
  | tasks => {| reg_clients := reg_clients registry;
                reg_workers := reg_workers registry; reg_tasks := data |}
  end.

Definition getData (type : DataTypeKey) (registry : Registry) : list JsObj :=
  match type with
  | clients => reg_clients registry
  | workers => reg_workers registry
  | tasks => reg_tasks registry
  end.

Definition getAll (registry : Registry) : Registry := registry.

End DataContext.

(* ================================================================== *)
(** ** lib/validation-engine.ts: rules and per-record validation *)
(* ================================================================== *)

Module ValidationEngine.
Import Js.
Import DataContext.

Inductive Severity : Type := SevError | SevWarning | SevInfo.

Inductive RuleType : Type := TRequired | TFormat | TRange | TCustom | TAi.

Record ValidationRule : Type := {
  rule_id : string;
  rule_name : string;
  rule_field : string;
  rule_type : RuleType;
  rule_condition : string;
  rule_message : string;
  rule_severity : Severity;
  rule_autoFix : option bool;
  rule_fixSuggestion : option string
}.

(** [ValidationError] of types/index.ts. *)
Record ValidationError : Type := {
  err_field : string;
  err_message : string;
  err_severity : Severity;
  err_suggestions : option (list string)
}.

(** [ValidationResult] of types/index.ts. *)
Record ValidationResult : Type := {
  isValid : bool;
  errors : list ValidationError;
  warnings : list ValidationError;
  suggestions : list ValidationError;
  score : JsNum;
  recordId : JsValue;
  recordType : string;
  qualityScore : JsNum;
  validatedAt : string
}.

(** The field [rules : Map<string, ValidationRule[]>], in insertion order. *)
Definition RuleMap : Type := list (string * list ValidationRule).

Fixpoint mapGet {V : Type} (m : list (string * V)) (k : string) : option V :=
  match m with
  | [] => None
  | (k', v) :: rest => if String.eqb k' k then Some v else mapGet rest k
  end.

(** [addRule]: the rule goes to the end of its data type's list, which is
    created on first use. *)
Fixpoint addRule (dataType : string) (rule : ValidationRule) (rules : RuleMap)
  : RuleMap :=
  match rules with
  | [] => [(dataType, [rule])]
  | (k, l) :: rest =>
      if String.eqb k dataType then (k, l ++ [rule]) :: rest
      else (k, l) :: addRule dataType rule rest
  end.

(** [removeRule]: the first rule with that id is spliced out. *)
Fixpoint spliceFirst (ruleId : string) (l : list ValidationRule)
  : list ValidationRule :=
  match l with
  | [] => []
  | r :: rest =>
      if String.eqb (rule_id r) ruleId then rest else r :: spliceFirst ruleId rest
  end.

Fixpoint removeRule (dataType ruleId : string) (rules : RuleMap) : RuleMap :=
  match rules with
  | [] => []
  | (k, l) :: rest =>
      if String.eqb k dataType then (k, spliceFirst ruleId l) :: rest
      else (k, l) :: removeRule dataType ruleId rest
  end.

(** [getRules], also [this.rules.get(dataType) || []]. *)
Definition getRules (rules : RuleMap) (dataType : string) : list ValidationRule :=
  match mapGet rules dataType with
  | Some l => l
  | None => []
  end.

Definition mkRule (id name field : string) (type : RuleType)
  (condition message : string) (severity : Severity) (autoFix : bool)
  (fixSuggestion : option string) : ValidationRule :=
  {| rule_id := id; rule_name := name; rule_field := field; rule_type := type;
     rule_condition := condition; rule_message := message;
     rule_severity := severity; rule_autoFix := Some autoFix;
     rule_fixSuggestion := fixSuggestion |}.

Definition condNonBlank : string :=
  "value != null && value.trim() != " ++ quoted "".

Definition condOneOf (options : list string) : string :=
  "[" ++ join ", " (map quoted options) ++ "].includes(value)".

(** [initializeDefaultRules], run by the constructor on the empty map. *)
Definition initializeDefaultRules (rules : RuleMap) : RuleMap :=
  let add := fun dataType rule m => addRule dataType rule m in
  let steps : list (RuleMap -> RuleMap) := [
    add "clients" (mkRule "client-name-required" "Client Name Required"
      "ClientName" TRequired condNonBlank "Client name is required"
      SevError false None);
    add "clients" (mkRule "client-id-required" "Client ID Required"
      "ClientID" TRequired condNonBlank "Client ID is required"
      SevError false None);
    add "clients" (mkRule "client-priority-level-range" "Priority Level Range"
      "PriorityLevel" TRange "value >= 1 && value <= 5"
      "Priority level must be between 1 and 5" SevError false None);
    add "clients" (mkRule "client-budget-range" "Budget Range Check"
      "budget" TRange
      "value === undefined || (Number(value) >= 1000 && Number(value) <= 1000000)"
      "Budget should be between $1,000 and $1,000,000" SevWarning false None);
    add "workers" (mkRule "worker-name-required" "Worker Name Required"
      "name" TRequired condNonBlank "Worker name is required"
      SevError false None);
    add "workers" (mkRule "worker-email-format" "Valid Email Format"
      "email" TFormat "/^[^\s@]+@[^\s@]+\.[^\s@]+$/.test(value)"
      "Please provide a valid email address" SevError true
      (Some "Check email format (example@domain.com)"));
    add "workers" (mkRule "worker-rate-range" "Hourly Rate Range"
      "hourlyRate" TRange "value >= 15 && value <= 500"
      "Hourly rate should be between $15 and $500" SevWarning false None);
    add "workers" (mkRule "worker-skills-required" "Skills Required"
      "skills" TCustom "Array.isArray(value) && value.length > 0"
      "At least one skill is required" SevError false None);
    add "workers" (mkRule "worker-availability-valid" "Valid Availability Status"
      "availability" TCustom
      (condOneOf ["available"; "busy"; "unavailable"])
      "Availability must be available, busy, or unavailable" SevError true
      (Some "Use: available, busy, or unavailable"));
    add "tasks" (mkRule "task-title-required" "Task Title Required"
      "title" TRequired condNonBlank "Task title is required"
      SevError false None);
    add "tasks" (mkRule "task-deadline-future" "Future Deadline"
      "deadline" TCustom "new Date(value) > new Date()"
      "Deadline should be in the future" SevWarning false None);
    add "tasks" (mkRule "task-hours-range" "Estimated Hours Range"
      "estimatedHours" TRange "value >= 1 && value <= 1000"
      "Estimated hours should be between 1 and 1000" SevWarning false None);
    add "tasks" (mkRule "task-priority-valid" "Valid Priority Level"
      "priority" TCustom (condOneOf ["urgent"; "high"; "medium"; "low"])
      "Priority must be urgent, high, medium, or low" SevError true
      (Some "Use: urgent, high, medium, or low"))
  ] in
  fold_left (fun m step => step m) steps rules.

(** The rule map of [new ValidationEngine()]. *)
Definition defaultRules : RuleMap := initializeDefaultRules [].

(** *** The environment of a call *)

(** What [new Function(...)(...)] does with a condition: it returns a value
    or it throws (a syntax error in the condition, a fault while it runs). *)
Inductive EvalOutcome : Type :=
| Returned (v : JsValue)
| Thrown.

(** What [performAIValidation] hands back, when each of the three answers
    is an array.  [validateRecord] spreads them into its lists outside any
    [try]: an answer that is truthy and not iterable makes it throw, which
    is not embedded. *)
Record AiFindings : Type := {
  ai_errors : list ValidationError;
  ai_warnings : list ValidationError;
  ai_suggestions : list ValidationError
}.

Definition noFindings : AiFindings :=
  {| ai_errors := []; ai_warnings := []; ai_suggestions := [] |}.

(** - [registry]: the state of lib/data-context.ts as [require] and
      [getData] deliver it, [None] when that access throws;
    - [evalJs call condition value record]: the outcome of the function
      built from [condition], applied in the context [{value, record,
      Array, Date}], during the invocation [call] of [validateRecord]; it
      may read the clock;
    - [completion call record dataType]: the findings
      [performAIValidation] returns to that invocation; they are
      [noFindings] when no API key is set and when the request or the
      parsing of its answer fails;
    - [recordStamp call]: [new Date().toISOString()] as that invocation
      reads it; [crossStamp i]: the same as [performCrossRecordValidation]
      reads it for record [i].
    Within [validateBatch] the invocation for the record at index [i] is
    invocation [i]. *)
Record Env : Type := {
  registry : option Registry;
  evalJs : nat -> string -> JsValue -> JsObj -> EvalOutcome;
  completion : nat -> JsObj -> string -> AiFindings;
  recordStamp : nat -> string;
  crossStamp : nat -> string
}.

Section Engine.
Context {host : JsHost}.
Variable env : Env.

(** [getFieldValue]: a dotted path, read with optional chaining. *)
Definition getFieldValue (record : JsObj) (field : string) : JsValue :=
  fold_left (fun obj key => member obj key) (splitDot field) (VObj record).

(** [evaluateCondition]: the value the condition returns, and [true] when
    building or running it throws. *)
Definition evaluateCondition (call : nat) (condition : string) (value : JsValue)
  (record : JsObj) : JsValue :=
  match evalJs env call condition value record with
  | Returned v => v
  | Thrown => VBool true
  end.

Definition performAIValidation (call : nat) (record : JsObj) (dataType : string)
  : AiFindings :=
  completion env call record dataType.

(** [calculateQualityScore] *)
Definition isNonEmptyField (record : JsObj) (field : string) : bool :=
  match getProp record field with
  | VNull | VUndefined => false
  | VStr s => negb (String.eqb s "")
  | _ => true
  end.

Definition calculateQualityScore (record : JsObj)
  (errors warnings suggestions : list ValidationError) : JsNum :=
  let score := ofNat 100 in
  let score := sub score (mul (ofNat (List.length errors)) (ofNat 20)) in
  let score := sub score (mul (ofNat (List.length warnings)) (ofNat 10)) in
  let score := sub score (mul (ofNat (List.length suggestions)) (ofNat 5)) in
  let fields := keys record in
  let nonEmptyFields := filter (isNonEmptyField record) fields in
  let completenessBonus :=
    mul (div (ofNat (List.length nonEmptyFields)) (ofNat (List.length fields)))
        (ofNat 10) in
  let score := add score completenessBonus in
  max (ofNat 0) (min (ofNat 100) (round score)).

(** The three arrays a run over the rules fills. *)
Record Findings : Type := {
  f_errors : list ValidationError;
  f_warnings : list ValidationError;
  f_suggestions : list ValidationError
}.

Definition ruleError (rule : ValidationRule) : ValidationError :=
  {| err_field := rule_field rule;
     err_message := rule_message rule;
     err_severity := rule_severity rule;
     err_suggestions :=
       match rule_fixSuggestion rule with
       | Some s => if String.eqb s "" then None else Some [s]
       | None => None
       end |}.

(** One turn of the loop [for (const rule of rules)]. *)
Definition applyRule (call : nat) (record : JsObj) (acc : Findings)
  (rule : ValidationRule) : Findings :=
  let fieldValue := getFieldValue record (rule_field rule) in
  let isValid := evaluateCondition call (rule_condition rule) fieldValue record in
  if negb (truthy isValid) then
    let error := ruleError rule in
    match rule_severity rule with
    | SevError =>
        {| f_errors := f_errors acc ++ [error]; f_warnings := f_warnings acc;
           f_suggestions := f_suggestions acc |}
    | SevWarning =>
        {| f_errors := f_errors acc; f_warnings := f_warnings acc ++ [error];
           f_suggestions := f_suggestions acc |}
    | SevInfo =>
        {| f_errors := f_errors acc; f_warnings := f_warnings acc;
           f_suggestions := f_suggestions acc ++ [error] |}
    end
  else acc.

Definition applyRules (call : nat) (record : JsObj) (rules : list ValidationRule)
  : Findings :=
  fold_left (applyRule call record) rules
    {| f_errors := []; f_warnings := []; f_suggestions := [] |}.

(** [record.id || record._rowIndex?.toString()] *)
Definition rowIndexString (record : JsObj) : JsValue :=
  match getProp record "_rowIndex" with
  | VUndefined | VNull => VUndefined
  | v => VStr (toStr v)
  end.

Definition recordIdOf (record : JsObj) : JsValue :=
  orElse (getProp record "id") (rowIndexString record).

(** [validateRecord], in its invocation [call]. *)
Definition validateRecord (rules : RuleMap) (call : nat) (record : JsObj)
  (dataType : DataTypeKey) : ValidationResult :=
  let rules := getRules rules (keyName dataType) in
  let found := applyRules call record rules in
  let aiValidation := performAIValidation call record (keyName dataType) in
  let errors := f_errors found ++ ai_errors aiValidation in
  let warnings := f_warnings found ++ ai_warnings aiValidation in
  let suggestions := f_suggestions found ++ ai_suggestions aiValidation in
  let score := calculateQualityScore record errors warnings suggestions in
  {| isValid := Nat.eqb (List.length errors) 0;
     errors := errors;
     warnings := warnings;
     suggestions := suggestions;
     score := score;
     recordId := recordIdOf record;
     recordType := keyName dataType;
     qualityScore := score;
     validatedAt := recordStamp env call |}.

(** *** Helpers for cross-entity parsing *)

(** [Array.from({ length: b - a + 1 }, (_, i) => a + i)].  The length is
    brought to an integer as [ToLength] does; [Array] refuses a length
    above 2^32 - 1 with a [RangeError], which is [None] here.  An engine
    may refuse a shorter array that it cannot hold, and the doubles of the
    source round [a + i] above 2^53: the list is the one of the source for
    the ranges that the engine builds, with [b] up to 2^53. *)
Definition maxArrayLength : Z := 4294967295%Z.

Definition arrayFromRange (a b : JsNum) : option (list JsNum) :=
  match add (sub b a) (ofNat 1) with
  | Fin q =>
      let len := Z.max 0 (Qfloor q) in
      if Z.ltb maxArrayLength len then None
      else Some (map (fun i => add a (ofNat i)) (seq 0 (Z.to_nat len)))
  | PosInf => None
  | NaN | NegInf => Some []
  end.

Definition nonEmpty (s : string) : bool := negb (String.eqb s "").

(** [xs.map((n) => Number(n)).filter((n) => Number.isFinite(n))] *)
Definition finiteNumbers (xs : list JsValue) : list JsNum :=
  filter isFinite (map toNumber xs).

(** [parseNumberList]; [None] when it throws. *)
Definition parseNumberList (input : JsValue) : option (list JsNum) :=
  match input with
  | VArr items => Some (finiteNumbers items)
  | VStr s =>
      let trimmed := trim s in
      let parsed :=
        if String.prefix "[" trimmed && endsWith trimmed "]"
        then json_parse_array trimmed else None in
      match parsed with
      | Some arr => Some (finiteNumbers arr)
      | None =>
          let commaSeparated :=
            filter isFinite
              (map str_to_num (filter nonEmpty (splitComma (stripBrackets trimmed)))) in
          match matchRange trimmed with
          | Some (ma, mb) =>
              let a := str_to_num ma in
              let b := str_to_num mb in
              if isFinite a && isFinite b && le a b
              then arrayFromRange a b
              else Some commaSeparated
          | None => Some commaSeparated
          end
      end
  | _ => Some []
  end.

(** [parseStringList] *)
Definition parseStringList (input : JsValue) : list string :=
  match input with
  | VArr items => filter nonEmpty (map (fun s => trim (toStr s)) items)
  | VStr s =>
      filter nonEmpty (map (fun t => trim (stripQuotes t)) (splitComma s))
  | _ => []
  end.

(** *** Duplicate detection *)

Definition getKeyFields (dataType : string) : list string :=
  if String.eqb dataType "clients" then ["id"; "ClientID"; "email"; "name"; "ClientName"]
  else if String.eqb dataType "workers" then ["id"; "email"; "name"]
  else if String.eqb dataType "tasks" then ["id"; "TaskID"; "TaskName"]
  else [].

Record Duplicate : Type := {
  dup_indices : list nat;
  dup_field : string;
  dup_message : string
}.

(** [valueMap.get(key)!.push(index)], after [valueMap.set(key, [])] for a
    new key: a [Map] keeps its keys in insertion order. *)
Fixpoint mapPush (m : list (string * list nat)) (key : string) (index : nat)
  : list (string * list nat) :=
  match m with
  | [] => [(key, [index])]
  | (k, l) :: rest =>
      if String.eqb k key then (k, l ++ [index]) :: rest
      else (k, l) :: mapPush rest key index
  end.

Fixpoint valueMapFrom (field : string) (records : list JsObj) (index : nat)
  (valueMap : list (string * list nat)) : list (string * list nat) :=
  match records with
  | [] => valueMap
  | record :: rest =>
      let value := getFieldValue record field in
      let valueMap :=
        if truthy value
        then mapPush valueMap (trim (toLowerCase (toStr value))) index
        else valueMap in
      valueMapFrom field rest (S index) valueMap
  end.

Definition duplicatesOfField (records : list JsObj) (field : string)
  : list Duplicate :=
  flat_map
    (fun entry : string * list nat =>
       let (value, indices) := entry in
       if Nat.ltb 1 (List.length indices) then
         [{| dup_indices := indices; dup_field := field;
             dup_message := "Duplicate " ++ field ++ ": " ++ quoted value
                            ++ " found in multiple records" |}]
       else [])
    (valueMapFrom field records 0 []).

Definition findDuplicates (records : list JsObj) (dataType : string)
  : list Duplicate :=
  flat_map (duplicatesOfField records) (getKeyFields dataType).

(** *** Cross-record validation *)

(** [performCrossRecordValidation] fills the array [results] in place.  A
    step of it takes the array and either completes, or throws having
    changed the array so far. *)
Inductive Completion (A : Type) : Type :=
| Normal (a : A) (results : list ValidationResult)
| Abrupt (results : list ValidationResult).
Arguments Abrupt {A} results.

Definition Exec (A : Type) : Type := list ValidationResult -> Completion A.

Definition ret {A : Type} (a : A) : Exec A := fun results => Normal a results.

Definition bind {A B : Type} (m : Exec A) (k : A -> Exec B) : Exec B :=
  fun results =>
    match m results with
    | Normal a results' => k a results'
    | Abrupt results' => Abrupt results'
    end.

Definition throw {A : Type} : Exec A := fun results => Abrupt results.

(** [try { m } catch {}] *)
Definition tryCatch (m : Exec unit) : Exec unit :=
  fun results =>
    match m results with
    | Normal _ results' | Abrupt results' => Normal tt results'
    end.

(** A value that may have been thrown instead. *)
Definition orThrow {A : Type} (x : option A) : Exec A :=
  match x with
  | Some a => ret a
  | None => throw
  end.

Definition when (c : bool) (m : Exec unit) : Exec unit :=
  if c then m else ret tt.

Fixpoint forEachFrom {X : Type} (f : X -> nat -> Exec unit) (xs : list X)
  (index : nat) : Exec unit :=
  match xs with
  | [] => ret tt
  | x :: rest => bind (f x index) (fun _ => forEachFrom f rest (S index))
  end.

(** [xs.forEach((x, index) => ...)] *)
Definition forEach {X : Type} (f : X -> nat -> Exec unit) (xs : list X)
  : Exec unit := forEachFrom f xs 0.

Fixpoint updateAt {X : Type} (f : X -> X) (index : nat) (xs : list X) : list X :=
  match xs, index with
  | [], _ => []
  | x :: rest, O => f x :: rest
  | x :: rest, S i => x :: updateAt f i rest
  end.

Definition withErrors (f : list ValidationError -> list ValidationError)
  (r : ValidationResult) : ValidationResult :=
  {| isValid := isValid r; errors := f (errors r); warnings := warnings r;
     suggestions := suggestions r; score := score r; recordId := recordId r;
     recordType := recordType r; qualityScore := qualityScore r;
     validatedAt := validatedAt r |}.

Definition withWarnings (f : list ValidationError -> list ValidationError)
  (r : ValidationResult) : ValidationResult :=
  {| isValid := isValid r; errors := errors r; warnings := f (warnings r);
     suggestions := suggestions r; score := score r; recordId := recordId r;
     recordType := recordType r; qualityScore := qualityScore r;
     validatedAt := validatedAt r |}.

(** [results[index].errors.push(e)]; reading [.errors] of a missing
    element throws. *)
Definition pushError (index : nat) (e : ValidationError) : Exec unit :=
  fun results =>
    match nth_error results index with
    | Some _ => Normal tt (updateAt (withErrors (fun l => l ++ [e])) index results)
    | None => Abrupt results
    end.

(** [results[index].warnings.push(e)] *)
Definition pushWarning (index : nat) (e : ValidationError) : Exec unit :=
  fun results =>
    match nth_error results index with
    | Some _ => Normal tt (updateAt (withWarnings (fun l => l ++ [e])) index results)
    | None => Abrupt results
    end.

Notation "x <- m ;; k" := (bind m (fun x => k))
  (at level 61, m at next level, right associativity).
Notation "m ;; k" := (bind m (fun _ => k))
  (at level 61, right associativity).

Definition mkError (field message : string) (severity : Severity)
  (suggestions : option (list string)) : ValidationError :=
  {| err_field := field; err_message := message; err_severity := severity;
     err_suggestions := suggestions |}.

(** The array [results] as it is first built. *)
Definition crossRecordId (record : JsObj) (index : nat) : JsValue :=
  orElse (orElse (getProp record "id") (rowIndexString record))
         (VStr (natToString index)).

Fixpoint initialResultsFrom (records : list JsObj) (dataType : string)
  (index : nat) : list ValidationResult :=
  match records with
  | [] => []
  | record :: rest =>
      {| isValid := true; errors := []; warnings := []; suggestions := [];
         score := ofNat 100;
         recordId := crossRecordId record index;
         recordType := dataType;
         qualityScore := ofNat 100;
         validatedAt := crossStamp env index |}
      :: initialResultsFrom rest dataType (S index)
  end.

Definition initialResults (records : list JsObj) (dataType : string)
  : list ValidationResult := initialResultsFrom records dataType 0.

Definition duplicateWarning (d : Duplicate) : ValidationError :=
  mkError (dup_field d) (dup_message d) SevWarning
    (Some ["Review for potential duplicate entries"]).

Definition checkDuplicates (records : list JsObj) (dataType : string) : Exec unit :=
  forEach
    (fun d _ => forEach (fun index _ => pushWarning index (duplicateWarning d))
                        (dup_indices d))
    (findDuplicates records dataType).

(** [isValidClientReference]: a registry that cannot be read makes every
    reference valid. *)
Definition isValidClientReference (clientId : JsValue) : bool :=
  match registry env with
  | None => true
  | Some reg =>
      let idFieldCandidates := ["id"; "ClientID"; "clientId"] in
      existsb
        (fun c =>
           existsb
             (fun k =>
                String.eqb (toLowerCase (toStr (orElse (getProp c k) (VStr ""))))
                           (toLowerCase (toStr clientId)))
             idFieldCandidates)
        (getData clients reg)
  end.

(** [candidates.find((v) => v)] *)
Definition firstTruthy (candidates : list JsValue) : JsValue :=
  match find truthy candidates with
  | Some v => v
  | None => VUndefined
  end.

Definition clientReferenceError : ValidationError :=
  mkError "clientId" "Referenced client does not exist" SevError
    (Some ["Verify client ID exists in clients data"]).

Definition checkClientReferences (records : list JsObj) : Exec unit :=
  forEach
    (fun record index =>
       let candidates := [getProp record "clientId"; getProp record "ClientID";
                          getProp record "client_id"] in
       let ref := firstTruthy candidates in
       when (truthy ref && negb (isValidClientReference ref))
            (pushError index clientReferenceError))
    records.

Definition durationError : ValidationError :=
  mkError "Duration" "Duration must be a positive number (>= 1)" SevError
    (Some ["Set Duration to an integer >= 1"]).

Definition checkDurations (records : list JsObj) : Exec unit :=
  forEach
    (fun record index =>
       let duration :=
         toNumber (nullish (getProp record "Duration")
                  (nullish (getProp record "duration")
                  (nullish (getProp record "estimatedHours")
                           (getProp record "estimated_hours")))) in
       when (negb (isFinite duration) || lt duration (ofNat 1))
            (pushError index durationError))
    records.

Definition isUndefined (v : JsValue) : bool :=
  match v with VUndefined => true | _ => false end.

Definition isEmpty {X : Type} (xs : list X) : bool :=
  match xs with [] => true | _ => false end.

Definition preferredPhasesError : ValidationError :=
  mkError "PreferredPhases"
    "PreferredPhases must be a list/range like '1-3' or [2,4,5]" SevError None.

Definition checkPreferredPhases (records : list JsObj) : Exec unit :=
  forEach
    (fun record index =>
       let raw := nullish (getProp record "PreferredPhases")
                          (getProp record "preferredPhases") in
       if isUndefined raw then ret tt else
       phases <- orThrow (parseNumberList raw) ;;
       when (isEmpty phases) (pushError index preferredPhasesError))
    records.

Definition availableSlotsError : ValidationError :=
  mkError "AvailableSlots"
    "AvailableSlots must be an array of numbers (e.g., [1,3,5])" SevError None.

Definition checkAvailableSlots (records : list JsObj) : Exec unit :=
  forEach
    (fun record index =>
       let raw := nullish (getProp record "AvailableSlots")
                          (getProp record "availableSlots") in
       if isUndefined raw then ret tt else
       slots <- orThrow (parseNumberList raw) ;;
       when (isEmpty slots || existsb (fun n => negb (isFinite n)) slots)
            (pushError index availableSlotsError))
    records.

(** Skill coverage matrix. *)
Definition skillsOf (w : JsObj) : list string :=
  parseStringList (nullish (getProp w "Skills") (getProp w "skills")).

Definition requiredSkillsOf (t : JsObj) : list string :=
  parseStringList (nullish (getProp t "RequiredSkills") (getProp t "requiredSkills")).

Definition inList (s : string) (l : list string) : bool :=
  existsb (String.eqb s) l.

Definition workerSkillsOf (workers : list JsObj) : list string :=
  map toLowerCase (flat_map skillsOf workers).

Definition missingSkills (workerSkills : list string) (t : JsObj) : list string :=
  filter (fun s => negb (inList (toLowerCase s) workerSkills)) (requiredSkillsOf t).

Definition skillCoverageError (missing : list string) : ValidationError :=
  mkError "RequiredSkills"
    ("Missing worker coverage for skills: " ++ join ", " missing) SevError
    (Some ["Add workers with these skills or adjust task requirements"]).

Definition checkSkillCoverage (workers records : list JsObj) : Exec unit :=
  let workerSkills := workerSkillsOf workers in
  forEach
    (fun t idx =>
       let missing := missingSkills workerSkills t in
       when (negb (isEmpty missing)) (pushError idx (skillCoverageError missing)))
    records.

(** Max-concurrency feasibility. *)
Definition qualifiedWorkers (workers : list JsObj) (skills : list string) : nat :=
  List.length
    (filter (fun w =>
               let ws := map toLowerCase (skillsOf w) in
               forallb (fun s => inList s ws) skills)
            workers).

Definition maxConcurrentError (maxConc : JsNum) (qualified : nat) : ValidationError :=
  mkError "MaxConcurrent"
    ("MaxConcurrent (" ++ num_to_str maxConc
     ++ ") exceeds number of qualified workers ("
     ++ num_to_str (ofNat qualified) ++ ")") SevError
    (Some ["Lower MaxConcurrent or add more qualified workers"]).

Definition checkMaxConcurrency (workers records : list JsObj) : Exec unit :=
  forEach
    (fun t idx =>
       let skills := map toLowerCase (requiredSkillsOf t) in
       let maxConc :=
         toNumber (nullish (getProp t "MaxConcurrent")
                  (nullish (getProp t "maxConcurrent") (VNum (ofNat 1)))) in
       let qualified := qualifiedWorkers workers skills in
       when (isFinite maxConc && gt maxConc (ofNat qualified))
            (pushError idx (maxConcurrentError maxConc qualified)))
    records.

(** Phase-slot saturation.  [capacity] is an object indexed by numbers:
    its keys are their decimal texts. *)
Definition Capacity : Type := list (string * JsNum).

(** [capacity[p] || 0] *)
Definition capacityAt (capacity : Capacity) (p : JsNum) : JsNum :=
  match mapGet capacity (num_to_str p) with
  | Some c => if truthy (VNum c) then c else ofNat 0
  | None => ofNat 0
  end.

Fixpoint setCapacity (capacity : Capacity) (key : string) (c : JsNum) : Capacity :=
  match capacity with
  | [] => [(key, c)]
  | (k, c') :: rest =>
      if String.eqb k key then (k, c) :: rest
      else (k, c') :: setCapacity rest key c
  end.

Definition addWorkerCapacity (capacity : Capacity) (slots : list JsNum)
  (maxPerPhase : JsNum) : Capacity :=
  fold_left
    (fun capacity p =>
       setCapacity capacity (num_to_str p)
         (add (capacityAt capacity p)
              (if isFinite maxPerPhase then maxPerPhase else ofNat 1)))
    slots capacity.

(** [workers.forEach((w) => ...)] over [capacity]; it throws when the
    slots of a worker do. *)
Fixpoint buildCapacity (workers : list JsObj) (capacity : Capacity)
  : option Capacity :=
  match workers with
  | [] => Some capacity
  | w :: rest =>
      match parseNumberList (nullish (getProp w "AvailableSlots")
                                     (getProp w "availableSlots")) with
      | None => None
      | Some slots =>
          let maxPerPhase :=
            toNumber (nullish (getProp w "MaxLoadPerPhase")
                     (nullish (getProp w "maxLoadPerPhase") (VNum (ofNat 1)))) in
          buildCapacity rest (addWorkerCapacity capacity slots maxPerPhase)
      end
  end.

Definition phaseWarning (p duration cap : JsNum) : ValidationError :=
  mkError "PreferredPhases"
    ("Phase " ++ num_to_str p ++ " demand (" ++ num_to_str duration
     ++ ") may exceed worker capacity (" ++ num_to_str cap ++ ")") SevWarning
    (Some ["Adjust phases, increase capacity or reduce duration"]).

Definition checkPhaseSaturation (workers records : list JsObj) : Exec unit :=
  capacity <- orThrow (buildCapacity workers []) ;;
  forEach
    (fun t idx =>
       let duration :=
         toNumber (nullish (getProp t "Duration")
                  (nullish (getProp t "duration") (VNum (ofNat 1)))) in
       phases <- orThrow (parseNumberList
                   (nullish (getProp t "PreferredPhases")
                            (getProp t "preferredPhases"))) ;;
       if negb (truthy (VNum duration)) || isEmpty phases then ret tt else
       forEach
         (fun p _ =>
            let cap := capacityAt capacity p in
            when (gt duration cap) (pushWarning idx (phaseWarning p duration cap)))
         phases)
    records.

(** RequestedTaskIDs unknown references (clients to tasks). *)
Definition knownTaskIds (tasks : list JsObj) : list string :=
  filter nonEmpty
    (map (fun t =>
            toLowerCase (toStr (nullish (getProp t "TaskID")
                               (nullish (getProp t "id")
                               (nullish (getProp t "title") (VStr ""))))))
         tasks).

Definition requestedTaskIds (c : JsObj) : list string :=
  parseStringList (nullish (getProp c "RequestedTaskIDs")
                  (nullish (getProp c "requestedTasks") (getProp c "tasks"))).

Definition unknownTaskIds (taskIds : list string) (c : JsObj) : list string :=
  filter (fun id => negb (inList (toLowerCase id) taskIds)) (requestedTaskIds c).

Definition unknownTaskIdsError (unknown : list string) : ValidationError :=
  mkError "RequestedTaskIDs" ("Unknown TaskIDs: " ++ join ", " unknown) SevError
    (Some ["Correct TaskIDs or add missing tasks"]).

Definition checkRequestedTasks (tasks records : list JsObj) : Exec unit :=
  let taskIds := knownTaskIds tasks in
  forEach
    (fun c cIdx =>
       let unknown := unknownTaskIds taskIds c in
       when (negb (isEmpty unknown)) (pushError cIdx (unknownTaskIdsError unknown)))
    records.

(** The block [try { ... } catch {}] of the checks that need the registry. *)
Definition crossDatasetChecks (records : list JsObj) (dataType : string)
  : Exec unit :=
  tryCatch (
    reg <- orThrow (registry env) ;;
    let workers := getData DataContext.workers reg in
    let tasks := getData DataContext.tasks reg in
    let onTasks := negb (isEmpty tasks) && negb (isEmpty workers)
                   && String.eqb dataType "tasks" in
    when onTasks (checkSkillCoverage workers records) ;;
    when onTasks (checkMaxConcurrency workers records) ;;
    when onTasks (checkPhaseSaturation workers records) ;;
    let clients := getData DataContext.clients reg in
    when (negb (isEmpty clients) && negb (isEmpty tasks)
          && String.eqb dataType "clients")
         (checkRequestedTasks tasks records)).

Definition crossRecordBody (records : list JsObj) (dataType : string) : Exec unit :=
  checkDuplicates records dataType ;;
  when (String.eqb dataType "tasks")
       (checkClientReferences records ;;
        checkDurations records ;;
        checkPreferredPhases records) ;;
  when (String.eqb dataType "workers") (checkAvailableSlots records) ;;
  crossDatasetChecks records dataType.

(** [performCrossRecordValidation]; [None] when it throws. *)
Definition performCrossRecordValidation (records : list JsObj) (dataType : string)
  : option (list ValidationResult) :=
  match crossRecordBody records dataType (initialResults records dataType) with
  | Normal _ results => Some results
  | Abrupt _ => None
  end.

(** *** Batches *)

Definition mergeInto (result crossResult : ValidationResult) : ValidationResult :=
  {| isValid := isValid result && isValid crossResult;
     errors := errors result ++ errors crossResult;
     warnings := warnings result ++ warnings crossResult;
     suggestions := suggestions result ++ suggestions crossResult;
     score := score result; recordId := recordId result;
     recordType := recordType result; qualityScore := qualityScore result;
     validatedAt := validatedAt result |}.

(** [crossValidation.forEach((crossResult, index) => { if (results[index])
    ... })] *)
Fixpoint mergeFrom (crossValidation : list ValidationResult) (index : nat)
  (results : list ValidationResult) : list ValidationResult :=
  match crossValidation with
  | [] => results
  | crossResult :: rest =>
      mergeFrom rest (S index)
        (updateAt (fun result => mergeInto result crossResult) index results)
  end.

Fixpoint validateRecordsFrom (rules : RuleMap) (records : list JsObj)
  (dataType : DataTypeKey) (index : nat) : list ValidationResult :=
  match records with
  | [] => []
  | record :: rest =>
      validateRecord rules index record dataType
      :: validateRecordsFrom rules rest dataType (S index)
  end.

(** [validateBatch]; [None] when the promise is rejected. *)
Definition validateBatch (rules : RuleMap) (records : list JsObj)
  (dataType : DataTypeKey) : option (list ValidationResult) :=
  let results := validateRecordsFrom rules records dataType 0 in
  match performCrossRecordValidation records (keyName dataType) with
  | Some crossValidation => Some (mergeFrom crossValidation 0 results)
  | None => None
  end.

End Engine.

Arguments Abrupt {A} results.

End ValidationEngine.

(* ================================================================== *)
(** ** A host and an environment to run the engine on examples *)
(* ================================================================== *)

Module Demo.
Import Js.
Import DataContext.
Import ValidationEngine.

(** *** Decimal numbers *)

Fixpoint digitsValue (s : string) (acc : Z) : option Z :=
  match s with
  | EmptyString => Some acc
  | String c r =>
      if isDigit c
      then digitsValue r (10 * acc + Z.of_nat (nat_of_ascii c - 48))%Z
      else None
  end.

Fixpoint splitAtDot (s acc : string) : string * option string :=
  match s with
  | EmptyString => (rev_string acc "", None)
  | String c r =>
      if Ascii.eqb c "."%char then (rev_string acc "", Some r)
      else splitAtDot r (String c acc)
  end.

(** An unsigned decimal literal [ddd], [ddd.ddd], [ddd.] or [.ddd]. *)
Definition unsignedDecimal (s : string) : option Q :=
  match splitAtDot s "" with
  | (whole, None) =>
      if String.eqb whole "" then None
      else option_map inject_Z (digitsValue whole 0%Z)
  | (whole, Some frac) =>
      if String.eqb whole "" && String.eqb frac "" then None else
      match digitsValue whole 0%Z, digitsValue frac 0%Z with
      | Some w, Some f =>
          Some (Qred (Qplus (inject_Z w)
                  (Qmake f (Pos.of_nat (10 ^ String.length frac)))))
      | _, _ => None
      end
  end.

(** [Number(s)] for the texts of the examples: white space around, an
    optional sign, [Infinity] or a decimal literal without exponent; the
    empty text is 0.  Literals with an exponent or a radix prefix are not
    covered and read as [NaN]. *)
Definition decimalToNumber (s : string) : JsNum :=
  let t := trim s in
  if String.eqb t "" then ofNat 0 else
  let (negative, body) :=
    match t with
    | String c r =>
        if Ascii.eqb c "-"%char then (true, r)
        else if Ascii.eqb c "+"%char then (false, r)
        else (false, t)
    | EmptyString => (false, t)
    end in
  if String.eqb body "Infinity" then (if negative then NegInf else PosInf) else
  match unsignedDecimal body with
  | Some q => if negative then neg (Fin q) else Fin q
  | None => NaN
  end.

Fixpoint fractionDigits (fuel : nat) (num : Z) (den : Z) : string :=
  match fuel with
  | O => ""
  | S fuel' =>
      if Z.eqb num 0 then "" else
      let d := Z.div (10 * num) den in
      String (ascii_of_nat (48 + Z.to_nat d))
             (fractionDigits fuel' (10 * num - d * den)%Z den)
  end.

(** [String(n)] for the numbers of the examples: integers and decimals of
    at most 17 fraction digits, below 10^21 in magnitude. *)
Definition decimalToString (n : JsNum) : string :=
  match n with
  | NaN => "NaN"
  | PosInf => "Infinity"
  | NegInf => "-Infinity"
  | Fin q =>
      let num := Z.abs (Qnum q) in
      let den := Zpos (Qden q) in
      let whole := natToString (Z.to_nat (Z.div num den)) in
      let frac := fractionDigits 17 (Z.modulo num den) den in
      (if Z.ltb (Qnum q) 0 then "-" else "")
      ++ whole ++ (if String.eqb frac "" then "" else "." ++ frac)
  end.

(** *** JSON arrays *)

Fixpoint spanNumber (s acc : string) : string * string :=
  match s with
  | String c r =>
      if isDigit c || Ascii.eqb c "."%char || Ascii.eqb c "-"%char
      then spanNumber r (String c acc) else (rev_string acc "", s)
  | EmptyString => (rev_string acc "", s)
  end.

Fixpoint spanString (s acc : string) : option (string * string) :=
  match s with
  | String c r =>
      if Ascii.eqb c dquote then Some (rev_string acc "", r)
      else if Ascii.eqb c "\"%char then None
      else spanString r (String c acc)
  | EmptyString => None
  end.

Definition dropPrefix (p s : string) : option string :=
  if String.prefix p s
  then Some (String.substring (String.length p) (String.length s - String.length p) s)
  else None.

(** The shape of a JSON number without exponent. *)
Definition allDigits (s : string) : bool :=
  match digitsValue s 0%Z with Some _ => nonEmpty s | None => false end.

Definition isJsonNumber (lit : string) : bool :=
  let body := match lit with
              | String c r => if Ascii.eqb c "-"%char then r else lit
              | EmptyString => lit
              end in
  match splitAtDot body "" with
  | (whole, frac) =>
      allDigits whole
      && (String.eqb whole "0" || negb (String.prefix "0" whole))
      && match frac with Some f => allDigits f | None => true end
  end.

(** One JSON value and the text after it.  Covered: [null], [true],
    [false], numbers without exponent, strings without escapes and arrays
    of these; every other text is refused. *)
Fixpoint jsonValue (fuel : nat) (s : string) : option (JsValue * string) :=
  match fuel with
  | O => None
  | S fuel' =>
      let items :=
        fix items (count : nat) (s : string) : option (list JsValue * string) :=
          match count with
          | O => None
          | S count' =>
              match jsonValue fuel' s with
              | None => None
              | Some (v, rest) =>
                  match trimStart rest with
                  | String c r =>
                      if Ascii.eqb c ","%char then
                        option_map (fun p => (v :: fst p, snd p)) (items count' r)
                      else if Ascii.eqb c "]"%char then Some ([v], r)
                      else None
                  | EmptyString => None
                  end
              end
          end in
      let s := trimStart s in
      match s with
      | EmptyString => None
      | String c r =>
          if Ascii.eqb c "["%char then
            match trimStart r with
            | String c' r' =>
                if Ascii.eqb c' "]"%char then Some (VArr [], r')
                else option_map (fun p => (VArr (fst p), snd p)) (items fuel' r)
            | EmptyString => None
            end
          else if Ascii.eqb c dquote then
            option_map (fun p => (VStr (fst p), snd p)) (spanString r "")
          else if isDigit c || Ascii.eqb c "-"%char then
            let (lit, rest) := spanNumber s "" in
            if isJsonNumber lit then Some (VNum (decimalToNumber lit), rest)
            else None
          else match dropPrefix "null" s, dropPrefix "true" s, dropPrefix "false" s with
               | Some rest, _, _ => Some (VNull, rest)
               | _, Some rest, _ => Some (VBool true, rest)
               | _, _, Some rest => Some (VBool false, rest)
               | _, _, _ => None
               end
      end
  end.

Definition parseJsonArray (s : string) : option (list JsValue) :=
  match jsonValue (S (String.length s)) s with
  | Some (VArr items, rest) =>
      if String.eqb (trimStart rest) "" then Some items else None
  | _ => None
  end.

#[export] Instance decimalHost : JsHost := {
  str_to_num := decimalToNumber;
  num_to_str := decimalToString;
  json_parse_array := parseJsonArray
}.

(** *** The conditions of the default rules *)

(** [/^[^\s@]+@[^\s@]+\.[^\s@]+$/.test(s)]: no white space, one at-sign
    with text before it, and after it a dot that has text on both sides. *)
Fixpoint splitAtSign (s acc : string) : option (string * string) :=
  match s with
  | EmptyString => None
  | String c r =>
      if Ascii.eqb c "@"%char then Some (rev_string acc "", r)
      else splitAtSign r (String c acc)
  end.

Fixpoint allChars (p : ascii -> bool) (s : string) : bool :=
  match s with
  | EmptyString => true
  | String c r => p c && allChars p r
  end.

(** A dot of [s] that is neither its first nor its last code unit. *)
Fixpoint innerDot (s : string) (first : bool) : bool :=
  match s with
  | EmptyString => false
  | String c r =>
      (negb first && Ascii.eqb c "."%char && nonEmpty r) || innerDot r false
  end.

Definition emailTest (s : string) : bool :=
  match splitAtSign s "" with
  | Some (name, domain) =>
      let plain := fun c => negb (isSpace c) && negb (Ascii.eqb c "@"%char) in
      nonEmpty name && allChars plain name && allChars plain domain
      && innerDot domain true
  | None => false
  end.

(** [value >= lo && value <= hi] *)
Definition between (lo hi : Z) (value : JsValue) : JsValue :=
  VBool (ge (toNumber value) (ofZ lo) && le (toNumber value) (ofZ hi)).

(** The time value of [new Date(value)]; [dateParse] is [Date.parse]. *)
Definition timeClip (n : JsNum) : JsNum :=
  match n with
  | Fin q =>
      let t := (if Z.ltb (Qnum q) 0 then Z.opp (Qfloor (Qopp q)) else Qfloor q) in
      if Z.ltb 8640000000000000 (Z.abs t) then NaN else ofZ t
  | _ => NaN
  end.

Definition timeValue (dateParse : string -> JsNum) (value : JsValue) : JsNum :=
  match value with
  | VUndefined => NaN
  | VStr s => timeClip (dateParse s)
  | VArr _ | VObj _ => timeClip (dateParse (toStr value))
  | _ => timeClip (toNumber value)
  end.

(** The function built from a condition of [initializeDefaultRules],
    applied to [value], at the time [now] (milliseconds).  A condition that
    is not one of those is not evaluated here and reads as a fault. *)
Definition evalDefault (now : Z) (dateParse : string -> JsNum)
  (condition : string) (value : JsValue) (record : JsObj) : EvalOutcome :=
  if String.eqb condition condNonBlank then
    match value with
    | VUndefined | VNull => Returned (VBool false)
    | VStr s => Returned (VBool (nonEmpty (trim s)))
    | _ => Thrown
    end
  else if String.eqb condition "value >= 1 && value <= 5" then
    Returned (between 1%Z 5%Z value)
  else if String.eqb condition "value >= 15 && value <= 500" then
    Returned (between 15%Z 500%Z value)
  else if String.eqb condition "value >= 1 && value <= 1000" then
    Returned (between 1%Z 1000%Z value)
  else if String.eqb condition
    "value === undefined || (Number(value) >= 1000 && Number(value) <= 1000000)" then
    Returned (if isUndefined value then VBool true else between 1000%Z 1000000%Z value)
  else if String.eqb condition "/^[^\s@]+@[^\s@]+\.[^\s@]+$/.test(value)" then
    Returned (VBool (emailTest (toStr value)))
  else if String.eqb condition "Array.isArray(value) && value.length > 0" then
    Returned (VBool (match value with VArr (_ :: _) => true | _ => false end))
  else if String.eqb condition (condOneOf ["available"; "busy"; "unavailable"]) then
    Returned (VBool (match value with
                     | VStr s => inList s ["available"; "busy"; "unavailable"]
                     | _ => false
                     end))
  else if String.eqb condition (condOneOf ["urgent"; "high"; "medium"; "low"]) then
    Returned (VBool (match value with
                     | VStr s => inList s ["urgent"; "high"; "medium"; "low"]
                     | _ => false
                     end))
  else if String.eqb condition "new Date(value) > new Date()" then
    Returned (VBool (gt (timeValue dateParse value) (ofZ now)))
  else Thrown.

(** No date text is understood: [Date.parse] gives [NaN]. *)
Definition noDates (s : string) : JsNum := NaN.

(** An environment: the registry [reg], the default conditions at time
    [now], no API key (so no findings from the completion service), and
    [stamp] on every result. *)
Definition envOf (reg : option Registry) (now : Z) (stamp : string) : Env :=
  {| registry := reg;
     evalJs := fun _ => evalDefault now noDates;
     completion := fun _ _ _ => noFindings;
     recordStamp := fun _ => stamp;
     crossStamp := fun _ => stamp |}.

(** *** Sample data *)

Definition now0 : Z := 1767225600000%Z.
Definition stamp0 : string := "2026-01-01T00:00:00.000Z".
Definition stamp1 : string := "2026-01-01T00:00:01.000Z".

(** The environment at [stamp0], and one second later. *)
Definition envAt (reg : option Registry) : Env := envOf reg now0 stamp0.
Definition envLater (reg : option Registry) : Env :=
  envOf reg (now0 + 1000)%Z stamp1.

(** The same with an API key, the service reporting one error on every
    record. *)
Definition serviceError : ValidationError :=
  mkError "title" "Title looks like a placeholder" SevError None.

Definition envWithService (reg : option Registry) : Env :=
  {| registry := reg;
     evalJs := fun _ => evalDefault now0 noDates;
     completion := fun _ _ _ =>
       {| ai_errors := [serviceError]; ai_warnings := []; ai_suggestions := [] |};
     recordStamp := fun _ => stamp0;
     crossStamp := fun _ => stamp0 |}.

Definition str (s : string) : JsValue := VStr s.
Definition num (z : Z) : JsValue := VNum (ofZ z).

Definition taskPlain : JsObj :=
  [("title", str "Build API"); ("priority", str "high")].

Definition taskOfClient : JsObj :=
  [("title", str "Build API"); ("priority", str "high");
   ("clientId", str "C1"); ("Duration", num 2)].

Definition taskWidePhases : JsObj :=
  [("title", str "Build API"); ("priority", str "high");
   ("Duration", num 2); ("PreferredPhases", str "0-4294967295")].

Definition workerReact : JsObj :=
  [("name", str "Ann"); ("skills", VArr [str "React"])].

Definition taskReactPython : JsObj :=
  [("title", str "Dashboard"); ("priority", str "high"); ("Duration", num 2);
   ("RequiredSkills", VArr [str "React"; str "Python"])].

Definition workerWideSlots : JsObj :=
  [("name", str "Dee"); ("skills", VArr [str "React"]);
   ("AvailableSlots", str "0-4294967295")].

Definition workerNode : JsObj :=
  [("name", str "Bob"); ("skills", VArr [str "Node.js"])].

Definition workerUpperReact : JsObj :=
  [("name", str "Cy"); ("Skills", str "REACT, Go")].


Definition clientAcme : JsObj :=
  [("ClientName", str "Acme"); ("ClientID", str "C1"); ("PriorityLevel", num 3);
   ("RequestedTaskIDs", str "T1, t2, T9, T7")].

Definition taskT1 : JsObj := [("TaskID", str "T1"); ("title", str "One")].
Definition taskT2 : JsObj := [("TaskID", str "T2"); ("title", str "Two")].

Definition registryOf (cs ws ts : list JsObj) : Registry :=
  setData tasks ts (setData workers ws (setData clients cs registry0)).

End Demo.

(* ================================================================== *)
(** ** lib/validation-engine.ts: the validation report *)
(* ================================================================== *)

Module Report.
Import Js.
Import ValidationEngine.

Record Summary : Type := {
  totalRecords : nat;
  validRecords : nat;
  errorCount : nat;
  warningCount : nat;
  averageScore : JsNum
}.

(** An entry of [issueMap] with its key, and an element of [topIssues]. *)
Record Issue : Type := {
  issue_message : string;
  issue_count : nat;
  issue_severity : Severity
}.

(** [results.reduce((sum, r) => sum + r.score, 0) / results.length] *)
Definition averageOf (results : list ValidationResult) : JsNum :=
  div (fold_left (fun sum r => add sum (score r)) results (ofNat 0))
      (ofNat (List.length results)).

Definition summaryOf (results : list ValidationResult) : Summary :=
  {| totalRecords := List.length results;
     validRecords := List.length (filter isValid results);
     errorCount := fold_left (fun sum r => sum + List.length (errors r)) results 0;
     warningCount := fold_left (fun sum r => sum + List.length (warnings r)) results 0;
     averageScore := averageOf results |}.

(** One issue into [issueMap]: the count of its message goes up, or the
    message enters the map, last, with the severity of this first
    occurrence. *)
Fixpoint countIssue (issueMap : list Issue) (issue : ValidationError) : list Issue :=
  match issueMap with
  | [] => [{| issue_message := err_message issue; issue_count := 1;
              issue_severity := err_severity issue |}]
  | entry :: rest =>
      if String.eqb (issue_message entry) (err_message issue)
      then {| issue_message := issue_message entry;
              issue_count := S (issue_count entry);
              issue_severity := issue_severity entry |} :: rest
      else entry :: countIssue rest issue
  end.

(** The issues of the results, in the order the two loops meet them. *)
Definition issuesOf (results : list ValidationResult) : list ValidationError :=
  flat_map (fun result => errors result ++ warnings result) results.

Definition issueMapOf (results : list ValidationResult) : list Issue :=
  fold_left countIssue (issuesOf results) [].

(** [.sort((a, b) => b.count - a.count)]: the sort of an array is stable,
    and on counts the comparison is consistent, so the outcome is the one
    of inserting each element after those that do not count less. *)
Fixpoint insertIssue (x : Issue) (sorted : list Issue) : list Issue :=
  match sorted with
  | [] => [x]
  | y :: rest =>
      if Nat.ltb (issue_count y) (issue_count x) then x :: y :: rest
      else y :: insertIssue x rest
  end.

Definition sortIssues (issues : list Issue) : list Issue :=
  fold_left (fun sorted x => insertIssue x sorted) issues [].

Definition topIssuesOf (results : list ValidationResult) : list Issue :=
  firstn 10 (sortIssues (issueMapOf results)).

Definition defaultRecommendations : list string :=
  ["Review and fix validation errors before proceeding";
   "Standardize data formats across all records";
   "Implement data entry guidelines for consistency";
   "Regular data quality audits are recommended";
   "Consider automated data cleaning processes"].

(** [generateRecommendations]; [advice] is the array parsed from the answer
    of the completion service, [None] when no API key is set or the request
    or the parsing throws. *)
Definition generateRecommendations (advice : option (list string))
  (summary : Summary) (topIssues : list Issue) : list string :=
  match advice with
  | Some recommendations => recommendations
  | None => defaultRecommendations
  end.

Record ValidationReport : Type := {
  summary : Summary;
  topIssues : list Issue;
  recommendations : list string
}.

(** [generateValidationReport] *)
Definition generateValidationReport (advice : option (list string))
  (results : list ValidationResult) : ValidationReport :=
  let summary := summaryOf results in
  let topIssues := topIssuesOf results in
  {| summary := summary;
     topIssues := topIssues;
     recommendations := generateRecommendations advice summary topIssues |}.

End Report.

(* ================================================================== *)
(** ** lib/file-parser.ts: the kind of a sheet and its basic structure *)
(* ================================================================== *)

Module FileParser.
Import Js.
Import DataContext.
Import ValidationEngine.

(** ["clients" | "workers" | "tasks" | "unknown"] *)
Inductive FileType : Type :=
| Known (type : DataTypeKey)
| Unknown.

(** [detectDataType], on the header row of the sheet. *)
Definition detectDataType (headers : list string) : FileType :=
  let headerStr := toLowerCase (join " " headers) in
  if includes headerStr "clientid"
     || includes headerStr "clientname"
     || includes headerStr "prioritylevel"
     || includes headerStr "grouptag"
     || includes headerStr "attributesjson"
  then Known clients
  else if includes headerStr "taskid"
          && (includes headerStr "taskname"
              || includes headerStr "duration"
              || includes headerStr "category")
  then Known tasks
  else if includes headerStr "workerid"
          || includes headerStr "workername"
          || includes headerStr "availableslots"
          || includes headerStr "maxloadperphase"
          || includes headerStr "workergroup"
          || includes headerStr "hourly_rate"
          || includes headerStr "max_hours_per_week"
  then Known workers
  else if includes headerStr "client"
          || includes headerStr "company"
          || includes headerStr "budget"
          || includes headerStr "industry"
  then Known clients
  else if includes headerStr "worker"
          || includes headerStr "employee"
          || includes headerStr "rate"
          || includes headerStr "availability"
  then Known workers
  else if includes headerStr "task"
          || includes headerStr "project"
          || includes headerStr "deadline"
          || includes headerStr "estimated"
          || includes headerStr "complexity"
  then Known tasks
  else Unknown.

Definition getRequiredFields (type : FileType) : list string :=
  match type with
  | Known clients => ["ClientID"; "ClientName"; "PriorityLevel"; "GroupTag"]
  | Known workers => ["name"; "email"; "skills"; "hourly_rate"; "availability"]
  | Known tasks => ["TaskID"; "TaskName"; "Category"; "Duration"]
  | Unknown => []
  end.

(** [!row.a && !row.b && ...] *)
Definition noneTruthy (row : JsObj) (names : list string) : bool :=
  forallb (fun name => negb (truthy (getProp row name))) names.

Definition rowError (index : nat) (message : string) : ValidationError :=
  {| err_field := "row_" ++ natToString (index + 2);
     err_message := message;
     err_severity := SevError;
     err_suggestions := None |}.

(** One turn of [data.forEach((row, index) => ...)]: what it pushes. *)
Definition rowErrors (type : FileType) (row : JsObj) (index : nat)
  : list ValidationError :=
  match type with
  | Known clients =>
      if noneTruthy row ["ClientName"; "name"; "Name"; "client_name"; "Client Name"]
      then [rowError index "Client name is required"] else []
  | Known workers =>
      if noneTruthy row ["name"; "Name"; "WorkerName"; "worker_name"; "Worker Name"]
      then [rowError index "Worker name is required"] else []
  | Known tasks =>
      if noneTruthy row ["TaskName"; "TaskID"; "title"; "Title"; "task_title";
                         "Task Title"]
      then [rowError index "Task name is required"] else []
  | Unknown => []
  end.

Fixpoint rowErrorsFrom (type : FileType) (data : list JsObj) (index : nat)
  : list ValidationError :=
  match data with
  | [] => []
  | row :: rest => rowErrors type row index ++ rowErrorsFrom type rest (S index)
  end.

Definition missingFieldsOf (type : FileType) (headers : list string) : list string :=
  filter
    (fun field =>
       negb (existsb (fun header => includes (toLowerCase header) (toLowerCase field))
                     headers))
    (getRequiredFields type).

Definition missingFieldsWarning (missingFields : list string) : ValidationError :=
  {| err_field := "headers";
     err_message := "Missing recommended fields: " ++ join ", " missingFields;
     err_severity := SevWarning;
     err_suggestions :=
       Some [("Consider adding columns for: " ++ join ", " missingFields)%string] |}.

Definition noDataError : ValidationError :=
  {| err_field := "data"; err_message := "No data rows found";
     err_severity := SevError; err_suggestions := None |}.

(** [validateBasicStructure] *)
Definition validateBasicStructure (data : list JsObj) (type : FileType)
  (headers : list string) : list ValidationError :=
  match data with
  | [] => [noDataError]
  | _ =>
      let missingFields := missingFieldsOf type headers in
      (match missingFields with
       | [] => []
       | _ => [missingFieldsWarning missingFields]
       end)
      ++ rowErrorsFrom type data 0
  end.

(** *** Reading a file *)

(** What the XLSX library gives for a file: reading throws (an [Error]
    with its message, or something else), or it gives the rows of the first
    sheet, none or a header row and the rows below it.  A row is an array
    of primitive values, strings, numbers, booleans and [null], with a hole
    where the sheet has no cell.  In a row below the header a hole reads as
    [undefined].  In the header row a hole is [None]: [forEach] and [some]
    skip it and [join] reads it as empty.  The source casts the header row
    to an array of strings without a check. *)
Inductive Sheet : Type :=
| ReadThrows (message : option string)
| NoRows
| Rows (headers : list (option JsValue)) (body : list (list JsValue)).

(** An element of [errors]: an error made here, or an element of what the
    completion service answered. *)
Inductive ErrorItem : Type :=
| Checked (e : ValidationError)
| Answered (v : JsValue).

Record ParsedData : Type := {
  data : list JsObj;
  headers : list (option JsValue);
  errors : list ErrorItem;
  type : FileType
}.

(** What a step gives that throws a [TypeError] when it calls a method
    that a value does not have. *)
Inductive Attempt (A : Type) : Type :=
| Done (a : A)
| Fails (cell : JsValue).

Arguments Done {A} a.
Arguments Fails {A} cell.

(** [file.name.split(".").pop()?.toLowerCase()] *)
Definition extensionOf (name : string) : string :=
  toLowerCase (last (splitDot name) "").

(** [["csv", "xlsx", "xls"].includes(extension)] *)
Definition supported (extension : string) : bool :=
  existsb (String.eqb extension) ["csv"; "xlsx"; "xls"].

(** [cell !== null && cell !== undefined && cell !== ""] *)
Definition isFilled (cell : JsValue) : bool :=
  match cell with
  | VNull | VUndefined => false
  | VStr s => negb (String.eqb s "")
  | _ => true
  end.

(** [obj[k] = v] on a data object. *)
Fixpoint setProp (o : JsObj) (k : string) (v : JsValue) : JsObj :=
  match o with
  | [] => [(k, v)]
  | (k', v') :: rest =>
      if String.eqb k' k then (k', v) :: rest else (k', v') :: setProp rest k v
  end.

(** [obj[header] = row[colIndex] || ""]; with a primitive value the
    assignment to [__proto__] creates no property. *)
Definition assignCell (row : list JsValue) (obj : JsObj) (header : string)
  (colIndex : nat) : JsObj :=
  if String.eqb header "__proto__" then obj
  else setProp obj header (orElse (nth colIndex row VUndefined) (VStr "")).

(** The objects of the rows under a header row of strings. *)
Fixpoint assignCells (row : list JsValue) (headers : list string) (colIndex : nat)
  (obj : JsObj) : JsObj :=
  match headers with
  | [] => obj
  | header :: rest =>
      assignCells row rest (S colIndex) (assignCell row obj header colIndex)
  end.

Definition rowObject (headers : list string) (row : list JsValue) (index : nat)
  : JsObj :=
  assignCells row headers 0 [("_rowIndex", VNum (ofNat (index + 2)))].

Fixpoint rowObjectsFrom (headers : list string) (rows : list (list JsValue))
  (index : nat) : list JsObj :=
  match rows with
  | [] => []
  | row :: rest => rowObject headers row index :: rowObjectsFrom headers rest (S index)
  end.

(** [jsonData.slice(1).filter(...).map(...)] *)
Definition dataOf (headers : list string) (body : list (list JsValue)) : list JsObj :=
  rowObjectsFrom headers (filter (existsb isFilled) body) 0.

(** [[...aiErrors]]: the elements of an array, the code units of a string;
    anything else is not iterable. *)
Fixpoint codeUnits (s : string) : list JsValue :=
  match s with
  | EmptyString => []
  | String c r => VStr (String c "") :: codeUnits r
  end.

Definition spread (v : JsValue) : option (list JsValue) :=
  match v with
  | VArr items => Some items
  | VStr s => Some (codeUnits s)
  | _ => None
  end.

Definition fileError (message : string) : ErrorItem :=
  Checked {| err_field := "file"; err_message := message;
             err_severity := SevError; err_suggestions := None |}.

Definition failure (message : string) : ParsedData :=
  {| data := []; headers := []; errors := [fileError message]; type := Unknown |}.

Section ParseFile.
Context {host : JsHost}.

(** The text of a header cell in [headers.join(" ")]: a hole, [null] and
    [undefined] are empty. *)
Definition joinedText (cell : option JsValue) : string :=
  match cell with
  | None | Some VNull | Some VUndefined => ""
  | Some v => toStr v
  end.

(** [headers.forEach((header, colIndex) => { obj[header] = ... })] on the
    cells of the header row: a hole is skipped, and a cell that is not a
    string is converted to the property key. *)
Fixpoint assignHeaderCells (row : list JsValue) (headers : list (option JsValue))
  (colIndex : nat) (obj : JsObj) : JsObj :=
  match headers with
  | [] => obj
  | None :: rest => assignHeaderCells row rest (S colIndex) obj
  | Some header :: rest =>
      assignHeaderCells row rest (S colIndex)
        (assignCell row obj (toStr header) colIndex)
  end.

Definition sheetRowObject (headers : list (option JsValue)) (row : list JsValue)
  (index : nat) : JsObj :=
  assignHeaderCells row headers 0 [("_rowIndex", VNum (ofNat (index + 2)))].

Fixpoint sheetRowObjectsFrom (headers : list (option JsValue))
  (rows : list (list JsValue)) (index : nat) : list JsObj :=
  match rows with
  | [] => []
  | row :: rest =>
      sheetRowObject headers row index :: sheetRowObjectsFrom headers rest (S index)
  end.

(** [jsonData.slice(1).filter(...).map(...)] *)
Definition sheetData (headers : list (option JsValue)) (body : list (list JsValue))
  : list JsObj :=
  sheetRowObjectsFrom headers (filter (existsb isFilled) body) 0.

(** [headers.some((header) => header.toLowerCase().includes(field.toLowerCase()))]
    on the cells of the header row: [some] skips the holes and stops at
    the first header that includes the field; a cell that it reaches and
    that is not a string has no method [toLowerCase], and the call
    throws. *)
Fixpoint someIncludes (field : string) (headers : list (option JsValue))
  : Attempt bool :=
  match headers with
  | [] => Done false
  | None :: rest => someIncludes field rest
  | Some (VStr header) :: rest =>
      if includes (toLowerCase header) (toLowerCase field) then Done true
      else someIncludes field rest
  | Some cell :: _ => Fails cell
  end.

(** [requiredFields.filter((field) => !headers.some(...))] *)
Fixpoint missingFieldsAmong (fields : list string) (headers : list (option JsValue))
  : Attempt (list string) :=
  match fields with
  | [] => Done []
  | field :: rest =>
      match someIncludes field headers with
      | Fails cell => Fails cell
      | Done found =>
          match missingFieldsAmong rest headers with
          | Fails cell => Fails cell
          | Done missingFields =>
              Done (if found then missingFields else field :: missingFields)
          end
      end
  end.

(** [validateBasicStructure] on the header row as the sheet gives it. *)
Definition validateSheetStructure (data : list JsObj) (type : FileType)
  (headers : list (option JsValue)) : Attempt (list ValidationError) :=
  match data with
  | [] => Done [noDataError]
  | _ =>
      match missingFieldsAmong (getRequiredFields type) headers with
      | Fails cell => Fails cell
      | Done missingFields =>
          Done ((match missingFields with
                 | [] => []
                 | _ => [missingFieldsWarning missingFields]
                 end)
                ++ rowErrorsFrom type data 0)
      end
  end.

(** [validateDataWithAI]: what it resolves to, which is [[]] without an API
    key and when the request or [JSON.parse] fails. *)
Variable validateDataWithAI : list JsObj -> FileType -> JsValue.

(** The messages of the [TypeError]s: of calling [toLowerCase] on a value
    that is not a string, and of spreading a value that is not iterable. *)
Variable noMethodMessage : JsValue -> string.
Variable notIterableMessage : JsValue -> string.

(** [parseFile], on the registry of lib/data-context.ts. *)
Definition parseFile (fileName : string) (sheet : Sheet) (registry : Registry)
  : ParsedData * Registry :=
  let extension := extensionOf fileName in
  if String.eqb extension "" || negb (supported extension) then
    (failure "Unsupported file format. Please use CSV or XLSX files.", registry)
  else
    match sheet with
    | ReadThrows message =>
        (failure ("Error parsing file: "
                  ++ match message with Some m => m | None => "Unknown error" end),
         registry)
    | NoRows => (failure "File appears to be empty", registry)
    | Rows headers body =>
        let data := sheetData headers body in
        let type := detectDataType (map joinedText headers) in
        let aiErrors := validateDataWithAI (firstn 10 data) type in
        match validateSheetStructure data type headers with
        | Fails cell =>
            (failure ("Error parsing file: " ++ noMethodMessage cell), registry)
        | Done basicErrors =>
            let registry :=
              match type with
              | Known key => setData key data registry
              | Unknown => registry
              end in
            match spread aiErrors with
            | Some items =>
                ({| data := data; headers := headers;
                    errors := map Checked basicErrors ++ map Answered items;
                    type := type |}, registry)
            | None =>
                (failure ("Error parsing file: " ++ notIterableMessage aiErrors),
                 registry)
            end
        end
    end.

End ParseFile.

End FileParser.

(* ================================================================== *)
(** ** lib/export-utils.ts: the summary of an exported report *)
(* ================================================================== *)

Module ExportEngine.
Import Js.
Import ValidationEngine.

Record ExportSummary : Type := {
  totalRecords : nat;
  validRecords : nat;
  invalidRecords : nat;
  averageQualityScore : JsNum
}.

(** [r.qualityScore || r.score] *)
Definition qualityOf (r : ValidationResult) : JsNum :=
  if truthy (VNum (qualityScore r)) then qualityScore r else score r.

(** The [summary] of the report that [exportValidationReport] builds. *)
Definition summaryOf (results : list ValidationResult) : ExportSummary :=
  {| totalRecords := List.length results;
     validRecords := List.length (filter (fun r => isValid r) results);
     invalidRecords := List.length (filter (fun r => negb (isValid r)) results);
     averageQualityScore :=
       div (fold_left (fun sum r => add sum (qualityOf r)) results (ofNat 0))
           (ofNat (List.length results)) |}.

End ExportEngine.

(* ================================================================== *)
(** ** lib/prioritization-engine.ts: the score of an allocation *)
(* ================================================================== *)

(** The numbers of the allocation score are doubles: the binary64 values
    of IEEE 754, with the sign of zero, and operations that round to the
    nearest value, ties to even, as [SpecFloat] defines them. *)
Module Double.

Definition double : Type := spec_float.

Definition prec : Z := 53%Z.
Definition emax : Z := 1024%Z.

(** The double nearest to an integer. *)
Definition ofZ (z : Z) : double := binary_normalize prec emax z 0%Z false.
Definition ofNat (n : nat) : double := ofZ (Z.of_nat n).

Definition add : double -> double -> double := SFadd prec emax.
Definition sub : double -> double -> double := SFsub prec emax.
Definition mul : double -> double -> double := SFmul prec emax.
Definition div : double -> double -> double := SFdiv prec emax.

(** [x > y] *)
Definition gt (x y : double) : bool := SFltb y x.

(** [!x]: [x] is a zero or [NaN]. *)
Definition isFalsy (x : double) : bool :=
  match x with
  | S754_zero _ | S754_nan => true
  | _ => false
  end.

(** [Math.max(x, y)] and [Math.min(x, y)]: [NaN] when an argument is, and
    the zero of sign plus is above the one of sign minus. *)
Definition max (x y : double) : double :=
  match x, y with
  | S754_nan, _ | _, S754_nan => S754_nan
  | _, _ =>
      if SFltb x y then y
      else if SFltb y x then x
      else match x with
           | S754_zero true => y
           | _ => x
           end
  end.

Definition min (x y : double) : double :=
  match x, y with
  | S754_nan, _ | _, S754_nan => S754_nan
  | _, _ =>
      if SFltb x y then x
      else if SFltb y x then y
      else match x with
           | S754_zero true => x
           | _ => y
           end
  end.

End Double.

Module PrioritizationEngine.
Import Double.

Record PriorityWeight : Type := {
  pw_id : string;
  pw_name : string;
  pw_description : string;
  pw_weight : double;
  pw_category : string;
  pw_enabled : bool
}.

(** A completed project: its [skills], when it has any, are an array of
    strings. *)
Record Project : Type := {
  project_skills : option (list string)
}.

(** The fields of a [Worker] and of a [Task] that the engine reads; the
    optional ones are [None] when [undefined]. *)
Record Worker : Type := {
  skills : list string;
  availability : string;
  hourlyRate : double;
  location : string;
  currentProjects : option (list Js.JsValue);
  completedProjects : option (list Project)
}.

Record Task : Type := {
  requiredSkills : option (list string);
  estimatedHours : double;
  budget : double
}.

(** [xs.includes(s)] on an array of strings. *)
Definition hasString (xs : list string) (s : string) : bool :=
  existsb (String.eqb s) xs.

Definition calculateSkillsMatch (worker : Worker) (task : Task) : double :=
  match requiredSkills task with
  | None | Some [] => ofNat 100
  | Some required =>
      let matchedSkills := filter (hasString (skills worker)) required in
      mul (div (ofNat (List.length matchedSkills)) (ofNat (List.length required)))
          (ofNat 100)
  end.

Definition calculateAvailability (worker : Worker) (task : Task) : double :=
  if negb (String.eqb (availability worker) "available") then ofNat 0
  else
    let currentWorkload :=
      match currentProjects worker with
      | Some projects => ofNat (List.length projects)
      | None => ofNat 0
      end in
    let maxWorkload := ofNat 5 in
    max (ofNat 0) (mul (div (sub maxWorkload currentWorkload) maxWorkload) (ofNat 100)).

Definition calculateCostEfficiency (worker : Worker) (task : Task) : double :=
  if isFalsy (budget task) || isFalsy (hourlyRate worker) then ofNat 50
  else
    let estimatedCost :=
      mul (hourlyRate worker)
          (if isFalsy (estimatedHours task) then ofNat 1 else estimatedHours task) in
    let efficiency := min (div (budget task) estimatedCost) (ofNat 2) in
    min (mul efficiency (ofNat 50)) (ofNat 100).

Definition calculateExperience (worker : Worker) (task : Task) : double :=
  let relevantProjects :=
    match completedProjects worker with
    | Some projects =>
        filter (fun project =>
                  match requiredSkills task with
                  | Some required =>
                      existsb (fun skill =>
                                 match project_skills project with
                                 | Some has => hasString has skill
                                 | None => false
                                 end)
                              required
                  | None => false
                  end)
               projects
    | None => []
    end in
  min (mul (div (ofNat (List.length relevantProjects)) (ofNat 10)) (ofNat 100))
      (ofNat 100).

Definition calculateLocationProximity (worker : Worker) (task : Task) : double :=
  if String.eqb (location worker) "" then ofNat 50 else ofNat 50.

(** The [switch] on the id of a weight; an id of no case leaves the score
    at 0. *)
Definition scoreFor (id : string) (worker : Worker) (task : Task) : double :=
  if String.eqb id "skills-match" then calculateSkillsMatch worker task
  else if String.eqb id "availability" then calculateAvailability worker task
  else if String.eqb id "cost-efficiency" then calculateCostEfficiency worker task
  else if String.eqb id "experience-level" then calculateExperience worker task
  else if String.eqb id "location-proximity" then calculateLocationProximity worker task
  else ofNat 0.

(** One turn of the loop over the weights, on [(totalScore, totalWeight)]. *)
Definition addWeight (worker : Worker) (task : Task) (totals : double * double)
  (weight : PriorityWeight) : double * double :=
  if negb (pw_enabled weight) then totals
  else
    let score := scoreFor (pw_id weight) worker task in
    (add (fst totals) (mul score (div (pw_weight weight) (ofNat 100))),
     add (snd totals) (pw_weight weight)).

(** [calculateAllocationScore], with the field [weights] of the engine;
    the client is not read. *)
Definition calculateAllocationScore (weights : list PriorityWeight)
  (worker : Worker) (task : Task) : double :=
  let totals := fold_left (addWeight worker task) weights (ofNat 0, ofNat 0) in
  if gt (snd totals) (ofNat 0)
  then mul (div (fst totals) (snd totals)) (ofNat 100)
  else ofNat 0.

End PrioritizationEngine.

(* ================================================================== *)
(** ** Notions used in the statements *)
(* ================================================================== *)

Import Js DataContext ValidationEngine.
Unset Implicit Arguments.

(** The quality score as the specification words it:
    clamp(0, 100, round(100 - 20 e - 10 w - 5 s + 10 (n / f))). *)
Definition clampZ (lo hi z : Z) : Z := Z.max lo (Z.min hi z).

Definition specScore (e w s n f : nat) : JsNum :=
  let count := fun k : nat => inject_Z (Z.of_nat k) in
  ofZ (clampZ 0 100
         (Qfloor (100 - 20 * count e - 10 * count w - 5 * count s
                  + 10 * (count n / count f) + (1 # 2))%Q)).

Definition nonEmptyFieldCount (record : JsObj) : nat :=
  List.length (filter (isNonEmptyField record) (keys record)).

Definition fieldCount (record : JsObj) : nat := List.length (keys record).

(** The fields of a result that the merge of [validateBatch] does not
    assign. *)
Definition frameOf (r : ValidationResult)
  : JsNum * JsNum * JsValue * string * string :=
  (score r, qualityScore r, recordId r, recordType r, validatedAt r).

(** A result without its time stamp. *)
Definition eraseStamp (r : ValidationResult) : ValidationResult :=
  {| isValid := isValid r; errors := errors r; warnings := warnings r;
     suggestions := suggestions r; score := score r; recordId := recordId r;
     recordType := recordType r; qualityScore := qualityScore r;
     validatedAt := "" |}.

Definition sameButStamp (r1 r2 : ValidationResult) : Prop :=
  eraseStamp r1 = eraseStamp r2.

(** A result after pushes on its [errors] and [warnings]. *)
Definition grows (r r' : ValidationResult) : Prop :=
  isValid r' = isValid r
  /\ (exists more, errors r' = errors r ++ more)
  /\ (exists more, warnings r' = warnings r ++ more)
  /\ suggestions r' = suggestions r
  /\ frameOf r' = frameOf r.

(** A result after pushes on its [warnings] alone. *)
Definition sameErrors (r r' : ValidationResult) : Prop :=
  errors r' = errors r.

(** The array a step leaves, whether it completes or throws. *)
Definition finalResults {A : Type} (c : Completion A) : list ValidationResult :=
  match c with
  | Normal _ results => results
  | Abrupt results => results
  end.

(** Every run of [m] takes each element of the array to an [R]-related
    one. *)
Definition Keeps {A : Type} (R : ValidationResult -> ValidationResult -> Prop)
  (m : Exec A) : Prop :=
  forall results, Forall2 R results (finalResults (m results)).

(** [m] completes on arrays of [n] elements. *)
Definition Completes (n : nat) (m : Exec unit) : Prop :=
  forall results, List.length results = n ->
    exists results', m results = Normal tt results' /\ List.length results' = n.

(** The indices of an entry of [valueMap] are below [n]. *)
Definition indicesBelow (n : nat) (entry : string * list nat) : Prop :=
  Forall (fun i => i < n) (snd entry).

(** The two list-valued fields whose parsing can throw outside the
    [try] block. *)
Definition preferredPhasesOf {host : JsHost} (record : JsObj) : option (list JsNum) :=
  parseNumberList (nullish (getProp record "PreferredPhases")
                           (getProp record "preferredPhases")).

Definition availableSlotsOf {host : JsHost} (record : JsObj) : option (list JsNum) :=
  parseNumberList (nullish (getProp record "AvailableSlots")
                           (getProp record "availableSlots")).

(** Two runs of a step that end alike on arrays that agree but for the
    time stamps. *)
Definition alike {A : Type} (c1 c2 : Completion A) : Prop :=
  match c1, c2 with
  | Normal a1 r1, Normal a2 r2 => a1 = a2 /\ Forall2 sameButStamp r1 r2
  | Abrupt r1, Abrupt r2 => Forall2 sameButStamp r1 r2
  | _, _ => False
  end.

(** Two steps that never read the time stamps and do the same otherwise. *)
Definition Oblivious {A : Type} (m1 m2 : Exec A) : Prop :=
  forall r1 r2, Forall2 sameButStamp r1 r2 -> alike (m1 r1) (m2 r2).

(** The effect of [xs.forEach((x, i) => { if (c x) results[i].errors.push(e x) })]
    on an array at least as long as [xs]. *)
Fixpoint pushWhere {X : Type} (c : X -> bool) (e : X -> ValidationError)
  (xs : list X) (results : list ValidationResult) : list ValidationResult :=
  match xs, results with
  | x :: xs', r :: results' =>
      (if c x then withErrors (fun l => l ++ [e x]) r else r)
      :: pushWhere c e xs' results'
  | _, _ => results
  end.

(** The merge of [validateBatch], element by element. *)
Fixpoint mergeZip (results crossValidation : list ValidationResult)
  : list ValidationResult :=
  match results, crossValidation with
  | r :: rs, c :: cs => mergeInto r c :: mergeZip rs cs
  | _, _ => results
  end.

(** How many issues carry the message; how many errors and warnings of the
    results do. *)
Definition countOf (message : string) (issues : list ValidationError) : nat :=
  List.length (filter (fun issue => String.eqb (err_message issue) message) issues).

Definition occurrences (message : string) (results : list ValidationResult) : nat :=
  countOf message (Report.issuesOf results).

(** The counts of the entries of [issueMap] under the message, added up. *)
Definition countUnder (message : string) (issueMap : list Report.Issue) : nat :=
  fold_right (fun e sum =>
                (if String.eqb (Report.issue_message e) message
                 then Report.issue_count e else 0) + sum)
             0 issueMap.

(** Counts that do not go up along the list. *)
Definition byCount (a b : Report.Issue) : Prop :=
  Report.issue_count b <= Report.issue_count a.

Definition hasCount (c : nat) (e : Report.Issue) : bool :=
  Nat.eqb (Report.issue_count e) c.

(** The messages of a list, each at its first occurrence. *)
Fixpoint firstOccurrences (seen messages : list string) : list string :=
  match messages with
  | [] => []
  | m :: rest =>
      if inList m seen then firstOccurrences seen rest
      else m :: firstOccurrences (m :: seen) rest
  end.

Definition totalCount (issues : list Report.Issue) : nat :=
  fold_right (fun e sum => Report.issue_count e + sum) 0 issues.

(** The key under which [findDuplicates] files a record for a field:
    none when the value of the field is falsy. *)
Definition duplicateKey {host : JsHost} (record : JsObj) (field : string)
  : option string :=
  let value := getFieldValue record field in
  if truthy value then Some (trim (toLowerCase (toStr value))) else None.

Definition filedUnder {host : JsHost} (field key : string) (record : JsObj) : bool :=
  match duplicateKey record field with
  | Some k => String.eqb k key
  | None => false
  end.

(** The indices, counted from [index], of the elements that satisfy [p]. *)
Fixpoint indicesFrom {X : Type} (p : X -> bool) (xs : list X) (index : nat)
  : list nat :=
  match xs with
  | [] => []
  | x :: rest =>
      if p x then index :: indicesFrom p rest (S index)
      else indicesFrom p rest (S index)
  end.

(** The indices a [valueMap] holds under a key. *)
Definition entryOf (m : list (string * list nat)) (key : string) : list nat :=
  match mapGet m key with
  | Some l => l
  | None => []
  end.

Definition duplicateMessage (field key : string) : string :=
  ("Duplicate " ++ field ++ ": " ++ quoted key ++ " found in multiple records")%string.

(** [m] throws, whatever the array it is run on. *)
Definition Throws {A : Type} (m : Exec A) : Prop :=
  forall results, exists results', m results = Abrupt results'.

(** A result after pushes of errors of severity error and of warnings of
    severity warning. *)
Definition growsBySeverity (r r' : ValidationResult) : Prop :=
  isValid r' = isValid r
  /\ (exists more, errors r' = errors r ++ more
                   /\ Forall (fun e => err_severity e = SevError) more)
  /\ (exists more, warnings r' = warnings r ++ more
                   /\ Forall (fun e => err_severity e = SevWarning) more)
  /\ suggestions r' = suggestions r.

(** The errors that the cross-record validation pushes on the result of a
    record, check by check. *)
Definition errorWhen (c : bool) (e : ValidationError) : list ValidationError :=
  if c then [e] else [].

Section CrossErrors.
Context {host : JsHost}.
Variable env : Env.

Definition clientReferenceOf (record : JsObj) : JsValue :=
  firstTruthy [getProp record "clientId"; getProp record "ClientID";
               getProp record "client_id"].

Definition durationOf (record : JsObj) : JsNum :=
  toNumber (nullish (getProp record "Duration")
           (nullish (getProp record "duration")
           (nullish (getProp record "estimatedHours")
                    (getProp record "estimated_hours")))).

(** A list that is given, is parsed and is refused. *)
Definition listRefused (raw : JsValue) (refuse : list JsNum -> bool) : bool :=
  negb (isUndefined raw)
  && match parseNumberList raw with
     | Some l => refuse l
     | None => false
     end.

Definition taskErrorsOf (record : JsObj) : list ValidationError :=
  errorWhen (truthy (clientReferenceOf record)
             && negb (isValidClientReference env (clientReferenceOf record)))
            clientReferenceError
  ++ errorWhen (negb (isFinite (durationOf record)) || lt (durationOf record) (ofNat 1))
               durationError
  ++ errorWhen (listRefused (nullish (getProp record "PreferredPhases")
                                     (getProp record "preferredPhases"))
                            (fun phases => isEmpty phases))
               preferredPhasesError.

Definition workerErrorsOf (record : JsObj) : list ValidationError :=
  errorWhen (listRefused (nullish (getProp record "AvailableSlots")
                                  (getProp record "availableSlots"))
                         (fun slots =>
                            isEmpty slots
                            || existsb (fun n => negb (isFinite n)) slots))
            availableSlotsError.

Definition maxConcurrentOf (t : JsObj) : JsNum :=
  toNumber (nullish (getProp t "MaxConcurrent")
           (nullish (getProp t "maxConcurrent") (VNum (ofNat 1)))).

Definition coverageErrorsOf (registryWorkers : list JsObj) (t : JsObj)
  : list ValidationError :=
  let missing := missingSkills (workerSkillsOf registryWorkers) t in
  let qualified :=
    qualifiedWorkers registryWorkers (map toLowerCase (requiredSkillsOf t)) in
  errorWhen (negb (isEmpty missing)) (skillCoverageError missing)
  ++ errorWhen (isFinite (maxConcurrentOf t) && gt (maxConcurrentOf t) (ofNat qualified))
               (maxConcurrentError (maxConcurrentOf t) qualified).

Definition requestErrorsOf (registryTasks : list JsObj) (c : JsObj)
  : list ValidationError :=
  let unknown := unknownTaskIds (knownTaskIds registryTasks) c in
  errorWhen (negb (isEmpty unknown)) (unknownTaskIdsError unknown).

Definition registryErrorsOf (dataType : string) (record : JsObj)
  : list ValidationError :=
  match registry env with
  | None => []
  | Some reg =>
      let registryWorkers := getData workers reg in
      let registryTasks := getData tasks reg in
      let registryClients := getData clients reg in
      (if negb (isEmpty registryTasks) && negb (isEmpty registryWorkers)
          && String.eqb dataType "tasks"
       then coverageErrorsOf registryWorkers record else [])
      ++ (if negb (isEmpty registryClients) && negb (isEmpty registryTasks)
             && String.eqb dataType "clients"
          then requestErrorsOf registryTasks record else [])
  end.

Definition crossErrorsOf (dataType : string) (record : JsObj)
  : list ValidationError :=
  (if String.eqb dataType "tasks" then taskErrorsOf record else [])
  ++ (if String.eqb dataType "workers" then workerErrorsOf record else [])
  ++ registryErrorsOf dataType record.

End CrossErrors.

(** The array [st'] is [st] with the errors [f x] appended to the result
    at the index of every [x]. *)
Definition addsErrors {X : Type} (f : X -> list ValidationError) (xs : list X)
  (st st' : list ValidationResult) : Prop :=
  List.length st' = List.length st
  /\ forall i x r, nth_error xs i = Some x -> nth_error st i = Some r ->
       exists r', nth_error st' i = Some r' /\ errors r' = errors r ++ f x.

(** The fields on which the cross-record validation reports errors, by
    data type, in the order of the checks. *)
Definition crossErrorFields (dataType : DataTypeKey) : list string :=
  match dataType with
  | tasks => ["clientId"; "Duration"; "PreferredPhases"; "RequiredSkills";
              "MaxConcurrent"]
  | workers => ["AvailableSlots"]
  | clients => ["RequestedTaskIDs"]
  end.

(** The environment with another state of the registry. *)
Definition withRegistry (env : Env) (state : option Registry) : Env :=
  {| registry := state; evalJs := evalJs env; completion := completion env;
     recordStamp := recordStamp env; crossStamp := crossStamp env |}.

(** The columns in which [validateBasicStructure] looks for the name of a
    row, and the message it gives when none of them is truthy. *)
Definition nameColumns (type : FileParser.FileType) : list string :=
  match type with
  | FileParser.Known clients =>
      ["ClientName"; "name"; "Name"; "client_name"; "Client Name"]
  | FileParser.Known workers =>
      ["name"; "Name"; "WorkerName"; "worker_name"; "Worker Name"]
  | FileParser.Known tasks =>
      ["TaskName"; "TaskID"; "title"; "Title"; "task_title"; "Task Title"]
  | FileParser.Unknown => []
  end.

Definition nameMessage (type : FileParser.FileType) : string :=
  match type with
  | FileParser.Known clients => "Client name is required"
  | FileParser.Known workers => "Worker name is required"
  | FileParser.Known tasks => "Task name is required"
  | FileParser.Unknown => ""
  end.

Definition nameless (type : FileParser.FileType) (row : JsObj) : bool :=
  match type with
  | FileParser.Unknown => false
  | _ => FileParser.noneTruthy row (nameColumns type)
  end.

Definition hasSeverity (severity : Severity) (e : ValidationError) : bool :=
  match err_severity e, severity with
  | SevError, SevError | SevWarning, SevWarning | SevInfo, SevInfo => true
  | _, _ => false
  end.

(** Skill coverage as the specification words it.  A skill is covered
    when some worker of the registry has it, up to case; the missing
    skills of a task are its required skills that are not covered, in
    their order. *)
Definition coveredBy {host : JsHost} (registryWorkers : list JsObj) (skill : string)
  : bool :=
  existsb (fun w =>
             existsb (fun has => String.eqb (toLowerCase has) (toLowerCase skill))
                     (skillsOf w))
          registryWorkers.

Definition uncoveredSkills {host : JsHost} (registryWorkers : list JsObj) (t : JsObj)
  : list string :=
  filter (fun skill => negb (coveredBy registryWorkers skill)) (requiredSkillsOf t).

(** The errors of a list that are reported on a field. *)
Definition reportedOn (field : string) (errors : list ValidationError)
  : list ValidationError :=
  filter (fun e => String.eqb (err_field e) field) errors.

(** A header row of strings, as the cells of a sheet; a cell that is a
    string. *)
Definition textCells (headers : list string) : list (option JsValue) :=
  map (fun header => Some (VStr header)) headers.

Definition isText (cell : JsValue) : bool :=
  match cell with
  | VStr _ => true
  | _ => false
  end.

(** A double that is not below zero: [NaN], or a zero, a finite number or
    an infinity of sign plus. *)
Definition notBelowZero (x : Double.double) : bool :=
  match x with
  | S754_nan => true
  | S754_zero s | S754_infinity s | S754_finite s _ _ => negb s
  end.

(* ================================================================== *)
(** ** Lists updated in place *)
(* ================================================================== *)

Section UpdateAt.
Context {X : Type}.
Implicit Types (f : X -> X) (xs : list X).

Lemma updateAt_length f i xs : List.length (updateAt f i xs) = List.length xs.
Proof.
  revert i; induction xs as [|x xs IH]; intros [|i]; simpl; auto.
Qed.

Lemma updateAt_nth_same f i xs x :
  nth_error xs i = Some x -> nth_error (updateAt f i xs) i = Some (f x).
Proof.
  revert i; induction xs as [|y xs IH]; intros [|i]; simpl; try discriminate.
  - now intros [= ->].
  - apply IH.
Qed.

Lemma updateAt_nth_other f i j xs :
  i <> j -> nth_error (updateAt f i xs) j = nth_error xs j.
Proof.
  revert i j; induction xs as [|y xs IH]; intros [|i] [|j] Hij; simpl; auto;
    try congruence.
Qed.

Lemma updateAt_out_of_range f i xs :
  List.length xs <= i -> updateAt f i xs = xs.
Proof.
  revert i; induction xs as [|y xs IH]; intros [|i] Hi; simpl in *; auto.
  - lia.
  - f_equal; apply IH; lia.
Qed.

Lemma updateAt_app f (pre : list X) x xs :
  updateAt f (List.length pre) (pre ++ x :: xs) = pre ++ f x :: xs.
Proof.
  induction pre as [|p pre IH]; simpl; auto. now rewrite IH.
Qed.

Lemma updateAt_Forall2 (R : X -> X -> Prop) f i xs :
  (forall x, R x x) -> (forall x, R x (f x)) -> Forall2 R xs (updateAt f i xs).
Proof.
  intros Hrefl Hf; revert i; induction xs as [|x xs IH]; intros [|i]; simpl;
    constructor; auto.
  clear IH; induction xs; constructor; auto.
Qed.

End UpdateAt.

(* ================================================================== *)
(** ** The merge of validateBatch *)
(* ================================================================== *)

Section Merge.
Context {host : JsHost}.
Variable env : Env.

Lemma mergeFrom_out_of_range cross i results :
  List.length results <= i -> mergeFrom cross i results = results.
Proof.
  revert i results; induction cross as [|c cross IH]; intros i results Hi; simpl; auto.
  rewrite updateAt_out_of_range by assumption. apply IH; lia.
Qed.

Lemma mergeFrom_app cross pre results :
  mergeFrom cross (List.length pre) (pre ++ results) = pre ++ mergeZip results cross.
Proof.
  revert pre results; induction cross as [|c cross IH]; intros pre results; simpl.
  - now destruct results.
  - destruct results as [|r rs].
    + simpl. rewrite app_nil_r.
      rewrite updateAt_out_of_range by lia.
      apply mergeFrom_out_of_range; lia.
    + rewrite updateAt_app.
      replace (pre ++ mergeInto r c :: rs) with ((pre ++ [mergeInto r c]) ++ rs)
        by (now rewrite <- app_assoc).
      replace (S (List.length pre)) with (List.length (pre ++ [mergeInto r c]))
        by (rewrite length_app; simpl; lia).
      rewrite IH. now rewrite <- app_assoc.
Qed.

Lemma mergeFrom_zip cross results :
  mergeFrom cross 0 results = mergeZip results cross.
Proof. exact (mergeFrom_app cross [] results). Qed.

Lemma mergeZip_length results cross :
  List.length (mergeZip results cross) = List.length results.
Proof.
  revert cross; induction results as [|r rs IH]; intros [|c cs]; simpl; auto.
Qed.

Lemma mergeZip_frame results cross :
  map frameOf (mergeZip results cross) = map frameOf results.
Proof.
  revert cross; induction results as [|r rs IH]; intros [|c cs]; simpl; auto.
  now rewrite IH.
Qed.

Lemma mergeZip_nth results cross i r c :
  nth_error results i = Some r -> nth_error cross i = Some c ->
  nth_error (mergeZip results cross) i = Some (mergeInto r c).
Proof.
  revert cross i; induction results as [|r0 rs IH]; intros [|c0 cs] [|i];
    simpl; try discriminate.
  - now intros [= ->] [= ->].
  - apply IH.
Qed.

Lemma validateRecordsFrom_length rules records dataType k :
  List.length (validateRecordsFrom env rules records dataType k) = List.length records.
Proof.
  revert k; induction records as [|r rs IH]; intros k; simpl; auto.
Qed.

Lemma validateRecordsFrom_nth rules records dataType k i record :
  nth_error records i = Some record ->
  nth_error (validateRecordsFrom env rules records dataType k) i
  = Some (validateRecord env rules (k + i) record dataType).
Proof.
  revert k i; induction records as [|r rs IH]; intros k [|i]; simpl;
    try discriminate.
  - intros [= ->]. now rewrite Nat.add_0_r.
  - intros H. rewrite (IH (S k) i H).
    now replace (S k + i) with (k + S i) by lia.
Qed.

(** [validateBatch] is the per-record results merged, element by element,
    with the cross-record results. *)
Lemma validateBatch_Some rules records dataType results :
  validateBatch env rules records dataType = Some results ->
  exists cross,
    performCrossRecordValidation env records (keyName dataType) = Some cross
    /\ results = mergeZip (validateRecordsFrom env rules records dataType 0) cross.
Proof.
  unfold validateBatch.
  destruct (performCrossRecordValidation env records (keyName dataType)) as [cross|];
    [|discriminate].
  intros [= <-]. exists cross. split; auto. apply mergeFrom_zip.
Qed.

(** A batch that is validated gets one result per record. *)
Lemma validateBatch_length rules records dataType results :
  validateBatch env rules records dataType = Some results ->
  List.length results = List.length records.
Proof.
  intros H. apply validateBatch_Some in H as (cross & _ & ->).
  now rewrite mergeZip_length, validateRecordsFrom_length.
Qed.

(** The result of [validateRecord] is valid exactly when it has no
    error. *)
Lemma validateRecord_isValid rules call record dataType :
  isValid (validateRecord env rules call record dataType)
  = isEmpty (errors (validateRecord env rules call record dataType)).
Proof.
  unfold validateRecord; simpl.
  now destruct (f_errors _ ++ ai_errors _).
Qed.

End Merge.

(** C10.  The merge of [validateBatch] leaves the score, the quality
    score, the record id, the record type and the time stamp of every
    result as [validateRecord] computed them for the record at that index:
    cross-record findings never change a quality score. *)
Theorem merge_keeps_score_and_identity :
  forall (host : JsHost) (env : Env) (rules : RuleMap) (records : list JsObj)
         (dataType : DataTypeKey) (results : list ValidationResult)
         (i : nat) (record : JsObj),
    validateBatch env rules records dataType = Some results ->
    nth_error records i = Some record ->
    exists r,
      nth_error results i = Some r
      /\ frameOf r
         = frameOf (validateRecord env rules i record dataType).
Proof.
  intros host env rules records dataType results i record Hbatch Hrec.
  apply validateBatch_Some in Hbatch as (cross & _ & ->).
  pose proof (validateRecordsFrom_nth env rules records dataType 0 i record Hrec) as Hper.
  simpl in Hper.
  pose proof (mergeZip_frame (validateRecordsFrom env rules records dataType 0) cross)
    as Hframe.
  apply (f_equal (fun l => nth_error l i)) in Hframe.
  rewrite !nth_error_map, Hper in Hframe. simpl in Hframe.
  destruct (nth_error (mergeZip _ cross) i) as [r|]; [|discriminate].
  exists r. split; auto. simpl in Hframe. congruence.
Qed.

(* ================================================================== *)
(** ** Steps of the cross-record validation *)
(* ================================================================== *)

Section KeepsLemmas.
Variable R : ValidationResult -> ValidationResult -> Prop.
Hypothesis R_refl : forall r, R r r.
Hypothesis R_trans : forall r1 r2 r3, R r1 r2 -> R r2 r3 -> R r1 r3.

Lemma Forall2_R_refl (xs : list ValidationResult) : Forall2 R xs xs.
Proof. induction xs; constructor; auto. Qed.

Lemma Forall2_R_trans (xs ys zs : list ValidationResult) :
  Forall2 R xs ys -> Forall2 R ys zs -> Forall2 R xs zs.
Proof.
  intros H; revert zs; induction H; intros zs Hz; inversion Hz; subst;
    constructor; eauto.
Qed.

Lemma keeps_ret {A : Type} (a : A) : Keeps R (ret a).
Proof. intros st; apply Forall2_R_refl. Qed.

Lemma keeps_throw {A : Type} : Keeps R (@throw A).
Proof. intros st; apply Forall2_R_refl. Qed.

Lemma keeps_orThrow {A : Type} (x : option A) : Keeps R (orThrow x).
Proof. destruct x; [apply keeps_ret | apply keeps_throw]. Qed.

Lemma keeps_bind {A B : Type} (m : Exec A) (k : A -> Exec B) :
  Keeps R m -> (forall a, Keeps R (k a)) -> Keeps R (bind m k).
Proof.
  intros Hm Hk st. unfold bind. specialize (Hm st).
  destruct (m st) as [a st'|st']; simpl in *; auto.
  eapply Forall2_R_trans; [exact Hm | apply Hk].
Qed.

Lemma keeps_tryCatch (m : Exec unit) : Keeps R m -> Keeps R (tryCatch m).
Proof.
  intros Hm st. unfold tryCatch. specialize (Hm st).
  now destruct (m st).
Qed.

Lemma keeps_when (c : bool) (m : Exec unit) : Keeps R m -> Keeps R (when c m).
Proof. destruct c; simpl; auto using keeps_ret. Qed.

Lemma keeps_forEachFrom {X : Type} (f : X -> nat -> Exec unit) (xs : list X) k :
  (forall x i, Keeps R (f x i)) -> Keeps R (forEachFrom f xs k).
Proof.
  intros Hf; revert k; induction xs as [|x xs IH]; intros k; simpl.
  - apply keeps_ret.
  - apply keeps_bind; auto.
Qed.

Lemma keeps_forEach {X : Type} (f : X -> nat -> Exec unit) (xs : list X) :
  (forall x i, Keeps R (f x i)) -> Keeps R (forEach f xs).
Proof. apply keeps_forEachFrom. Qed.

Lemma keeps_pushError index e :
  (forall r, R r (withErrors (fun l => l ++ [e]) r)) ->
  Keeps R (pushError index e).
Proof.
  intros H st. unfold pushError.
  destruct (nth_error st index); simpl.
  - apply updateAt_Forall2; auto.
  - apply Forall2_R_refl.
Qed.

Lemma keeps_pushWarning index e :
  (forall r, R r (withWarnings (fun l => l ++ [e]) r)) ->
  Keeps R (pushWarning index e).
Proof.
  intros H st. unfold pushWarning.
  destruct (nth_error st index); simpl.
  - apply updateAt_Forall2; auto.
  - apply Forall2_R_refl.
Qed.

End KeepsLemmas.

Lemma grows_refl r : grows r r.
Proof.
  repeat split; auto; exists []; now rewrite app_nil_r.
Qed.

Lemma grows_trans r1 r2 r3 : grows r1 r2 -> grows r2 r3 -> grows r1 r3.
Proof.
  intros (Hv & (e & He) & (w & Hw) & Hs & Hf) (Hv' & (e' & He') & (w' & Hw') & Hs' & Hf').
  repeat split; try congruence.
  - exists (e ++ e'). rewrite He', He. now rewrite app_assoc.
  - exists (w ++ w'). rewrite Hw', Hw. now rewrite app_assoc.
Qed.

Lemma grows_withErrors e r : grows r (withErrors (fun l => l ++ [e]) r).
Proof.
  repeat split; simpl; auto; [now exists [e] | exists []; now rewrite app_nil_r].
Qed.

Lemma grows_withWarnings e r : grows r (withWarnings (fun l => l ++ [e]) r).
Proof.
  repeat split; simpl; auto; [exists []; now rewrite app_nil_r | now exists [e]].
Qed.

Lemma sameErrors_refl r : sameErrors r r.
Proof. reflexivity. Qed.

Lemma sameErrors_trans r1 r2 r3 :
  sameErrors r1 r2 -> sameErrors r2 r3 -> sameErrors r1 r3.
Proof. unfold sameErrors; congruence. Qed.

Lemma sameErrors_withWarnings e r :
  sameErrors r (withWarnings (fun l => l ++ [e]) r).
Proof. reflexivity. Qed.

(** Steps are assembled from the combinators above; [keeps] goes through
    such an assembly. *)
Ltac keeps_step :=
  match goal with
  | |- Keeps _ (bind _ _) => apply keeps_bind
  | |- Keeps _ (ret _) => apply keeps_ret
  | |- Keeps _ throw => apply keeps_throw
  | |- Keeps _ (orThrow _) => apply keeps_orThrow
  | |- Keeps _ (tryCatch _) => apply keeps_tryCatch
  | |- Keeps _ (when _ _) => apply keeps_when
  | |- Keeps _ (forEach _ _) => apply keeps_forEach
  | |- Keeps _ (forEachFrom _ _ _) => apply keeps_forEachFrom
  | |- Keeps _ (if ?c then _ else _) => destruct c
  | |- Keeps _ (pushError _ _) => apply keeps_pushError
  | |- Keeps _ (pushWarning _ _) => apply keeps_pushWarning
  | |- forall _, _ => intro
  end.

Ltac keeps R_refl R_trans :=
  repeat (keeps_step; try exact R_refl; try exact R_trans).

Section CrossSteps.
Context {host : JsHost}.
Variable env : Env.

Lemma checkDuplicates_sameErrors records dataType :
  Keeps sameErrors (checkDuplicates records dataType).
Proof.
  unfold checkDuplicates. keeps sameErrors_refl sameErrors_trans.
Qed.

Lemma crossRecordBody_grows records dataType :
  Keeps grows (crossRecordBody env records dataType).
Proof.
  unfold crossRecordBody, crossDatasetChecks, checkDuplicates,
    checkClientReferences, checkDurations, checkPreferredPhases,
    checkAvailableSlots, checkSkillCoverage, checkMaxConcurrency,
    checkPhaseSaturation, checkRequestedTasks.
  keeps grows_refl grows_trans;
    try apply grows_withErrors; try apply grows_withWarnings.
Qed.

End CrossSteps.

Section CompletesLemmas.
Variable n : nat.

Lemma completes_ret : Completes n (ret tt).
Proof. intros st Hn. now exists st. Qed.

Lemma completes_bind (m : Exec unit) (k : unit -> Exec unit) :
  Completes n m -> Completes n (k tt) -> Completes n (bind m k).
Proof.
  intros Hm Hk st Hn. unfold bind.
  destruct (Hm st Hn) as (st1 & -> & Hn1). now apply Hk.
Qed.

Lemma completes_pushWarning index e : index < n -> Completes n (pushWarning index e).
Proof.
  intros Hi st Hn. unfold pushWarning.
  destruct (nth_error st index) eqn:E.
  - eexists; split; eauto. now rewrite updateAt_length.
  - apply nth_error_None in E. lia.
Qed.

Lemma completes_forEachFrom {X : Type} (f : X -> nat -> Exec unit) (xs : list X) k :
  (forall x i, In x xs -> k <= i < k + List.length xs -> Completes n (f x i)) ->
  Completes n (forEachFrom f xs k).
Proof.
  revert k; induction xs as [|x xs IH]; intros k Hf; simpl.
  - apply completes_ret.
  - apply completes_bind.
    + apply Hf; simpl; auto; lia.
    + apply IH. intros y i Hy Hi. apply Hf; simpl; auto; lia.
Qed.

Lemma completes_forEach {X : Type} (f : X -> nat -> Exec unit) (xs : list X) :
  (forall x i, In x xs -> i < List.length xs -> Completes n (f x i)) ->
  Completes n (forEach f xs).
Proof.
  intros Hf. apply completes_forEachFrom. intros x i Hx Hi. apply Hf; auto; lia.
Qed.

End CompletesLemmas.

Lemma bind_Normal {A B : Type} (m : Exec A) (k : A -> Exec B) st b st' :
  bind m k st = Normal b st' ->
  exists a st1, m st = Normal a st1 /\ k a st1 = Normal b st'.
Proof.
  unfold bind. destruct (m st) as [a st1|st1]; [|discriminate]. eauto.
Qed.

Lemma Forall2_length_eq {A B : Type} (R : A -> B -> Prop) xs ys :
  Forall2 R xs ys -> List.length xs = List.length ys.
Proof. induction 1; simpl; auto. Qed.

(** A loop that pushes at most one error on the element of its index. *)
Lemma forEachFrom_pushWhere {X : Type} (c : X -> bool) (e : X -> ValidationError)
  (xs : list X) (pre st : list ValidationResult) :
  List.length xs <= List.length st ->
  forEachFrom (fun x i => when (c x) (pushError i (e x))) xs (List.length pre)
    (pre ++ st)
  = Normal tt (pre ++ pushWhere c e xs st).
Proof.
  revert pre st; induction xs as [|x xs IH]; intros pre st Hlen; simpl.
  - now destruct st.
  - destruct st as [|r st]; [simpl in Hlen; lia|].
    unfold bind.
    assert (Hstep : when (c x) (pushError (List.length pre) (e x)) (pre ++ r :: st)
                    = Normal tt (pre ++ (if c x then withErrors (fun l => l ++ [e x]) r
                                         else r) :: st)).
    { destruct (c x); simpl; auto. unfold pushError.
      rewrite nth_error_app2 by lia. rewrite Nat.sub_diag. simpl.
      now rewrite updateAt_app. }
    rewrite Hstep.
    set (r' := if c x then _ else r).
    replace (pre ++ r' :: st) with ((pre ++ [r']) ++ st) by (now rewrite <- app_assoc).
    replace (S (List.length pre)) with (List.length (pre ++ [r']))
      by (rewrite length_app; simpl; lia).
    rewrite IH by (simpl in Hlen; lia).
    now rewrite <- app_assoc.
Qed.

Lemma forEach_pushWhere {X : Type} (c : X -> bool) (e : X -> ValidationError)
  (xs : list X) (st : list ValidationResult) :
  List.length xs <= List.length st ->
  forEach (fun x i => when (c x) (pushError i (e x))) xs st
  = Normal tt (pushWhere c e xs st).
Proof. exact (forEachFrom_pushWhere c e xs [] st). Qed.

Lemma pushWhere_nth {X : Type} (c : X -> bool) (e : X -> ValidationError)
  (xs : list X) (st : list ValidationResult) i x r :
  nth_error xs i = Some x -> nth_error st i = Some r ->
  nth_error (pushWhere c e xs st) i
  = Some (if c x then withErrors (fun l => l ++ [e x]) r else r).
Proof.
  revert st i; induction xs as [|x0 xs IH]; intros [|r0 st] [|i]; simpl;
    try discriminate.
  - now intros [= ->] [= ->].
  - apply IH.
Qed.

(* ================================================================== *)
(** ** When the cross-record validation completes *)
(* ================================================================== *)

Section Completion.
Context {host : JsHost}.
Variable env : Env.

Lemma mapPush_below n m key index :
  Forall (indicesBelow n) m -> index < n -> Forall (indicesBelow n) (mapPush m key index).
Proof.
  intros Hm Hi; induction Hm as [|[k l] m Hkl Hm IH]; simpl.
  - repeat constructor; auto.
  - destruct (String.eqb k key); constructor; auto.
    unfold indicesBelow in *; simpl in *. apply Forall_app; split; auto.
Qed.

Lemma valueMapFrom_below n field records index m :
  Forall (indicesBelow n) m -> index + List.length records <= n ->
  Forall (indicesBelow n) (valueMapFrom field records index m).
Proof.
  revert index m; induction records as [|r rs IH]; intros index m Hm Hn; simpl; auto.
  apply IH; [|simpl in Hn; lia].
  destruct (truthy _); auto. apply mapPush_below; auto. simpl in Hn; lia.
Qed.

Lemma findDuplicates_below records dataType :
  Forall (fun d => Forall (fun i => i < List.length records) (dup_indices d))
         (findDuplicates records dataType).
Proof.
  unfold findDuplicates. apply Forall_flat_map, Forall_forall. intros field _.
  unfold duplicatesOfField. apply Forall_flat_map.
  pose proof (@valueMapFrom_below (List.length records) field records 0 []
                (Forall_nil _) (Nat.le_refl _)) as H.
  eapply Forall_impl; [|exact H].
  intros [value indices] Hb. destruct (Nat.ltb 1 (List.length indices)); constructor; auto.
Qed.

Lemma checkDuplicates_completes records dataType :
  Completes (List.length records) (checkDuplicates records dataType).
Proof.
  unfold checkDuplicates. apply completes_forEach. intros d _ Hd _.
  pose proof (findDuplicates_below records dataType) as Hall.
  rewrite Forall_forall in Hall. specialize (Hall d Hd).
  rewrite Forall_forall in Hall.
  apply completes_forEach. intros index _ Hin _.
  apply completes_pushWarning. auto.
Qed.

Lemma initialResultsFrom_length records dataType k :
  List.length (initialResultsFrom env records dataType k) = List.length records.
Proof.
  revert k; induction records as [|r rs IH]; intros k; simpl; auto.
Qed.

Lemma initialResultsFrom_fresh records dataType k :
  Forall (fun r => isValid r = true /\ errors r = [] /\ warnings r = []
                   /\ suggestions r = [])
         (initialResultsFrom env records dataType k).
Proof.
  revert k; induction records as [|r rs IH]; intros k; simpl; constructor; auto.
Qed.

(** [performCrossRecordValidation] returns one fresh-looking result per
    record, valid whatever was pushed on it. *)
Lemma performCrossRecordValidation_shape records dataType cross :
  performCrossRecordValidation env records dataType = Some cross ->
  List.length cross = List.length records
  /\ Forall (fun c => isValid c = true /\ suggestions c = []) cross.
Proof.
  unfold performCrossRecordValidation.
  pose proof (crossRecordBody_grows env records dataType
                (initialResults env records dataType)) as Hg.
  destruct (crossRecordBody env records dataType _) as [[] st|st]; [|discriminate].
  intros [= <-]. simpl in Hg. split.
  - rewrite <- (Forall2_length_eq _ _ _ Hg). apply initialResultsFrom_length.
  - pose proof (initialResultsFrom_fresh records dataType 0) as Hf.
    unfold initialResults in Hg.
    induction Hg as [|r r' l l' Hr Hl IH]; constructor.
    + inversion Hf; subst. destruct Hr as (Hv & _ & _ & Hs & _).
      destruct H1 as (Hv0 & _ & _ & Hs0). split; congruence.
    + apply IH. now inversion Hf.
Qed.

End Completion.

(* ================================================================== *)
(** ** Validity and errors of a result *)
(* ================================================================== *)

Import Demo.

(** In a batch result [isValid] is the one [validateRecord] computed:
    the cross-record results it is conjoined with are always valid. *)
Lemma validateBatch_isValid_per_record :
  forall (host : JsHost) (env : Env) (rules : RuleMap) (records : list JsObj)
         (dataType : DataTypeKey) (results : list ValidationResult)
         (i : nat) (record : JsObj),
    validateBatch env rules records dataType = Some results ->
    nth_error records i = Some record ->
    exists r,
      nth_error results i = Some r
      /\ isValid r
         = isValid (validateRecord env rules i record dataType).
Proof.
  intros host env rules records dataType results i record Hbatch Hrec.
  apply validateBatch_Some in Hbatch as (cross & Hcross & ->).
  apply performCrossRecordValidation_shape in Hcross as (Hlen & Hvalid).
  pose proof (validateRecordsFrom_nth env rules records dataType 0 i record Hrec) as Hper.
  simpl in Hper.
  destruct (nth_error cross i) as [c|] eqn:Ec.
  - rewrite (mergeZip_nth _ _ _ _ _ Hper Ec). eexists; split; eauto.
    rewrite Forall_forall in Hvalid.
    destruct (Hvalid c (nth_error_In _ _ Ec)) as (Hv & _).
    simpl. rewrite Hv. apply andb_true_r.
  - apply nth_error_None in Ec.
    assert (i < List.length records) by (apply nth_error_Some; congruence). lia.
Qed.

(** C1.  A task without a duration passes every default rule, so
    [validateRecord] makes it valid; [validateBatch] pushes the duration
    error on its result and leaves it valid: the result is valid and has an
    error. *)
Theorem validateBatch_valid_with_errors :
  exists r,
    validateBatch (envAt (Some registry0)) defaultRules [taskPlain] tasks = Some [r]
    /\ isValid r = true
    /\ errors r = [durationError].
Proof.
  eexists. split; [vm_compute; reflexivity|]. split; reflexivity.
Qed.

(** C3.  A task whose preferred phases are the range 0-4294967295 makes
    [parseNumberList] ask for an array of 2^32 elements; the [RangeError]
    is thrown outside the [try] block and [validateBatch] returns no
    result. *)
Theorem validateBatch_throws_on_wide_range :
  preferredPhasesOf taskWidePhases = None
  /\ validateBatch (envAt (Some registry0)) defaultRules [taskWidePhases] tasks = None.
Proof. split; vm_compute; reflexivity. Qed.

(** [isValidClientReference] takes every reference for valid when the
    registry cannot be read. *)
Lemma isValidClientReference_fault :
  forall (host : JsHost) (env : Env) (clientId : JsValue),
    registry env = None -> isValidClientReference env clientId = true.
Proof. intros host env clientId H. unfold isValidClientReference. now rewrite H. Qed.

(** With no client in the registry no reference is valid. *)
Lemma isValidClientReference_no_clients :
  forall (host : JsHost) (env : Env) (reg : Registry) (clientId : JsValue),
    registry env = Some reg -> getData clients reg = [] ->
    isValidClientReference env clientId = false.
Proof.
  intros host env reg clientId H Hc. unfold isValidClientReference.
  now rewrite H, Hc.
Qed.

(** The checks inside the [try] block do nothing when the registry has no
    worker, no task, or cannot be read. *)
Lemma crossDatasetChecks_skipped :
  forall (host : JsHost) (env : Env) (records : list JsObj) (dataType : string)
         (results : list ValidationResult),
    match registry env with
    | None => True
    | Some reg =>
        getData tasks reg = []
        \/ (getData workers reg = [] /\ String.eqb dataType "tasks" = true)
        \/ (getData clients reg = [] /\ String.eqb dataType "clients" = true)
    end ->
    crossDatasetChecks env records dataType results = Normal tt results.
Proof.
  intros host env records dataType results H.
  unfold crossDatasetChecks, tryCatch, bind.
  destruct (registry env) as [reg|]; [|reflexivity].
  unfold orThrow, ret.
  destruct H as [Ht | [[Hw Hd] | [Hc Hd]]].
  - rewrite Ht. simpl. now rewrite !andb_false_r.
  - rewrite Hw, Hd.
    assert (E : String.eqb dataType "clients" = false).
    { apply String.eqb_eq in Hd. now subst. }
    rewrite E. simpl. now rewrite !andb_false_r.
  - rewrite Hc, Hd.
    assert (E : String.eqb dataType "tasks" = false).
    { apply String.eqb_eq in Hd. now subst. }
    rewrite E. simpl. now rewrite !andb_false_r.
Qed.

(** C5.  Before any client is uploaded the registry has no client, and a
    task that names a client gets the error "Referenced client does not
    exist": this check is not skipped on an empty collection. *)
Theorem client_reference_error_without_clients :
  getData clients registry0 = []
  /\ exists r,
       validateBatch (envAt (Some registry0)) defaultRules [taskOfClient] tasks
       = Some [r]
       /\ errors r = [clientReferenceError]
       /\ err_message clientReferenceError = "Referenced client does not exist".
Proof.
  split; [reflexivity|].
  eexists. split; [vm_compute; reflexivity|]. split; reflexivity.
Qed.

(* ================================================================== *)
(** ** The checks against the registry *)
(* ================================================================== *)

Lemma Forall2_nth {A B : Type} (R : A -> B -> Prop) xs ys i x :
  Forall2 R xs ys -> nth_error xs i = Some x ->
  exists y, nth_error ys i = Some y /\ R x y.
Proof.
  intros H; revert i; induction H as [|a b l l' Hab Hl IH]; intros [|i]; simpl;
    try discriminate.
  - intros [= ->]. eauto.
  - apply IH.
Qed.

Lemma Forall2_grows_trans xs ys zs :
  Forall2 grows xs ys -> Forall2 grows ys zs -> Forall2 grows xs zs.
Proof. apply Forall2_R_trans, grows_trans. Qed.

Section RegistryChecks.
Context {host : JsHost}.
Variable env : Env.

Lemma checkRequestedTasks_spec registryTasks records st :
  List.length records <= List.length st ->
  checkRequestedTasks registryTasks records st
  = Normal tt
      (pushWhere (fun c => negb (isEmpty (unknownTaskIds (knownTaskIds registryTasks) c)))
                 (fun c => unknownTaskIdsError
                             (unknownTaskIds (knownTaskIds registryTasks) c))
                 records st).
Proof.
  intros Hlen. unfold checkRequestedTasks.
  exact (forEach_pushWhere
           (fun c => negb (isEmpty (unknownTaskIds (knownTaskIds registryTasks) c)))
           (fun c => unknownTaskIdsError (unknownTaskIds (knownTaskIds registryTasks) c))
           records st Hlen).
Qed.

(** On clients, with clients and tasks in the registry, the array ends as
    the check of the requested tasks leaves it. *)
Lemma crossDatasetChecks_clients records reg st :
  registry env = Some reg ->
  getData clients reg <> [] -> getData tasks reg <> [] ->
  List.length records <= List.length st ->
  crossDatasetChecks env records "clients" st
  = Normal tt
      (pushWhere (fun c => negb (isEmpty (unknownTaskIds
                                            (knownTaskIds (getData tasks reg)) c)))
                 (fun c => unknownTaskIdsError
                             (unknownTaskIds (knownTaskIds (getData tasks reg)) c))
                 records st).
Proof.
  intros Hreg Hc Ht Hlen. unfold crossDatasetChecks, tryCatch, bind.
  rewrite Hreg. unfold orThrow, ret.
  destruct (getData clients reg) as [|c cs] eqn:Ec; [congruence|].
  destruct (getData tasks reg) as [|t ts] eqn:Et; [congruence|].
  cbv beta zeta. simpl isEmpty. simpl negb. simpl andb.
  rewrite !andb_false_r. unfold when, ret. cbv iota beta.
  now rewrite checkRequestedTasks_spec by assumption.
Qed.

End RegistryChecks.

Section RegistryTheorems.
Context {host : JsHost}.
Variable env : Env.

Lemma crossRecordBody_clients records init :
  List.length init = List.length records ->
  exists st,
    Forall2 sameErrors init st
    /\ crossRecordBody env records "clients" init
       = crossDatasetChecks env records "clients" st.
Proof.
  intros Hlen.
  destruct (checkDuplicates_completes records "clients" init Hlen) as (st & Hst & _).
  exists st. split.
  - pose proof (checkDuplicates_sameErrors records "clients" init) as G.
    now rewrite Hst in G.
  - unfold crossRecordBody, bind. now rewrite Hst.
Qed.

Lemma initialResults_nth records dataType i record :
  nth_error records i = Some record ->
  exists r, nth_error (initialResults env records dataType) i = Some r
            /\ errors r = [].
Proof.
  intros Hrec.
  destruct (nth_error (initialResults env records dataType) i) as [r|] eqn:E.
  - exists r. split; auto.
    pose proof (initialResultsFrom_fresh env records dataType 0) as Hf.
    rewrite Forall_forall in Hf. now apply (Hf r (nth_error_In _ _ E)).
  - apply nth_error_None in E. unfold initialResults in E.
    rewrite initialResultsFrom_length in E.
    assert (i < List.length records) by (apply nth_error_Some; congruence). lia.
Qed.

End RegistryTheorems.

(** C7, as the code has it.  With clients and tasks in the registry, in
    the results that [validateBatch] returns for a batch of clients, a
    client that requests task ids unknown to the registry has, after the
    errors of its own validation, exactly one error, of severity error,
    whose message lists all of them. *)
Theorem unknown_task_ids_reported_once :
  forall (host : JsHost) (env : Env) (rules : RuleMap) (records : list JsObj)
         (results : list ValidationResult) (reg : Registry) (c : JsObj) (i : nat),
    registry env = Some reg ->
    getData clients reg <> [] ->
    getData tasks reg <> [] ->
    validateBatch env rules records clients = Some results ->
    nth_error records i = Some c ->
    unknownTaskIds (knownTaskIds (getData tasks reg)) c <> [] ->
    let unknown := unknownTaskIds (knownTaskIds (getData tasks reg)) c in
    exists r,
      nth_error results i = Some r
      /\ errors r
         = errors (validateRecord env rules i c clients)
           ++ [unknownTaskIdsError unknown]
      /\ err_severity (unknownTaskIdsError unknown) = SevError
      /\ err_message (unknownTaskIdsError unknown)
         = ("Unknown TaskIDs: " ++ join ", " unknown)%string.
Proof.
  intros host env rules records results reg c i Hreg Hc Ht Hbatch Hrec Hunknown unknown.
  revert Hbatch.
  unfold validateBatch, performCrossRecordValidation. simpl keyName.
  destruct (crossRecordBody_clients env records
              (initialResults env records "clients")
              (initialResultsFrom_length env records "clients" 0))
    as (st & Hsame & ->).
  assert (Hlen : List.length records = List.length st).
  { rewrite <- (Forall2_length_eq _ _ _ Hsame). symmetry.
    apply initialResultsFrom_length. }
  rewrite (crossDatasetChecks_clients env records reg st Hreg Hc Ht
             (Nat.eq_le_incl _ _ Hlen)).
  destruct (initialResults_nth env records "clients" i c Hrec) as (r0 & Hr0 & Hfresh).
  destruct (Forall2_nth _ _ _ i _ Hsame Hr0) as (r1 & Hr1 & Hsame1).
  pose proof (pushWhere_nth
                (fun c => negb (isEmpty (unknownTaskIds
                                           (knownTaskIds (getData tasks reg)) c)))
                (fun c => unknownTaskIdsError
                            (unknownTaskIds (knownTaskIds (getData tasks reg)) c))
                records st i c r1 Hrec Hr1) as Hp.
  cbv beta in Hp. fold unknown in Hp.
  assert (Hne : negb (isEmpty unknown) = true).
  { subst unknown. now destruct (unknownTaskIds _ c). }
  rewrite Hne in Hp.
  pose proof (validateRecordsFrom_nth env rules records clients 0 i c Hrec) as Hper.
  simpl in Hper.
  intros [= <-]. eexists. split.
  - rewrite mergeFrom_zip. apply (mergeZip_nth _ _ _ _ _ Hper Hp).
  - split; [|split; reflexivity].
    simpl. unfold sameErrors in Hsame1. rewrite Hsame1, Hfresh. reflexivity.
Qed.

(** The theorem of C10 on a batch of one task. *)
Lemma merge_keeps_score_and_identity_witness :
  exists results,
    validateBatch (envAt (Some registry0)) defaultRules [taskPlain] tasks = Some results
    /\ nth_error [taskPlain] 0 = Some taskPlain
    /\ exists r,
         nth_error results 0 = Some r
         /\ frameOf r
            = frameOf (validateRecord (envAt (Some registry0)) defaultRules 0
                         taskPlain tasks).
Proof.
  eexists. split; [vm_compute; reflexivity|]. split; [reflexivity|].
  apply (merge_keeps_score_and_identity decimalHost (envAt (Some registry0))
           defaultRules [taskPlain] tasks _ 0 taskPlain);
    [vm_compute; reflexivity | reflexivity].
Defined.

(** The theorem of C7 on a client that requests T1, t2, T9 and T7 when the
    registry has the tasks T1 and T2. *)
Lemma unknown_task_ids_reported_once_witness :
  exists results,
    validateBatch
      (envAt (Some (registryOf [clientAcme] [] [taskT1; taskT2])))
      defaultRules [clientAcme] clients = Some results
    /\ exists r,
         nth_error results 0 = Some r
         /\ errors r
            = errors (validateRecord
                        (envAt (Some (registryOf [clientAcme] [] [taskT1; taskT2])))
                        defaultRules 0 clientAcme clients)
              ++ [unknownTaskIdsError ["T9"; "T7"]]
         /\ err_severity (unknownTaskIdsError ["T9"; "T7"]) = SevError
         /\ err_message (unknownTaskIdsError ["T9"; "T7"]) = "Unknown TaskIDs: T9, T7".
Proof.
  eexists. split; [vm_compute; reflexivity|].
  exact (unknown_task_ids_reported_once decimalHost
           (envAt (Some (registryOf [clientAcme] [] [taskT1; taskT2])))
           defaultRules [clientAcme] _ (registryOf [clientAcme] [] [taskT1; taskT2])
           clientAcme 0
           eq_refl ltac:(discriminate) ltac:(discriminate) eq_refl eq_refl
           ltac:(discriminate)).
Defined.

(** C7, as stated, fails: the ids a client requests are all absent from a
    registry without tasks, and no error is pushed; nor is one pushed when
    the registry has tasks and no client. *)
Lemma unknown_task_ids_skipped_on_empty_collection :
  (exists r,
     validateBatch (envAt (Some (registryOf [clientAcme] [] []))) defaultRules
       [clientAcme] clients = Some [r]
     /\ errors r = [])
  /\ (unknownTaskIds (knownTaskIds [taskT1; taskT2]) clientAcme = ["T9"; "T7"]
      /\ exists r,
           validateBatch (envAt (Some (registryOf [] [] [taskT1; taskT2])))
             defaultRules [clientAcme] clients = Some [r]
           /\ errors r = []).
Proof.
  split; [|split; [reflexivity|]];
    (eexists; split; [vm_compute; reflexivity | reflexivity]).
Qed.

(* ================================================================== *)
(** ** The quality score *)
(* ================================================================== *)

Lemma Qltb_inject_Z a b : Qltb (inject_Z a) (inject_Z b) = (a <? b)%Z.
Proof.
  unfold Qltb, Qle_bool. simpl. rewrite !Z.mul_1_r.
  rewrite Z.ltb_antisym. reflexivity.
Qed.

Lemma min_ofZ a b : Js.min (ofZ a) (ofZ b) = ofZ (Z.min a b).
Proof.
  unfold Js.min, ofZ, lt. rewrite Qltb_inject_Z.
  destruct (Z.ltb_spec b a).
  - now rewrite Z.min_r by lia.
  - now rewrite Z.min_l by lia.
Qed.

Lemma max_ofZ a b : Js.max (ofZ a) (ofZ b) = ofZ (Z.max a b).
Proof.
  unfold Js.max, ofZ, lt. rewrite Qltb_inject_Z.
  destruct (Z.ltb_spec a b).
  - now rewrite Z.max_r by lia.
  - now rewrite Z.max_l by lia.
Qed.

Lemma clampZ_range lo hi z : (lo <= hi)%Z -> (lo <= clampZ lo hi z <= hi)%Z.
Proof. unfold clampZ. lia. Qed.

Section QualityScore.
Context {host : JsHost}.

(** The score of a record with at least one field is the formula of the
    specification. *)
Lemma calculateQualityScore_spec record es ws ss :
  record <> [] ->
  calculateQualityScore record es ws ss
  = specScore (List.length es) (List.length ws) (List.length ss)
      (nonEmptyFieldCount record) (fieldCount record).
Proof.
  intros Hne. unfold calculateQualityScore, specScore, nonEmptyFieldCount, fieldCount.
  set (e := List.length es). set (w := List.length ws). set (s := List.length ss).
  set (n := List.length (filter _ _)). set (f := List.length (keys record)).
  assert (Hf : (0 < Z.of_nat f)%Z).
  { subst f. unfold keys. rewrite length_map. destruct record; [congruence|simpl; lia]. }
  assert (Hdiv : div (ofNat n) (ofNat f)
                 = Fin (Qred (inject_Z (Z.of_nat n) / inject_Z (Z.of_nat f)))).
  { unfold div, ofNat, ofZ, Qsign. simpl Qnum.
    destruct (Z.compare_spec (Z.of_nat f) 0) as [E|E|E]; try lia; reflexivity. }
  rewrite Hdiv. unfold ofNat, ofZ.
  cbn [mul sub add neg round]. unfold ofZ.
  change (Z.of_nat 0) with 0%Z. change (Z.of_nat 100) with 100%Z.
  pose proof min_ofZ as Hmin. pose proof max_ofZ as Hmax. unfold ofZ in Hmin, Hmax.
  rewrite Hmin, Hmax. unfold clampZ. do 4 apply f_equal.
  apply Qfloor_comp.
  rewrite !Qred_correct.
  change (inject_Z (Z.of_nat 20)) with 20%Q.
  change (inject_Z (Z.of_nat 10)) with 10%Q.
  change (inject_Z (Z.of_nat 5)) with 5%Q.
  change (inject_Z 100) with 100%Q.
  unfold Qdiv. ring.
Qed.

(** The score of a record without fields is not a number: the ratio of
    its field counts is 0/0. *)
Lemma calculateQualityScore_empty_record es ws ss :
  calculateQualityScore [] es ws ss = NaN.
Proof. reflexivity. Qed.

Variable env env' : Env.

Lemma applyRules_ext call call' record rules :
  (forall rule, In rule rules ->
     evalJs env' call' (rule_condition rule)
       (getFieldValue record (rule_field rule)) record
     = evalJs env call (rule_condition rule)
         (getFieldValue record (rule_field rule)) record) ->
  applyRules env' call' record rules = applyRules env call record rules.
Proof.
  intros Heval. unfold applyRules.
  generalize {| f_errors := []; f_warnings := []; f_suggestions := [] |}.
  induction rules as [|rule rules IH]; intros acc; simpl; auto.
  rewrite <- IH by (intros r Hr; apply Heval; now right). f_equal.
  unfold applyRule, evaluateCondition. now rewrite Heval by now left.
Qed.

End QualityScore.

(** C2, as the code has it.  For a record with at least one field the
    score of [validateRecord] is clamp(0, 100, round(100 - 20 e - 10 w -
    5 s + 10 n/f)), where e, w and s count the findings of the rules
    together with those of the completion service; it is an integer of
    [0, 100]; and it is the same whenever the rule conditions evaluate
    alike on the record and the service returns the same findings. *)
Theorem quality_score_formula_and_range :
  forall (host : JsHost) (env : Env) (rules : RuleMap) (call : nat)
         (record : JsObj) (dataType : DataTypeKey),
    record <> [] ->
    let r := validateRecord env rules call record dataType in
    score r
    = specScore (List.length (errors r)) (List.length (warnings r))
        (List.length (suggestions r)) (nonEmptyFieldCount record) (fieldCount record)
    /\ (exists k, (0 <= k <= 100)%Z /\ score r = ofZ k)
    /\ (forall (env' : Env) (call' : nat),
          (forall rule, In rule (getRules rules (keyName dataType)) ->
             evalJs env' call' (rule_condition rule)
               (getFieldValue record (rule_field rule)) record
             = evalJs env call (rule_condition rule)
                 (getFieldValue record (rule_field rule)) record) ->
          completion env' call' record (keyName dataType)
          = completion env call record (keyName dataType) ->
          score (validateRecord env' rules call' record dataType) = score r).
Proof.
  intros host env rules call record dataType Hne r.
  assert (Hscore : score r
            = specScore (List.length (errors r)) (List.length (warnings r))
                (List.length (suggestions r)) (nonEmptyFieldCount record)
                (fieldCount record)).
  { subst r. unfold validateRecord. simpl. now apply calculateQualityScore_spec. }
  split; [exact Hscore|]. split.
  - rewrite Hscore. unfold specScore. eexists. split; [|reflexivity].
    apply clampZ_range. lia.
  - intros env' call' Heval Hai. subst r. unfold validateRecord. simpl.
    unfold performAIValidation. rewrite Hai.
    now rewrite (applyRules_ext env env' call call' record _ Heval).
Qed.

(** The theorem of C2 on a task with two fields and two warnings. *)
Lemma quality_score_formula_and_range_witness :
  taskPlain <> []
  /\ score (validateRecord (envAt None) defaultRules 0 taskPlain tasks)
     = specScore 0 2 0 2 2
  /\ (exists k, (0 <= k <= 100)%Z
        /\ score (validateRecord (envAt None) defaultRules 0 taskPlain tasks)
           = ofZ k)
  /\ (forall (env' : Env) (call' : nat),
        (forall rule, In rule (getRules defaultRules (keyName tasks)) ->
           evalJs env' call' (rule_condition rule)
             (getFieldValue taskPlain (rule_field rule)) taskPlain
           = evalJs (envAt None) 0 (rule_condition rule)
               (getFieldValue taskPlain (rule_field rule)) taskPlain) ->
        completion env' call' taskPlain (keyName tasks)
        = completion (envAt None) 0 taskPlain (keyName tasks) ->
        score (validateRecord env' defaultRules call' taskPlain tasks)
        = score (validateRecord (envAt None) defaultRules 0 taskPlain tasks)).
Proof.
  split; [discriminate|].
  exact (quality_score_formula_and_range decimalHost (envAt None) defaultRules 0
           taskPlain tasks ltac:(discriminate)).
Defined.

(** C2, as stated, fails: with the record and the rule set fixed, the
    score is 90 without an API key and 70 when the completion service
    reports an error. *)
Lemma quality_score_depends_on_completion :
  evalJs (envWithService None) = evalJs (envAt None)
  /\ score (validateRecord (envAt None) defaultRules 0 taskPlain tasks) = ofZ 90
  /\ score (validateRecord (envWithService None) defaultRules 0 taskPlain tasks)
     = ofZ 70
  /\ score (validateRecord (envAt None) defaultRules 0 taskPlain tasks)
     <> score (validateRecord (envWithService None) defaultRules 0 taskPlain tasks).
Proof.
  repeat split; try reflexivity.
  vm_compute. discriminate.
Qed.

(* ================================================================== *)
(** ** Rules whose condition throws *)
(* ================================================================== *)

Section FaultingRule.
Context {host : JsHost}.
Variable env : Env.



End FaultingRule.



(* ================================================================== *)
(** ** parseNumberList *)
(* ================================================================== *)

Section ParseNumberList.
Context {host : JsHost}.

(** What is neither an array nor a string parses to nothing. *)
Lemma parseNumberList_other input :
  (forall items, input <> VArr items) -> (forall s, input <> VStr s) ->
  parseNumberList input = Some [].
Proof.
  intros Ha Hs. destruct input; try reflexivity.
  - now destruct (Hs s).
  - now destruct (Ha items).
Qed.

(** [parseNumberList] throws only on a range text, when the array of the
    range is refused. *)
Lemma parseNumberList_None input :
  parseNumberList input = None ->
  exists s ma mb,
    input = VStr s
    /\ matchRange (trim s) = Some (ma, mb)
    /\ arrayFromRange (str_to_num ma) (str_to_num mb) = None.
Proof.
  destruct input; simpl; try discriminate.
  destruct (if String.prefix "[" (trim s) && endsWith (trim s) "]"
            then json_parse_array (trim s) else None); [discriminate|].
  destruct (matchRange (trim s)) as [[ma mb]|] eqn:E; [|discriminate].
  destruct (isFinite (str_to_num ma) && isFinite (str_to_num mb)
            && le (str_to_num ma) (str_to_num mb)); [|discriminate].
  intros H. now exists s, ma, mb.
Qed.

(** The array of a range is refused exactly when it would have more than
    2^32 - 1 elements. *)
Lemma arrayFromRange_None (a b : Z) :
  arrayFromRange (ofZ a) (ofZ b) = None <-> (4294967295 < b - a + 1)%Z.
Proof.
  unfold arrayFromRange, ofNat, ofZ. cbn [sub add neg].
  set (q := Qred _).
  assert (Hq : Qfloor q = (b - a + 1)%Z).
  { subst q. rewrite <- (Qfloor_Z (b - a + 1)). apply Qfloor_comp.
    rewrite !Qred_correct. unfold Z.sub. rewrite !inject_Z_plus, inject_Z_opp.
    change (inject_Z (Z.of_nat 1)) with (inject_Z 1). ring. }
  rewrite Hq. unfold maxArrayLength.
  destruct (Z.ltb_spec 4294967295 (Z.max 0 (b - a + 1))); split;
    intros H'; try discriminate; try reflexivity; lia.
Qed.

(** A text that is no JSON array and no range, and no piece of which
    between commas is a finite number, parses to nothing. *)
Lemma parseNumberList_unparseable s :
  (String.prefix "[" (trim s) && endsWith (trim s) "]" = true ->
   json_parse_array (trim s) = None) ->
  matchRange (trim s) = None ->
  (forall piece, In piece (splitComma (stripBrackets (trim s))) ->
     isFinite (str_to_num piece) = false) ->
  parseNumberList (VStr s) = Some [].
Proof.
  intros Hjson Hrange Hpieces. unfold parseNumberList.
  destruct (String.prefix "[" (trim s) && endsWith (trim s) "]");
    [rewrite Hjson by reflexivity|]; rewrite Hrange; f_equal;
    (induction (splitComma (stripBrackets (trim s))) as [|piece l IH]; simpl; auto;
     destruct (nonEmpty piece); simpl;
     [rewrite (Hpieces piece (or_introl eq_refl))|];
     apply IH; intros p Hp; apply Hpieces; now right).
Qed.

Lemma Qred_inject_Z z : Qred (inject_Z z) = inject_Z z.
Proof.
  unfold Qred, inject_Z.
  generalize (Z.ggcd_gcd z 1) (Z.ggcd_correct_divisors z 1).
  destruct (Z.ggcd z 1) as (g, (aa, bb)); simpl.
  rewrite Z.gcd_1_r. intros -> [Ha Hb]. rewrite Z.mul_1_l in Ha, Hb.
  now subst.
Qed.

Lemma add_ofZ a b : add (ofZ a) (ofZ b) = ofZ (a + b).
Proof.
  unfold add, ofZ. f_equal.
  rewrite <- (Qred_inject_Z (a + b)).
  apply Qred_complete. now rewrite inject_Z_plus.
Qed.

(** A range text a-b with a <= b, of at most 2^32 - 1 integers, parses to
    a, a+1, ..., b. *)
Lemma parseNumberList_range s ma mb (a b : Z) :
  (String.prefix "[" (trim s) && endsWith (trim s) "]" = true ->
   json_parse_array (trim s) = None) ->
  matchRange (trim s) = Some (ma, mb) ->
  str_to_num ma = ofZ a -> str_to_num mb = ofZ b ->
  (a <= b)%Z -> (b - a + 1 <= 4294967295)%Z ->
  parseNumberList (VStr s)
  = Some (map (fun i => ofZ (a + Z.of_nat i)) (seq 0 (Z.to_nat (b - a + 1)))).
Proof.
  intros Hjson Hrange Ha Hb Hab Hlen. unfold parseNumberList.
  assert (Hparsed : (if String.prefix "[" (trim s) && endsWith (trim s) "]"
                     then json_parse_array (trim s) else None) = None).
  { destruct (String.prefix "[" (trim s) && endsWith (trim s) "]"); auto. }
  rewrite Hparsed, Hrange, Ha, Hb.
  assert (Hle : le (ofZ a) (ofZ b) = true).
  { unfold le, ofZ, Qle_bool. simpl. apply Z.leb_le. lia. }
  rewrite Hle. simpl andb. cbv iota.
  unfold arrayFromRange, ofNat, ofZ. cbn [sub add neg].
  set (q := Qred _).
  assert (Hq : Qfloor q = (b - a + 1)%Z).
  { subst q. rewrite <- (Qfloor_Z (b - a + 1)). apply Qfloor_comp.
    rewrite !Qred_correct. unfold Z.sub. rewrite !inject_Z_plus, inject_Z_opp.
    change (inject_Z (Z.of_nat 1)) with (inject_Z 1). ring. }
  rewrite Hq. unfold maxArrayLength.
  destruct (Z.ltb_spec 4294967295 (Z.max 0 (b - a + 1))); [lia|].
  rewrite Z.max_r by lia. f_equal. apply map_ext. intros i.
  exact (add_ofZ a (Z.of_nat i)).
Qed.

End ParseNumberList.

(** C8.  On the host of the examples [parseNumberList] gives the four
    results of the specification and nothing for the descending range 3-1;
    on the range 0-4294967295 it throws instead of returning the integers
    of the range. *)
Theorem parseNumberList_examples_and_wide_range :
  let parse := parseNumberList (host := decimalHost) in
  parse (VStr "[1,2,3]") = Some [ofZ 1; ofZ 2; ofZ 3]
  /\ parse (VStr "1-3") = Some [ofZ 1; ofZ 2; ofZ 3]
  /\ parse (VStr "2,,4") = Some [ofZ 2; ofZ 4]
  /\ parse (VStr "not a list") = Some []
  /\ parse (VStr "3-1") = Some []
  /\ matchRange "0-4294967295" = Some ("0", "4294967295")
  /\ parse (VStr "0-4294967295") = None.
Proof. repeat split; vm_compute; reflexivity. Qed.

(* ================================================================== *)
(** ** Two calls on the same batch *)
(* ================================================================== *)

Lemma sameButStamp_map r1 r2 :
  Forall2 sameButStamp r1 r2 <-> map eraseStamp r1 = map eraseStamp r2.
Proof.
  split.
  - induction 1 as [|a b l l' Hab Hl IH]; cbn [map]; auto.
    unfold sameButStamp in Hab. now rewrite Hab, IH.
  - revert r2; induction r1 as [|a l IH]; intros [|b l']; cbn [map];
      try discriminate.
    + constructor.
    + intros H.
      assert (Hab : eraseStamp a = eraseStamp b) by congruence.
      assert (Hl : map eraseStamp l = map eraseStamp l') by congruence.
      constructor; auto.
Qed.

Lemma sameButStamp_withErrors f r1 r2 :
  sameButStamp r1 r2 -> sameButStamp (withErrors f r1) (withErrors f r2).
Proof.
  unfold sameButStamp, eraseStamp, withErrors; simpl. intros [=]. congruence.
Qed.

Lemma sameButStamp_withWarnings f r1 r2 :
  sameButStamp r1 r2 -> sameButStamp (withWarnings f r1) (withWarnings f r2).
Proof.
  unfold sameButStamp, eraseStamp, withWarnings; simpl. intros [=]. congruence.
Qed.

Lemma sameButStamp_mergeInto r1 r2 c1 c2 :
  sameButStamp r1 r2 -> sameButStamp c1 c2 ->
  sameButStamp (mergeInto r1 c1) (mergeInto r2 c2).
Proof.
  unfold sameButStamp, eraseStamp, mergeInto; simpl. intros [=] [=]. congruence.
Qed.

Lemma updateAt_sameButStamp f1 f2 i r1 r2 :
  (forall a b, sameButStamp a b -> sameButStamp (f1 a) (f2 b)) ->
  Forall2 sameButStamp r1 r2 ->
  Forall2 sameButStamp (updateAt f1 i r1) (updateAt f2 i r2).
Proof.
  intros Hf H; revert i; induction H as [|a b l l' Hab Hl IH]; intros [|i]; simpl;
    constructor; auto.
Qed.

Lemma mergeZip_sameButStamp r1 r2 c1 c2 :
  Forall2 sameButStamp r1 r2 -> Forall2 sameButStamp c1 c2 ->
  Forall2 sameButStamp (mergeZip r1 c1) (mergeZip r2 c2).
Proof.
  intros H; revert c1 c2; induction H as [|a b l l' Hab Hl IH]; intros c1 c2 Hc; simpl.
  - constructor.
  - destruct Hc as [|x y k k' Hxy Hk]; constructor; auto.
    now apply sameButStamp_mergeInto.
Qed.

Section ObliviousLemmas.

Lemma oblivious_ret {A : Type} (a : A) : Oblivious (ret a) (ret a).
Proof. intros r1 r2 H. simpl. auto. Qed.

Lemma oblivious_throw {A : Type} : Oblivious (@throw A) (@throw A).
Proof. intros r1 r2 H. exact H. Qed.

Lemma oblivious_orThrow {A : Type} (x y : option A) :
  x = y -> Oblivious (orThrow x) (orThrow y).
Proof. intros <-. destruct x; [apply oblivious_ret | apply oblivious_throw]. Qed.

Lemma oblivious_bind {A B : Type} (m1 m2 : Exec A) (k1 k2 : A -> Exec B) :
  Oblivious m1 m2 -> (forall a, Oblivious (k1 a) (k2 a)) ->
  Oblivious (bind m1 k1) (bind m2 k2).
Proof.
  intros Hm Hk r1 r2 H. unfold bind. specialize (Hm r1 r2 H).
  destruct (m1 r1) as [a1 s1|s1], (m2 r2) as [a2 s2|s2]; simpl in Hm; try tauto.
  destruct Hm as [<- Hs]. now apply Hk.
Qed.

Lemma oblivious_tryCatch (m1 m2 : Exec unit) :
  Oblivious m1 m2 -> Oblivious (tryCatch m1) (tryCatch m2).
Proof.
  intros Hm r1 r2 H. unfold tryCatch. specialize (Hm r1 r2 H).
  destruct (m1 r1) as [a1 s1|s1], (m2 r2) as [a2 s2|s2]; simpl in *; tauto.
Qed.

Lemma oblivious_when (c1 c2 : bool) (m1 m2 : Exec unit) :
  c1 = c2 -> Oblivious m1 m2 -> Oblivious (when c1 m1) (when c2 m2).
Proof. intros <- Hm. destruct c1; simpl; auto using oblivious_ret. Qed.

Lemma oblivious_forEachFrom {X : Type} (f1 f2 : X -> nat -> Exec unit) xs k :
  (forall x i, Oblivious (f1 x i) (f2 x i)) ->
  Oblivious (forEachFrom f1 xs k) (forEachFrom f2 xs k).
Proof.
  intros Hf; revert k; induction xs as [|x xs IH]; intros k; simpl.
  - apply oblivious_ret.
  - apply oblivious_bind; auto.
Qed.

Lemma oblivious_forEach {X : Type} (f1 f2 : X -> nat -> Exec unit) xs :
  (forall x i, Oblivious (f1 x i) (f2 x i)) ->
  Oblivious (forEach f1 xs) (forEach f2 xs).
Proof. apply oblivious_forEachFrom. Qed.

Lemma oblivious_pushError index e :
  Oblivious (pushError index e) (pushError index e).
Proof.
  intros r1 r2 H. unfold pushError.
  pose proof (Forall2_length_eq _ _ _ H) as Hlen.
  destruct (nth_error r1 index) eqn:E1, (nth_error r2 index) eqn:E2; simpl; auto.
  - split; auto. apply updateAt_sameButStamp; auto.
    intros a b. apply sameButStamp_withErrors.
  - apply nth_error_None in E2.
    assert (index < List.length r1) by (apply nth_error_Some; congruence). lia.
  - apply nth_error_None in E1.
    assert (index < List.length r2) by (apply nth_error_Some; congruence). lia.
Qed.

Lemma oblivious_pushWarning index e :
  Oblivious (pushWarning index e) (pushWarning index e).
Proof.
  intros r1 r2 H. unfold pushWarning.
  pose proof (Forall2_length_eq _ _ _ H) as Hlen.
  destruct (nth_error r1 index) eqn:E1, (nth_error r2 index) eqn:E2; simpl; auto.
  - split; auto. apply updateAt_sameButStamp; auto.
    intros a b. apply sameButStamp_withWarnings.
  - apply nth_error_None in E2.
    assert (index < List.length r1) by (apply nth_error_Some; congruence). lia.
  - apply nth_error_None in E1.
    assert (index < List.length r2) by (apply nth_error_Some; congruence). lia.
Qed.

End ObliviousLemmas.

Ltac oblivious_step :=
  match goal with
  | |- Oblivious (bind _ _) (bind _ _) => apply oblivious_bind
  | |- Oblivious (ret _) (ret _) => apply oblivious_ret
  | |- Oblivious (orThrow _) (orThrow _) => apply oblivious_orThrow; reflexivity
  | |- Oblivious (tryCatch _) (tryCatch _) => apply oblivious_tryCatch
  | |- Oblivious (when _ _) (when _ _) => apply oblivious_when; [reflexivity|]
  | |- Oblivious (forEach _ _) (forEach _ _) => apply oblivious_forEach
  | |- Oblivious (pushError _ _) (pushError _ _) => apply oblivious_pushError
  | |- Oblivious (pushWarning _ _) (pushWarning _ _) => apply oblivious_pushWarning
  | |- Oblivious (if ?c then _ else _) (if ?c then _ else _) => destruct c
  | |- forall _, _ => intro
  end.

Section TwoCalls.
Context {host : JsHost}.

(** The steps of the cross-record validation depend on the environment
    through its registry alone, and not on the time stamps in the array. *)
Lemma crossRecordBody_oblivious reg eval1 eval2 ai1 ai2 rs1 rs2 cs1 cs2
  records dataType :
  Oblivious
    (crossRecordBody
       {| registry := reg; evalJs := eval1; completion := ai1;
          recordStamp := rs1; crossStamp := cs1 |} records dataType)
    (crossRecordBody
       {| registry := reg; evalJs := eval2; completion := ai2;
          recordStamp := rs2; crossStamp := cs2 |} records dataType).
Proof.
  unfold crossRecordBody, crossDatasetChecks, checkDuplicates,
    checkClientReferences, checkDurations, checkPreferredPhases,
    checkAvailableSlots, checkSkillCoverage, checkMaxConcurrency,
    checkPhaseSaturation, checkRequestedTasks.
  repeat oblivious_step.
Qed.

Lemma initialResultsFrom_sameButStamp env1 env2 records dataType k :
  Forall2 sameButStamp (initialResultsFrom env1 records dataType k)
                       (initialResultsFrom env2 records dataType k).
Proof.
  revert k; induction records as [|r rs IH]; intros k; simpl; constructor; auto.
  reflexivity.
Qed.

Lemma validateRecordsFrom_sameButStamp env1 env2 rules records dataType k :
  (forall i record rule,
     nth_error records i = Some record ->
     In rule (getRules rules (keyName dataType)) ->
     evalJs env1 (k + i) (rule_condition rule)
       (getFieldValue record (rule_field rule)) record
     = evalJs env2 (k + i) (rule_condition rule)
         (getFieldValue record (rule_field rule)) record) ->
  (forall i record, nth_error records i = Some record ->
     completion env1 (k + i) record (keyName dataType)
     = completion env2 (k + i) record (keyName dataType)) ->
  Forall2 sameButStamp (validateRecordsFrom env1 rules records dataType k)
                       (validateRecordsFrom env2 rules records dataType k).
Proof.
  revert k; induction records as [|r rs IH]; intros k Heval Hai; simpl;
    constructor.
  - unfold sameButStamp, eraseStamp, validateRecord, performAIValidation; simpl.
    pose proof (Hai 0 r eq_refl) as Hai0. rewrite Nat.add_0_r in Hai0.
    rewrite Hai0.
    rewrite (applyRules_ext env2 env1 k k r _).
    + reflexivity.
    + intros rule Hin. pose proof (Heval 0 r rule eq_refl Hin) as H.
      now rewrite Nat.add_0_r in H.
  - apply IH.
    + intros i record rule Hrec Hrule.
      replace (S k + i) with (k + S i) by lia. now apply Heval.
    + intros i record Hrec.
      replace (S k + i) with (k + S i) by lia. now apply Hai.
Qed.

End TwoCalls.

(** C9, as the code has it.  Two calls of [validateBatch] on the same
    batch, with the same rules and the same registry, in which every rule
    evaluates alike on every record and the completion service returns the
    same findings, both throw or return arrays that are equal in every
    field but [validatedAt]. *)
Theorem validateBatch_repeatable_but_for_stamps :
  forall (host : JsHost) (env1 env2 : Env) (rules : RuleMap)
         (records : list JsObj) (dataType : DataTypeKey),
    registry env1 = registry env2 ->
    (forall i record rule,
       nth_error records i = Some record ->
       In rule (getRules rules (keyName dataType)) ->
       evalJs env1 i (rule_condition rule)
         (getFieldValue record (rule_field rule)) record
       = evalJs env2 i (rule_condition rule)
           (getFieldValue record (rule_field rule)) record) ->
    (forall i record, nth_error records i = Some record ->
       completion env1 i record (keyName dataType)
       = completion env2 i record (keyName dataType)) ->
    option_map (map eraseStamp) (validateBatch env1 rules records dataType)
    = option_map (map eraseStamp) (validateBatch env2 rules records dataType).
Proof.
  intros host env1 env2 rules records dataType Hreg Heval Hai.
  pose proof (validateRecordsFrom_sameButStamp env1 env2 rules records dataType 0
                Heval Hai) as Hper.
  pose proof (initialResultsFrom_sameButStamp env1 env2 records (keyName dataType) 0)
    as Hinit.
  unfold validateBatch, performCrossRecordValidation, initialResults.
  destruct env1 as [reg1 eval1 ai1 rs1 cs1], env2 as [reg2 eval2 ai2 rs2 cs2].
  simpl in Hreg. subst reg2.
  pose proof (crossRecordBody_oblivious reg1 eval1 eval2 ai1 ai2 rs1 rs2 cs1 cs2
                records (keyName dataType) _ _ Hinit) as Hbody.
  unfold alike in Hbody.
  destruct (crossRecordBody _ records (keyName dataType)
              (initialResultsFrom _ records (keyName dataType) 0)) as [[] c1|c1],
           (crossRecordBody _ records (keyName dataType)
              (initialResultsFrom _ records (keyName dataType) 0)) as [[] c2|c2];
    simpl; try tauto.
  rewrite !mergeFrom_zip.
  f_equal. apply sameButStamp_map. apply mergeZip_sameButStamp; tauto.
Qed.

(** The theorem of C9 on two calls one second apart. *)
Lemma validateBatch_repeatable_but_for_stamps_witness :
  registry (envAt (Some registry0)) = registry (envLater (Some registry0))
  /\ option_map (map eraseStamp)
       (validateBatch (envAt (Some registry0)) defaultRules [taskPlain] tasks)
     = option_map (map eraseStamp)
         (validateBatch (envLater (Some registry0)) defaultRules [taskPlain] tasks).
Proof.
  split; [reflexivity|].
  apply (validateBatch_repeatable_but_for_stamps decimalHost
           (envAt (Some registry0)) (envLater (Some registry0)) defaultRules
           [taskPlain] tasks eq_refl).
  - intros [|[|i]] record rule Hrec Hrule; try discriminate.
    injection Hrec as <-.
    repeat (destruct Hrule as [<-|Hrule]; [reflexivity|]). destruct Hrule.
  - intros i record _. reflexivity.
Defined.

(** C9, as stated, fails: one second later, with the batch, the rules and
    the registry unchanged, the results differ in [validatedAt]. *)
Lemma validateBatch_stamps_differ :
  registry (envAt (Some registry0)) = registry (envLater (Some registry0))
  /\ validateBatch (envAt (Some registry0)) defaultRules [taskPlain] tasks
     <> validateBatch (envLater (Some registry0)) defaultRules [taskPlain] tasks
  /\ option_map (map validatedAt)
       (validateBatch (envAt (Some registry0)) defaultRules [taskPlain] tasks)
     = Some [stamp0]
  /\ option_map (map validatedAt)
       (validateBatch (envLater (Some registry0)) defaultRules [taskPlain] tasks)
     = Some [stamp1].
Proof.
  split; [reflexivity|]. split; [|split; vm_compute; reflexivity].
  intros H. apply (f_equal (option_map (map validatedAt))) in H.
  vm_compute in H. discriminate.
Qed.

(* ================================================================== *)
(** ** The validation report *)
(* ================================================================== *)

Section ReportLemmas.
Import Report.

Lemma inList_In s l : inList s l = true <-> In s l.
Proof.
  unfold inList. rewrite existsb_exists. split.
  - intros (x & Hx & E). apply String.eqb_eq in E. now subst.
  - intros H. exists s. split; auto. apply String.eqb_refl.
Qed.

Lemma inList_false s l : inList s l = false <-> ~ In s l.
Proof.
  rewrite <- inList_In. destruct (inList s l); split; congruence.
Qed.

(** *** Counting *)

Lemma countIssue_messages m issue :
  map issue_message (countIssue m issue)
  = if inList (err_message issue) (map issue_message m)
    then map issue_message m
    else map issue_message m ++ [err_message issue].
Proof.
  induction m as [|e m IH]; simpl; auto.
  rewrite (String.eqb_sym (err_message issue)).
  destruct (String.eqb (issue_message e) (err_message issue)); simpl; auto.
  rewrite IH. now destruct (inList _ _).
Qed.

Lemma countIssue_countUnder m issue message :
  countUnder message (countIssue m issue)
  = countUnder message m + (if String.eqb (err_message issue) message then 1 else 0).
Proof.
  induction m as [|e m IH]; simpl.
  - destruct (String.eqb _ _); lia.
  - destruct (String.eqb (issue_message e) (err_message issue)) eqn:E; simpl.
    + apply String.eqb_eq in E. rewrite <- E.
      destruct (String.eqb (issue_message e) message); lia.
    + rewrite IH. lia.
Qed.

Lemma countIssue_positive m issue :
  Forall (fun e => 1 <= issue_count e) m ->
  Forall (fun e => 1 <= issue_count e) (countIssue m issue).
Proof.
  induction 1 as [|e m He Hm IH]; simpl.
  - repeat constructor.
  - destruct (String.eqb _ _); constructor; simpl; auto.
Qed.

Lemma countIssue_total m issue : totalCount (countIssue m issue) = S (totalCount m).
Proof.
  induction m as [|e m IH]; simpl; auto.
  destruct (String.eqb _ _); simpl; lia.
Qed.

Lemma countIssue_NoDup m issue :
  NoDup (map issue_message m) -> NoDup (map issue_message (countIssue m issue)).
Proof.
  intros H. rewrite countIssue_messages.
  destruct (inList _ _) eqn:E; auto.
  apply inList_false in E.
  apply NoDup_app; auto.
  - repeat constructor. intros [].
  - intros x Hx [<-|[]]. contradiction.
Qed.

Lemma firstOccurrences_seen seen seen' messages :
  (forall m, In m seen <-> In m seen') ->
  firstOccurrences seen messages = firstOccurrences seen' messages.
Proof.
  revert seen seen'; induction messages as [|m rest IH]; intros seen seen' H; simpl; auto.
  assert (E : inList m seen = inList m seen').
  { destruct (inList m seen) eqn:E1, (inList m seen') eqn:E2; auto.
    - apply inList_In in E1. apply inList_false in E2. now apply H in E1.
    - apply inList_false in E1. apply inList_In in E2. now apply H in E2. }
  rewrite E. destruct (inList m seen'); [now apply IH|].
  f_equal. apply IH. intros x; simpl. now rewrite H.
Qed.

Lemma fold_countIssue issues m :
  let m' := fold_left countIssue issues m in
  map issue_message m'
  = map issue_message m
    ++ firstOccurrences (map issue_message m) (map err_message issues)
  /\ (forall message, countUnder message m' = countUnder message m + countOf message issues)
  /\ totalCount m' = totalCount m + List.length issues
  /\ (Forall (fun e => 1 <= issue_count e) m ->
      Forall (fun e => 1 <= issue_count e) m')
  /\ (NoDup (map issue_message m) -> NoDup (map issue_message m')).
Proof.
  revert m; induction issues as [|issue issues IH]; intros m; simpl.
  - rewrite app_nil_r. repeat split; auto.
  - destruct (IH (countIssue m issue)) as (Hmsg & Hcount & Htotal & Hpos & Hnd).
    split; [|split; [|split; [|split]]].
    + rewrite Hmsg, countIssue_messages.
      destruct (inList (err_message issue) (map issue_message m)) eqn:E; auto.
      rewrite <- app_assoc. simpl. do 2 f_equal.
      apply firstOccurrences_seen. intros x. rewrite in_app_iff. simpl. tauto.
    + intros message. rewrite Hcount, countIssue_countUnder. unfold countOf. simpl.
      destruct (String.eqb (err_message issue) message); simpl; lia.
    + rewrite Htotal, countIssue_total. lia.
    + intros H. now apply Hpos, countIssue_positive.
    + intros H. now apply Hnd, countIssue_NoDup.
Qed.

Lemma countUnder_absent message m :
  ~ In message (map issue_message m) -> countUnder message m = 0.
Proof.
  induction m as [|e m IH]; simpl; auto. intros H.
  destruct (String.eqb (issue_message e) message) eqn:E.
  - apply String.eqb_eq in E. tauto.
  - rewrite IH; tauto.
Qed.

Lemma countUnder_entry m e :
  NoDup (map issue_message m) -> In e m ->
  countUnder (issue_message e) m = issue_count e.
Proof.
  induction m as [|e0 m IH]; simpl; [tauto|].
  intros Hnd [<-|Hin]; inversion Hnd as [|? ? Hnotin Hnd']; subst.
  - rewrite String.eqb_refl, countUnder_absent; auto.
  - destruct (String.eqb (issue_message e0) (issue_message e)) eqn:E.
    + apply String.eqb_eq in E. exfalso. apply Hnotin. rewrite E.
      now apply in_map.
    + now rewrite IH.
Qed.

Lemma countUnder_positive_In message m :
  1 <= countUnder message m -> In message (map issue_message m).
Proof.
  intros H. destruct (in_dec string_dec message (map issue_message m)); auto.
  rewrite countUnder_absent in H; auto. lia.
Qed.

(** The map of the issues: one entry per message, in the order of the
    first occurrences, with the number of occurrences. *)
Lemma issueMapOf_spec results :
  map issue_message (issueMapOf results)
  = firstOccurrences [] (map err_message (issuesOf results))
  /\ NoDup (map issue_message (issueMapOf results))
  /\ (forall e, In e (issueMapOf results) ->
        1 <= issue_count e
        /\ issue_count e = occurrences (issue_message e) results)
  /\ (forall message, 1 <= occurrences message results ->
        In message (map issue_message (issueMapOf results)))
  /\ totalCount (issueMapOf results) = List.length (issuesOf results).
Proof.
  unfold issueMapOf, occurrences.
  destruct (fold_countIssue (issuesOf results) [])
    as (Hmsg & Hcount & Htotal & Hpos & Hnd).
  simpl in *. pose proof (Hnd (NoDup_nil _)) as Hnd'.
  pose proof (Hpos (Forall_nil _)) as Hpos'. rewrite Forall_forall in Hpos'.
  repeat split; auto.
  - rewrite <- Hcount. symmetry. now apply countUnder_entry.
  - intros message H. apply countUnder_positive_In. now rewrite Hcount.
Qed.

(** *** Sorting *)

Lemma insertIssue_perm x l : Permutation.Permutation (insertIssue x l) (x :: l).
Proof.
  induction l as [|y l IH]; simpl; auto.
  destruct (Nat.ltb _ _); auto.
  rewrite IH. apply Permutation.perm_swap.
Qed.

Lemma insertIssue_sorted x l :
  StronglySorted byCount l -> StronglySorted byCount (insertIssue x l).
Proof.
  induction 1 as [|y l Hl IH Hy]; simpl.
  - repeat constructor.
  - destruct (Nat.ltb_spec (issue_count y) (issue_count x)).
    + constructor; [constructor; auto|].
      constructor; [unfold byCount; lia|].
      rewrite Forall_forall in *. intros z Hz. specialize (Hy z Hz).
      unfold byCount in *. lia.
    + constructor; auto.
      rewrite Forall_forall in *. intros z Hz.
      apply (Permutation.Permutation_in _ (insertIssue_perm x l)) in Hz.
      destruct Hz as [<-|Hz]; [exact H|auto].
Qed.

Lemma filter_hasCount_below c l :
  Forall (fun z => issue_count z < c) l -> filter (hasCount c) l = [].
Proof.
  induction 1 as [|z l Hz Hl IH]; simpl; auto.
  unfold hasCount at 1. destruct (Nat.eqb_spec (issue_count z) c); [lia|auto].
Qed.

Lemma insertIssue_filter c x l :
  StronglySorted byCount l ->
  filter (hasCount c) (insertIssue x l)
  = filter (hasCount c) l ++ (if hasCount c x then [x] else []).
Proof.
  induction 1 as [|y l Hl IH Hy]; [simpl; now destruct (hasCount c x)|].
  cbn [insertIssue].
  destruct (Nat.ltb_spec (issue_count y) (issue_count x)) as [Hlt|Hge].
  - cbn [filter]. destruct (hasCount c x) eqn:Ex; [|now rewrite app_nil_r].
    apply Nat.eqb_eq in Ex.
    assert (E : filter (hasCount c) (y :: l) = []).
    { apply filter_hasCount_below. constructor; [lia|].
      rewrite Forall_forall in *. intros z Hz. specialize (Hy z Hz).
      unfold byCount in Hy. lia. }
    cbn [filter] in E. now rewrite E.
  - cbn [filter]. rewrite IH. now destruct (hasCount c y).
Qed.

Lemma sortIssues_fold issues acc :
  StronglySorted byCount acc ->
  let sorted := fold_left (fun sorted x => insertIssue x sorted) issues acc in
  StronglySorted byCount sorted
  /\ Permutation.Permutation sorted (acc ++ issues)
  /\ (forall c, filter (hasCount c) sorted
               = filter (hasCount c) acc ++ filter (hasCount c) issues).
Proof.
  revert acc; induction issues as [|x issues IH]; intros acc Hacc; simpl.
  - rewrite app_nil_r. repeat split; auto. intros c. now rewrite app_nil_r.
  - destruct (IH (insertIssue x acc) (insertIssue_sorted x acc Hacc))
      as (Hs & Hp & Hf).
    repeat split; auto.
    + rewrite Hp, insertIssue_perm. simpl. apply Permutation_middle.
    + intros c. rewrite Hf, insertIssue_filter by assumption.
      rewrite <- app_assoc. now destruct (hasCount c x).
Qed.

Lemma sortIssues_spec issues :
  StronglySorted byCount (sortIssues issues)
  /\ Permutation.Permutation (sortIssues issues) issues
  /\ (forall c, filter (hasCount c) (sortIssues issues) = filter (hasCount c) issues).
Proof.
  exact (sortIssues_fold issues [] (SSorted_nil _)).
Qed.

End ReportLemmas.

Section ReportTheorems.
Import Report.

Lemma StronglySorted_app_cross {A : Type} (R : A -> A -> Prop) (l1 l2 : list A) :
  StronglySorted R (l1 ++ l2) ->
  StronglySorted R l1 /\ forall a b, In a l1 -> In b l2 -> R a b.
Proof.
  induction l1 as [|x l1 IH]; simpl; intros H.
  - split; [constructor | intros a b []].
  - inversion H as [|? ? Hs Hx]; subst. destruct (IH Hs) as (Hs1 & Hcross).
    rewrite Forall_forall in Hx. split.
    + constructor; auto. rewrite Forall_forall. intros y Hy. apply Hx.
      apply in_or_app. now left.
    + intros a b [<-|Ha] Hb; auto. apply Hx. apply in_or_app. now right.
Qed.

Lemma In_firstn {A : Type} (n : nat) (l : list A) (x : A) :
  In x (firstn n l) -> In x l.
Proof.
  intros H. rewrite <- (firstn_skipn n l). apply in_or_app. now left.
Qed.

Lemma NoDup_firstn {A : Type} (n : nat) (l : list A) : NoDup l -> NoDup (firstn n l).
Proof.
  revert n; induction l as [|x l IH]; intros [|n] H; simpl; try constructor.
  - inversion H; subst. intros Hin. apply In_firstn in Hin. contradiction.
  - inversion H; subst. now apply IH.
Qed.

Lemma totalCount_perm l l' : Permutation l l' -> totalCount l = totalCount l'.
Proof. induction 1; simpl; lia. Qed.

Lemma totalCount_firstn n l : totalCount (firstn n l) <= totalCount l.
Proof.
  revert n; induction l as [|x l IH]; intros [|n]; simpl; try lia.
  specialize (IH n). lia.
Qed.

Lemma issue_counts_sum results :
  errorCount (summaryOf results) + warningCount (summaryOf results)
  = List.length (issuesOf results).
Proof.
  unfold summaryOf, issuesOf; simpl.
  assert (H : forall a b,
             fold_left (fun sum r => sum + List.length (errors r)) results a
             + fold_left (fun sum r => sum + List.length (warnings r)) results b
             = a + b + List.length
                         (flat_map (fun result => errors result ++ warnings result)
                                   results)).
  { induction results as [|r rs IH]; intros a b; simpl; [lia|].
    rewrite IH, !length_app. lia. }
  apply (H 0 0).
Qed.

End ReportTheorems.

(** X1.  The top issues of a report are at most ten, by counts that do
    not go up; they have distinct messages, each counted as often as it
    occurs among the errors and warnings of the results; and a message that
    occurs and is not among them occurs no more often than any of the
    ten. *)
Theorem topIssues_are_the_most_frequent :
  forall (advice : option (list string)) (results : list ValidationResult),
    let top := Report.topIssues (Report.generateValidationReport advice results) in
    List.length top <= 10
    /\ StronglySorted byCount top
    /\ NoDup (map Report.issue_message top)
    /\ (forall e, In e top ->
          1 <= Report.issue_count e
          /\ Report.issue_count e = occurrences (Report.issue_message e) results)
    /\ (forall message, 1 <= occurrences message results ->
          In message (map Report.issue_message top)
          \/ (List.length top = 10
              /\ forall e, In e top ->
                   occurrences message results <= Report.issue_count e)).
Proof.
  intros advice results top. subst top. simpl. unfold Report.topIssuesOf.
  destruct (issueMapOf_spec results) as (_ & Hnd & Hcount & Hall & _).
  destruct (sortIssues_spec (Report.issueMapOf results)) as (Hsorted & Hperm & _).
  set (sorted := Report.sortIssues (Report.issueMapOf results)) in *.
  rewrite <- (firstn_skipn 10 sorted) in Hsorted.
  destruct (StronglySorted_app_cross _ _ _ Hsorted) as (Hs1 & Hcross).
  split; [apply firstn_le_length|]. split; [exact Hs1|]. split; [|split].
  - rewrite <- firstn_map. apply NoDup_firstn.
    eapply Permutation_NoDup; [|exact Hnd].
    apply Permutation_map. now symmetry.
  - intros e He. apply Hcount. apply (Permutation_in _ Hperm).
    now apply In_firstn in He.
  - intros message Hocc.
    specialize (Hall message Hocc). apply in_map_iff in Hall as (e & <- & He).
    apply (Permutation_in _ (Permutation_sym Hperm)) in He.
    rewrite <- (firstn_skipn 10 sorted) in He. apply in_app_or in He as [He|He].
    + left. now apply in_map.
    + right. split.
      * apply firstn_length_le.
        destruct (Nat.le_gt_cases 10 (List.length sorted)) as [|Hlt]; auto.
        rewrite skipn_all2 in He by lia. destruct He.
      * intros e' He'. specialize (Hcross e' e He' He). unfold byCount in Hcross.
        assert (Hin : In e (Report.issueMapOf results)).
        { apply (Permutation_in _ Hperm).
          rewrite <- (firstn_skipn 10 sorted). apply in_or_app. now right. }
        destruct (Hcount e Hin) as (_ & <-). exact Hcross.
Qed.

(** X2.  Issues that occur equally often stay in the order in which their
    messages first occur in the results: the sorted issues (of which the
    top issues are the first ten) that have a given count are the first
    occurrences of the messages with that many occurrences. *)
Theorem topIssues_ties_in_encounter_order :
  forall (results : list ValidationResult) (c : nat),
    Report.topIssuesOf results
    = firstn 10 (Report.sortIssues (Report.issueMapOf results))
    /\ map Report.issue_message
         (filter (hasCount c) (Report.sortIssues (Report.issueMapOf results)))
       = filter (fun message => Nat.eqb (occurrences message results) c)
           (firstOccurrences [] (map err_message (Report.issuesOf results))).
Proof.
  intros results c. split; [reflexivity|].
  destruct (issueMapOf_spec results) as (Hmsg & _ & Hcount & _ & _).
  destruct (sortIssues_spec (Report.issueMapOf results)) as (_ & _ & Hf).
  rewrite Hf, <- Hmsg. clear Hf Hmsg.
  induction (Report.issueMapOf results) as [|e m IH]; simpl; auto.
  assert (He : hasCount c e
               = Nat.eqb (occurrences (Report.issue_message e) results) c).
  { unfold hasCount. destruct (Hcount e (or_introl eq_refl)) as (_ & ->).
    reflexivity. }
  rewrite <- He. destruct (hasCount c e); simpl; rewrite IH; auto;
    intros e' He'; apply Hcount; now right.
Qed.

(** X3.  The counts of the top issues add up to no more than the errors
    and warnings of the summary, and to exactly that many when the issues
    have at most ten distinct messages; there is no top issue exactly when
    the summary counts no error and no warning. *)
Theorem report_counts_agree :
  forall (advice : option (list string)) (results : list ValidationResult),
    let report := Report.generateValidationReport advice results in
    let issues := Report.errorCount (Report.summary report)
                  + Report.warningCount (Report.summary report) in
    totalCount (Report.topIssues report) <= issues
    /\ (List.length (firstOccurrences [] (map err_message (Report.issuesOf results)))
        <= 10 ->
        totalCount (Report.topIssues report) = issues)
    /\ (Report.topIssues report = [] <-> issues = 0).
Proof.
  intros advice results report issues. subst report issues.
  unfold Report.generateValidationReport. cbn [Report.summary Report.topIssues].
  rewrite issue_counts_sum. unfold Report.topIssuesOf.
  destruct (issueMapOf_spec results) as (Hmsg & _ & _ & _ & Htotal).
  destruct (sortIssues_spec (Report.issueMapOf results)) as (_ & Hperm & _).
  rewrite <- Htotal, <- (totalCount_perm _ _ Hperm).
  split; [apply totalCount_firstn|]. split.
  - intros Hlen. rewrite firstn_all2; auto.
    rewrite (Permutation_length Hperm), <- (length_map Report.issue_message), Hmsg.
    exact Hlen.
  - rewrite (totalCount_perm _ _ Hperm), Htotal.
    assert (Hlen : List.length (Report.sortIssues (Report.issueMapOf results))
                   = List.length (firstOccurrences []
                                    (map err_message (Report.issuesOf results)))).
    { now rewrite (Permutation_length Hperm), <- (length_map Report.issue_message),
        Hmsg. }
    destruct (Report.issuesOf results) as [|issue rest]; simpl in *.
    + destruct (Report.sortIssues _); [tauto|discriminate].
    + destruct (Report.sortIssues _); [discriminate|].
      split; [discriminate|lia].
Qed.

Section AverageScore.
Import Report.

Lemma add_NaN_r a : add a NaN = NaN.
Proof. now destruct a. Qed.

Lemma fold_add_NaN results : fold_left (fun sum r => add sum (score r)) results NaN = NaN.
Proof. induction results as [|r rs IH]; simpl; auto. Qed.

Lemma fold_add_with_NaN results acc :
  Exists (fun r => score r = NaN) results ->
  fold_left (fun sum r => add sum (score r)) results acc = NaN.
Proof.
  intros H; revert acc; induction H as [r rs Hr|r rs Hrs IH]; intros acc; simpl.
  - rewrite Hr, add_NaN_r. apply fold_add_NaN.
  - apply IH.
Qed.

Lemma fold_add_bounded results a :
  (0 <= a)%Q ->
  Forall (fun r => exists q, score r = Fin q /\ (0 <= q <= 100)%Q) results ->
  exists s,
    fold_left (fun sum r => add sum (score r)) results (Fin a) = Fin s
    /\ (0 <= s <= a + 100 * inject_Z (Z.of_nat (List.length results)))%Q.
Proof.
  intros Ha H; revert a Ha; induction H as [|r rs (q & Hq & Hq0 & Hq100) Hrs IH];
    intros a Ha.
  - exists a. simpl. split; auto. split; auto.
    change (inject_Z (Z.of_nat 0)) with 0%Q. rewrite Qmult_0_r, Qplus_0_r.
    apply Qle_refl.
  - cbn [fold_left]. rewrite Hq. cbn [add].
    assert (Ha' : (0 <= Qred (a + q))%Q).
    { rewrite Qred_correct. rewrite <- (Qplus_0_r 0). now apply Qplus_le_compat. }
    destruct (IH _ Ha') as (s & Hs & Hs0 & Hs1). exists s. split; auto. split; auto.
    eapply Qle_trans; [exact Hs1|].
    rewrite Qred_correct. cbn [List.length]. rewrite Nat2Z.inj_succ.
    unfold Z.succ. rewrite inject_Z_plus. change (inject_Z 1) with 1%Q.
    setoid_replace (a + 100 * (inject_Z (Z.of_nat (List.length rs)) + 1))%Q
      with (a + 100 + 100 * inject_Z (Z.of_nat (List.length rs)))%Q by ring.
    apply Qplus_le_compat; [|apply Qle_refl].
    apply Qplus_le_compat; [apply Qle_refl|exact Hq100].
Qed.

End AverageScore.

(** X4.  The average score of a report is not a number when there is no
    result, and when the score of some result is not a number; when there
    are results and every score is a number between 0 and 100, so is the
    average. *)
Theorem averageScore_bounds :
  forall (advice : option (list string)) (results : list ValidationResult),
    let average :=
      Report.averageScore (Report.summary (Report.generateValidationReport advice results)) in
    (results = [] -> average = NaN)
    /\ (Exists (fun r => score r = NaN) results -> average = NaN)
    /\ (results <> [] ->
        Forall (fun r => exists q, score r = Fin q /\ (0 <= q <= 100)%Q) results ->
        exists q, average = Fin q /\ (0 <= q <= 100)%Q).
Proof.
  intros advice results average. subst average.
  unfold Report.generateValidationReport, Report.summaryOf.
  cbn [Report.summary Report.averageScore]. unfold Report.averageOf.
  split; [|split].
  - intros ->. reflexivity.
  - intros H. now rewrite (fold_add_with_NaN results _ H).
  - intros Hne Hall.
    destruct (fold_add_bounded results 0 (Qle_refl 0) Hall) as (s & Hs & Hs0 & Hs1).
    change (ofNat 0) with (Fin 0). rewrite Hs.
    assert (Hn : (0 < Z.of_nat (List.length results))%Z).
    { destruct results; [congruence|simpl; lia]. }
    unfold div, ofNat, ofZ, Qsign. cbn [Qnum inject_Z].
    destruct (Z.compare_spec (Z.of_nat (List.length results)) 0) as [E|E|E]; try lia.
    eexists. split; [reflexivity|]. rewrite Qred_correct.
    assert (Hpos : (0 < inject_Z (Z.of_nat (List.length results)))%Q).
    { unfold Qlt. simpl. lia. }
    split.
    + apply Qle_shift_div_l; [exact Hpos|]. rewrite Qmult_0_l. exact Hs0.
    + apply Qle_shift_div_r; [exact Hpos|]. rewrite Qplus_0_l in Hs1. exact Hs1.
Qed.

(* ================================================================== *)
(** ** The rule catalogue: [addRule], [removeRule], [getRules] *)
(* ================================================================== *)

Section RuleCatalogue.

Lemma mapGet_addRule (dataType : string) (rule : ValidationRule) (rules : RuleMap)
  (k : string) :
  mapGet (addRule dataType rule rules) k
  = if String.eqb k dataType then Some (getRules rules dataType ++ [rule])
    else mapGet rules k.
Proof.
  unfold getRules. induction rules as [|[k' l] rest IH]; cbn [addRule mapGet].
  - rewrite String.eqb_sym. destruct (String.eqb k dataType); reflexivity.
  - destruct (String.eqb k' dataType) eqn:E; cbn [mapGet].
    + apply String.eqb_eq in E; subst k'. rewrite (String.eqb_sym dataType k).
      destruct (String.eqb k dataType); reflexivity.
    + destruct (String.eqb k' k) eqn:E2.
      * apply String.eqb_eq in E2; subst k'. now rewrite E.
      * exact IH.
Qed.

Lemma getRules_addRule (dataType : string) (rule : ValidationRule) (rules : RuleMap)
  (k : string) :
  getRules (addRule dataType rule rules) k
  = if String.eqb k dataType then getRules rules dataType ++ [rule]
    else getRules rules k.
Proof.
  unfold getRules at 1. rewrite mapGet_addRule.
  destruct (String.eqb k dataType); reflexivity.
Qed.

Lemma mapGet_removeRule (dataType ruleId : string) (rules : RuleMap) (k : string) :
  mapGet (removeRule dataType ruleId rules) k
  = if String.eqb k dataType
    then option_map (spliceFirst ruleId) (mapGet rules dataType)
    else mapGet rules k.
Proof.
  induction rules as [|[k' l] rest IH]; cbn [removeRule mapGet].
  - destruct (String.eqb k dataType); reflexivity.
  - destruct (String.eqb k' dataType) eqn:E; cbn [mapGet].
    + apply String.eqb_eq in E; subst k'. rewrite (String.eqb_sym dataType k).
      destruct (String.eqb k dataType); reflexivity.
    + destruct (String.eqb k' k) eqn:E2.
      * apply String.eqb_eq in E2; subst k'. now rewrite E.
      * exact IH.
Qed.

Lemma getRules_removeRule (dataType ruleId : string) (rules : RuleMap) (k : string) :
  getRules (removeRule dataType ruleId rules) k
  = if String.eqb k dataType then spliceFirst ruleId (getRules rules dataType)
    else getRules rules k.
Proof.
  unfold getRules. rewrite mapGet_removeRule.
  destruct (String.eqb k dataType); [|reflexivity].
  destruct (mapGet rules dataType); reflexivity.
Qed.

Lemma spliceFirst_match (ruleId : string) (before after : list ValidationRule)
  (rule : ValidationRule) :
  Forall (fun r => rule_id r <> ruleId) before ->
  rule_id rule = ruleId ->
  spliceFirst ruleId (before ++ rule :: after) = before ++ after.
Proof.
  intros Hb Hr. induction Hb as [|r rs Hr' _ IH]; cbn [spliceFirst app].
  - apply String.eqb_eq in Hr. now rewrite Hr.
  - apply String.eqb_neq in Hr'. rewrite Hr'. now rewrite IH.
Qed.

Lemma spliceFirst_absent (ruleId : string) (l : list ValidationRule) :
  Forall (fun r => rule_id r <> ruleId) l -> spliceFirst ruleId l = l.
Proof.
  intros H. induction H as [|r rs Hr _ IH]; cbn [spliceFirst]; [reflexivity|].
  apply String.eqb_neq in Hr. now rewrite Hr, IH.
Qed.

End RuleCatalogue.

(** X5.  After [addRule] the rules of that data type are the former ones
    followed by the new rule, whether the data type had rules or not; the
    rules of every other data type are as before. *)
Theorem addRule_appends_to_its_data_type :
  forall (dataType other : string) (rule : ValidationRule) (rules : RuleMap),
    getRules (addRule dataType rule rules) dataType = getRules rules dataType ++ [rule]
    /\ (other <> dataType ->
        getRules (addRule dataType rule rules) other = getRules rules other).
Proof.
  intros dataType other rule rules. rewrite !getRules_addRule, String.eqb_refl.
  split; [reflexivity|]. intros Hne. apply String.eqb_neq in Hne. now rewrite Hne.
Qed.

(** X6.  [validateRecord] applies a rule added with [addRule] after the
    rules its data type had: when the condition of the new rule holds on
    the record, or throws, the result is the one without the rule; when it
    does not hold and the rule has severity error, the result is invalid
    and its errors are those of the former rules, the error of the new rule,
    and those of the completion service, in this order.  Records of the
    other data types are validated as before. *)
Theorem added_rule_is_applied_last :
  forall (host : JsHost) (env : Env) (rules : RuleMap) (call : nat)
         (record : JsObj) (dataType other : DataTypeKey) (rule : ValidationRule),
    let rules' := addRule (keyName dataType) rule rules in
    let holds :=
      truthy (evaluateCondition env call (rule_condition rule)
                (getFieldValue record (rule_field rule)) record) in
    let former := applyRules env call record (getRules rules (keyName dataType)) in
    (holds = true ->
     validateRecord env rules' call record dataType
     = validateRecord env rules call record dataType)
    /\ (holds = false -> rule_severity rule = SevError ->
        isValid (validateRecord env rules' call record dataType) = false
        /\ errors (validateRecord env rules' call record dataType)
           = f_errors former ++ [ruleError rule]
             ++ ai_errors (completion env call record (keyName dataType)))
    /\ (other <> dataType ->
        validateRecord env rules' call record other
        = validateRecord env rules call record other).
Proof.
  intros host env rules call record dataType other rule rules' holds former.
  assert (Happ : applyRules env call record (getRules rules' (keyName dataType))
                 = applyRule env call record former rule).
  { unfold rules', former. rewrite getRules_addRule, String.eqb_refl.
    unfold applyRules. now rewrite fold_left_app. }
  split; [|split].
  - intros Hh. unfold validateRecord. cbv zeta. rewrite Happ.
    unfold applyRule. fold holds. rewrite Hh. reflexivity.
  - intros Hh Hsev. unfold validateRecord. cbv zeta. rewrite Happ.
    unfold applyRule. fold holds. rewrite Hh, Hsev.
    cbn [negb f_errors isValid errors]. unfold performAIValidation.
    split.
    + rewrite !length_app. cbn [List.length]. apply Nat.eqb_neq. lia.
    + now rewrite <- app_assoc.
  - intros Hne. unfold validateRecord. cbv zeta. unfold rules'.
    rewrite getRules_addRule.
    assert (Hk : String.eqb (keyName other) (keyName dataType) = false).
    { apply String.eqb_neq. intros Hk. apply Hne.
      destruct other, dataType; try reflexivity; discriminate Hk. }
    now rewrite Hk.
Qed.

(** X7.  [removeRule] takes out of the rules of the data type the first
    rule that has the id, and only that one: rules after it stay, also
    those with the same id, and so do the rules of the other data types. *)
Theorem removeRule_splices_first_match :
  forall (dataType ruleId other : string) (rules : RuleMap)
         (before after : list ValidationRule) (rule : ValidationRule),
    getRules rules dataType = before ++ rule :: after ->
    Forall (fun r => rule_id r <> ruleId) before ->
    rule_id rule = ruleId ->
    getRules (removeRule dataType ruleId rules) dataType = before ++ after
    /\ (other <> dataType ->
        getRules (removeRule dataType ruleId rules) other = getRules rules other).
Proof.
  intros dataType ruleId other rules before after rule Hrules Hbefore Hrule.
  rewrite !getRules_removeRule, String.eqb_refl. split.
  - rewrite Hrules. now apply spliceFirst_match.
  - intros Hne. apply String.eqb_neq in Hne. now rewrite Hne.
Qed.

Lemma removeRule_splices_first_match_witness :
  let workerRules := getRules defaultRules "workers" in
  getRules (removeRule "workers" "worker-email-format" defaultRules) "workers"
  = firstn 1 workerRules ++ skipn 2 workerRules
  /\ ("tasks" <> "workers" ->
      getRules (removeRule "workers" "worker-email-format" defaultRules) "tasks"
      = getRules defaultRules "tasks").
Proof.
  cbv zeta.
  apply (removeRule_splices_first_match "workers" "worker-email-format" "tasks"
           defaultRules (firstn 1 (getRules defaultRules "workers"))
           (skipn 2 (getRules defaultRules "workers"))
           (nth 1 (getRules defaultRules "workers")
                (mkRule "" "" "" TCustom "" "" SevInfo false None))).
  - reflexivity.
  - repeat constructor. discriminate.
  - reflexivity.
Defined.

(** X8.  [removeRule] with an id that no rule of the data type has, or
    with a data type that has no rules, changes the rules of no data
    type. *)
Theorem removeRule_unknown_id_changes_nothing :
  forall (dataType ruleId : string) (rules : RuleMap),
    Forall (fun r => rule_id r <> ruleId) (getRules rules dataType) ->
    forall other, getRules (removeRule dataType ruleId rules) other = getRules rules other.
Proof.
  intros dataType ruleId rules Habsent other. rewrite getRules_removeRule.
  destruct (String.eqb other dataType) eqn:E; [|reflexivity].
  apply String.eqb_eq in E; subst other. now apply spliceFirst_absent.
Qed.

Lemma removeRule_unknown_id_changes_nothing_witness :
  getRules (removeRule "clients" "client-email-format" defaultRules) "clients"
  = getRules defaultRules "clients"
  /\ getRules (removeRule "projects" "client-name-required" defaultRules) "clients"
     = getRules defaultRules "clients".
Proof.
  split.
  - apply (removeRule_unknown_id_changes_nothing "clients" "client-email-format"
             defaultRules).
    repeat constructor; discriminate.
  - apply (removeRule_unknown_id_changes_nothing "projects" "client-name-required"
             defaultRules).
    constructor.
Defined.

(** X9.  Removing a rule right after adding it, when no rule of the data
    type had its id, gives back the rules of every data type, and so every
    record is validated as before the two calls. *)
Theorem removeRule_undoes_addRule :
  forall (host : JsHost) (env : Env) (dataType : string) (rule : ValidationRule)
         (rules : RuleMap),
    Forall (fun r => rule_id r <> rule_id rule) (getRules rules dataType) ->
    let rules' := removeRule dataType (rule_id rule) (addRule dataType rule rules) in
    (forall other, getRules rules' other = getRules rules other)
    /\ (forall call record type,
          validateRecord env rules' call record type
          = validateRecord env rules call record type).
Proof.
  intros host env dataType rule rules Hfresh rules'.
  assert (Hget : forall other, getRules rules' other = getRules rules other).
  { intros other. unfold rules'. rewrite getRules_removeRule, !getRules_addRule.
    rewrite String.eqb_refl.
    destruct (String.eqb other dataType) eqn:E; [|reflexivity].
    apply String.eqb_eq in E; subst other.
    rewrite <- (app_nil_r (getRules rules dataType)) at 2.
    now apply spliceFirst_match. }
  split; [exact Hget|].
  intros call record type. unfold validateRecord. cbv zeta. now rewrite Hget.
Qed.

Lemma removeRule_undoes_addRule_witness :
  let rule := mkRule "task-owner-required" "Task Owner Required" "owner" TRequired
                condNonBlank "Task owner is required" SevError false None in
  let rules' := removeRule "tasks" (rule_id rule) (addRule "tasks" rule defaultRules) in
  (forall other, getRules rules' other = getRules defaultRules other)
  /\ (forall call record type,
        validateRecord (Demo.envAt None) rules' call record type
        = validateRecord (Demo.envAt None) defaultRules call record type).
Proof.
  cbv zeta.
  apply (removeRule_undoes_addRule Demo.decimalHost (Demo.envAt None) "tasks"
           (mkRule "task-owner-required" "Task Owner Required" "owner" TRequired
              condNonBlank "Task owner is required" SevError false None)
           defaultRules).
  repeat constructor; discriminate.
Defined.

(* ================================================================== *)
(** ** Strings and paths *)
(* ================================================================== *)

Section StringLemmas.

Lemma append_assoc (a b c : string) : ((a ++ b) ++ c = a ++ (b ++ c))%string.
Proof. induction a as [|x r IH]; cbn [append]; [reflexivity|now rewrite IH]. Qed.

Lemma append_nil_r (a : string) : (a ++ "")%string = a.
Proof. induction a as [|x r IH]; cbn [append]; [reflexivity|now rewrite IH]. Qed.

Lemma rev_string_acc (s acc : string) :
  rev_string s acc = (rev_string s "" ++ acc)%string.
Proof.
  revert acc. induction s as [|c r IH]; intros acc; cbn [rev_string].
  - reflexivity.
  - rewrite (IH (String c acc)), (IH (String c "")).
    rewrite append_assoc. reflexivity.
Qed.

Lemma rev_string_app (a b acc : string) :
  rev_string (a ++ b)%string acc = rev_string b (rev_string a acc).
Proof.
  revert acc. induction a as [|c r IH]; intros acc; cbn [append rev_string]; auto.
Qed.

Lemma rev_string_involutive (s acc : string) :
  rev_string (rev_string s acc) "" = (rev_string acc "" ++ s)%string.
Proof.
  revert acc. induction s as [|c r IH]; intros acc; cbn [rev_string].
  - now rewrite append_nil_r.
  - rewrite IH. cbn [rev_string]. rewrite (rev_string_acc acc (String c "")).
    rewrite append_assoc. reflexivity.
Qed.

Lemma prefix_char (c d : ascii) (r : string) :
  String.prefix (String c "") (String d r) = Ascii.eqb c d.
Proof.
  simpl. destruct (ascii_dec c d) as [->|Hne].
  - rewrite Ascii.eqb_refl. now destruct r.
  - symmetry. now apply Ascii.eqb_neq.
Qed.

Lemma splitDotAux_plain (s cur : string) :
  includes s "." = false ->
  splitDotAux s cur = [rev_string (rev_string s cur) ""].
Proof.
  revert cur. induction s as [|c r IH]; intros cur H; cbn [splitDotAux rev_string].
  - reflexivity.
  - cbn [includes] in H. apply orb_false_iff in H. destruct H as [Hc Hr].
    rewrite prefix_char, Ascii.eqb_sym in Hc. rewrite Hc. now apply IH.
Qed.

Lemma splitDotAux_app (a b cur : string) :
  splitDotAux (a ++ String "." b) cur = splitDotAux a cur ++ splitDot b.
Proof.
  revert cur. induction a as [|c r IH]; intros cur; cbn [append splitDotAux].
  - reflexivity.
  - destruct (Ascii.eqb c "."); [cbn [app]; f_equal|]; apply IH.
Qed.

Lemma fold_member_undefined (path : list string) :
  fold_left (fun obj key => member obj key) path VUndefined = VUndefined.
Proof. induction path as [|k ks IH]; cbn [fold_left member]; auto. Qed.

Lemma splitDot_cons (s : string) : exists key rest, splitDot s = key :: rest.
Proof.
  unfold splitDot. generalize EmptyString as cur.
  induction s as [|c r IH]; intros cur; cbn [splitDotAux].
  - eauto.
  - destruct (Ascii.eqb c "."); eauto.
Qed.

End StringLemmas.

(** X10.  [getFieldValue] reads a field name without a dot as the property
    of that name, and a path [parent.key] as the member [key] of what the
    path [parent] gives; where a path gives [undefined] or [null], every
    longer path gives [undefined]: a missing parent does not throw. *)
Theorem getFieldValue_follows_the_path :
  forall (record : JsObj) (field parent key rest : string),
    (includes field "." = false -> getFieldValue record field = getProp record field)
    /\ (includes key "." = false ->
        getFieldValue record (parent ++ "." ++ key)
        = member (getFieldValue record parent) key)
    /\ (getFieldValue record parent = VUndefined
        \/ getFieldValue record parent = VNull ->
        getFieldValue record (parent ++ "." ++ rest) = VUndefined).
Proof.
  intros record field parent key rest.
  assert (Hpath : forall tail,
             getFieldValue record (parent ++ "." ++ tail)
             = fold_left (fun obj key => member obj key) (splitDot tail)
                 (getFieldValue record parent)).
  { intros tail. unfold getFieldValue, splitDot at 1.
    change (parent ++ "." ++ tail)%string with (parent ++ String "." tail)%string.
    now rewrite splitDotAux_app, fold_left_app. }
  split; [|split].
  - intros H. unfold getFieldValue, splitDot. rewrite (splitDotAux_plain _ _ H).
    rewrite rev_string_involutive. reflexivity.
  - intros H. rewrite Hpath. unfold splitDot. rewrite (splitDotAux_plain _ _ H).
    rewrite rev_string_involutive. reflexivity.
  - intros Hmissing. rewrite Hpath.
    destruct (splitDot_cons rest) as (k & ks & ->). cbn [fold_left].
    destruct Hmissing as [-> | ->]; cbn [member]; apply fold_member_undefined.
Qed.

Lemma getFieldValue_follows_the_path_witness :
  let record := [("name", VStr "Asha"); ("address", VObj [("city", VStr "Pune")])] in
  getFieldValue record "name" = getProp record "name"
  /\ getFieldValue record "address.city" = member (getFieldValue record "address") "city"
  /\ getFieldValue record "phone.area.code" = VUndefined.
Proof.
  cbv zeta.
  pose (record := [("name", VStr "Asha"); ("address", VObj [("city", VStr "Pune")])]).
  split; [|split].
  - apply (proj1 (getFieldValue_follows_the_path record "name" "" "" "")).
    reflexivity.
  - apply (proj1 (proj2 (getFieldValue_follows_the_path record "" "address" "city" ""))).
    reflexivity.
  - apply (proj2 (proj2 (getFieldValue_follows_the_path record "" "phone" "" "area.code"))).
    left. reflexivity.
Defined.

(* ================================================================== *)
(** ** Lists of numbers and of strings *)
(* ================================================================== *)

Section NumberLists.
Context {host : JsHost}.

Lemma filter_isFinite (xs : list JsNum) :
  Forall (fun n => isFinite n = true) (filter isFinite xs).
Proof. apply Forall_forall. intros n Hn. now apply filter_In in Hn. Qed.

Lemma arrayFromRange_finite (a b : JsNum) (l : list JsNum) :
  isFinite a = true -> arrayFromRange a b = Some l ->
  Forall (fun n => isFinite n = true) l.
Proof.
  intros Ha H. destruct a as [| | |qa]; try discriminate Ha.
  unfold arrayFromRange in H.
  destruct (add (sub b (Fin qa)) (ofNat 1)) as [| | |q].
  - injection H as <-. constructor.
  - discriminate H.
  - injection H as <-. constructor.
  - destruct (Z.ltb maxArrayLength (Z.max 0 (Qfloor q))); [discriminate H|].
    injection H as <-. apply Forall_forall. intros n Hn.
    apply in_map_iff in Hn. destruct Hn as (i & <- & _). reflexivity.
Qed.

Lemma parseNumberList_finite (input : JsValue) (l : list JsNum) :
  parseNumberList input = Some l -> Forall (fun n => isFinite n = true) l.
Proof.
  intros H. destruct input as [| |b|n|s|items|props]; cbn [parseNumberList] in H;
    try (injection H as <-; constructor).
  - cbv zeta in H.
    destruct (if (String.prefix "[" (trim s) && endsWith (trim s) "]")%bool
              then json_parse_array (trim s) else None) as [arr|].
    + injection H as <-. apply filter_isFinite.
    + destruct (matchRange (trim s)) as [[ma mb]|].
      * destruct (isFinite (str_to_num ma) && isFinite (str_to_num mb)
                  && le (str_to_num ma) (str_to_num mb))%bool eqn:E.
        -- apply andb_true_iff in E. destruct E as [E _].
           apply andb_true_iff in E. destruct E as [E _].
           exact (arrayFromRange_finite _ _ _ E H).
        -- injection H as <-. apply filter_isFinite.
      * injection H as <-. apply filter_isFinite.
  - injection H as <-. apply filter_isFinite.
Qed.

End NumberLists.

(** X11.  Whatever [parseNumberList] returns holds finite numbers only.
    So the test for a number that is not finite among the available slots
    of a worker never succeeds, and the slots are refused exactly when the
    list is empty. *)
Theorem parseNumberList_gives_finite_numbers :
  forall (host : JsHost) (input : JsValue) (numbers : list JsNum),
    parseNumberList input = Some numbers ->
    Forall (fun n => isFinite n = true) numbers
    /\ existsb (fun n => negb (isFinite n)) numbers = false
    /\ (isEmpty numbers || existsb (fun n => negb (isFinite n)) numbers)%bool
       = isEmpty numbers.
Proof.
  intros host input numbers H.
  assert (Hfin := parseNumberList_finite input numbers H).
  assert (Hnone : existsb (fun n => negb (isFinite n)) numbers = false).
  { clear H. induction Hfin as [|n ns Hn _ IH]; cbn [existsb]; [reflexivity|].
    now rewrite Hn, IH. }
  split; [exact Hfin|]. split; [exact Hnone|].
  rewrite Hnone. apply orb_false_r.
Qed.

Lemma parseNumberList_gives_finite_numbers_witness :
  let numbers := [ofZ 2; ofZ 4] in
  Forall (fun n => isFinite n = true) numbers
  /\ existsb (fun n => negb (isFinite n)) numbers = false
  /\ (isEmpty numbers || existsb (fun n => negb (isFinite n)) numbers)%bool
     = isEmpty numbers.
Proof.
  cbv zeta.
  apply (parseNumberList_gives_finite_numbers decimalHost (VStr "2, x, 4")).
  reflexivity.
Defined.

Section TrimLemmas.

Lemma length_rev_string (s acc : string) :
  String.length (rev_string s acc) = String.length s + String.length acc.
Proof.
  revert acc. induction s as [|c r IH]; intros acc; cbn [rev_string String.length].
  - reflexivity.
  - rewrite IH. cbn [String.length]. lia.
Qed.

Lemma rev_rev_string (s : string) : rev_string (rev_string s "") "" = s.
Proof. now rewrite rev_string_involutive. Qed.

Lemma length_trimStart (s : string) : String.length (trimStart s) <= String.length s.
Proof.
  induction s as [|c r IH]; cbn [trimStart]; [lia|].
  destruct (isSpace c); cbn [String.length]; lia.
Qed.

Lemma length_trimEnd (s : string) : String.length (trimEnd s) <= String.length s.
Proof.
  unfold trimEnd. rewrite length_rev_string.
  pose proof (length_trimStart (rev_string s "")) as H.
  rewrite length_rev_string in H. cbn [String.length] in *. lia.
Qed.

Lemma trimStart_fixed (s : string) :
  String.length (trimStart s) = String.length s -> trimStart s = s.
Proof.
  destruct s as [|c r]; cbn [trimStart]; [reflexivity|].
  destruct (isSpace c); [|reflexivity].
  intros H. pose proof (length_trimStart r). cbn [String.length] in H. lia.
Qed.

Lemma trimStart_head (s : string) :
  trimStart s = s -> s = "" \/ exists c r, s = String c r /\ isSpace c = false.
Proof.
  destruct s as [|c r]; [now left|]. cbn [trimStart].
  destruct (isSpace c) eqn:E; [|right; eauto].
  intros H. pose proof (length_trimStart r) as Hl. rewrite H in Hl.
  cbn [String.length] in Hl. lia.
Qed.

Lemma trim_fixed (s : string) : trim s = s -> trimStart s = s /\ trimEnd s = s.
Proof.
  unfold trim. intros H.
  assert (Hs : trimStart s = s).
  { apply trimStart_fixed. pose proof (length_trimEnd (trimStart s)) as H1.
    pose proof (length_trimStart s) as H2. rewrite H in H1. lia. }
  split; [exact Hs|]. now rewrite Hs in H.
Qed.

Lemma trimEnd_last (s : string) :
  trimEnd s = s ->
  s = "" \/ exists r c, s = (r ++ String c "")%string /\ isSpace c = false.
Proof.
  unfold trimEnd. intros H.
  assert (H' : trimStart (rev_string s "") = rev_string s "").
  { rewrite <- (rev_rev_string (trimStart (rev_string s ""))). now rewrite H. }
  destruct (trimStart_head _ H') as [E|(c & r & E & Hc)].
  - left. rewrite <- (rev_rev_string s), E. reflexivity.
  - right. exists (rev_string r ""), c. split; [|exact Hc].
    rewrite <- (rev_rev_string s), E. cbn [rev_string]. apply rev_string_acc.
Qed.

End TrimLemmas.

Section CommaLists.

Lemma splitCommaAux_word (y : string) :
  includes y "," = false ->
  forall cur pend,
    exists cur' pend',
      (forall rest,
         splitCommaAux (y ++ rest) cur pend false = splitCommaAux rest cur' pend' false)
      /\ (pend' ++ cur')%string = rev_string y (pend ++ cur)%string.
Proof.
  induction y as [|c r IH]; intros Hy cur pend.
  - exists cur, pend. split; reflexivity.
  - cbn [includes] in Hy. apply orb_false_iff in Hy. destruct Hy as [Hc Hr].
    rewrite prefix_char, Ascii.eqb_sym in Hc.
    destruct (isSpace c) eqn:Es.
    + destruct (IH Hr cur (String c pend)) as (cur' & pend' & Hrun & Hrev).
      exists cur', pend'. split.
      * intros rest. cbn [append splitCommaAux]. rewrite Hc, Es. apply Hrun.
      * exact Hrev.
    + destruct (IH Hr (String c (pend ++ cur)) "") as (cur' & pend' & Hrun & Hrev).
      exists cur', pend'. split.
      * intros rest. cbn [append splitCommaAux]. rewrite Hc, Es. apply Hrun.
      * exact Hrev.
Qed.

Lemma includes_app_l (a b t : string) :
  includes (a ++ b) t = false -> includes b t = false.
Proof.
  induction a as [|c r IH]; cbn [append]; [auto|].
  cbn [includes]. intros H. apply orb_false_iff in H. now apply IH.
Qed.

Lemma includes_snoc_head (r : string) (c : ascii) (t : ascii) :
  includes (r ++ String c "") (String t "") = false ->
  includes r (String t "") = false /\ Ascii.eqb c t = false.
Proof.
  induction r as [|d r IH]; cbn [append].
  - cbn [includes]. rewrite prefix_char. intros H.
    apply orb_false_iff in H. destruct H as [H _]. rewrite Ascii.eqb_sym in H.
    split; [|exact H]. now rewrite orb_false_r.
  - intros H. cbn [includes] in H. apply orb_false_iff in H. destruct H as [Hd Hr].
    rewrite prefix_char in Hd. destruct (IH Hr) as [H1 H2]. split; [|exact H2].
    cbn [includes]. rewrite prefix_char, Hd, H1. reflexivity.
Qed.

(** A piece that [trim] leaves as it is and that has no comma is read as
    one piece, whatever white space was skipped before it. *)
Lemma splitCommaAux_piece (x rest : string) (inSep : bool) :
  x <> "" -> trim x = x -> includes x "," = false ->
  splitCommaAux (x ++ rest) "" "" inSep
  = splitCommaAux rest (rev_string x "") "" false.
Proof.
  intros Hne Htrim Hcomma. destruct (trim_fixed x Htrim) as [Hstart Hend].
  destruct (trimStart_head x Hstart) as [E|(c0 & x' & E & Hc0)]; [contradiction|].
  subst x.
  assert (Hcomma0 : Ascii.eqb c0 "," = false /\ includes x' "," = false).
  { cbn [includes] in Hcomma. apply orb_false_iff in Hcomma.
    destruct Hcomma as [H1 H2]. now rewrite prefix_char, Ascii.eqb_sym in H1. }
  destruct Hcomma0 as [Hk0 Hk'].
  cbn [append splitCommaAux]. rewrite Hk0, Hc0. cbn [append rev_string].
  destruct (trimEnd_last _ Hend) as [E|(r & cl & E & Hcl)]; [discriminate E|].
  destruct r as [|d r].
  - cbn [append] in E. injection E as -> ->. reflexivity.
  - cbn [append] in E. injection E as -> ->.
    destruct (includes_snoc_head r cl "," Hk') as [Hkr Hkl].
    destruct (splitCommaAux_word r Hkr (String d "") "") as (cur' & pend' & Hrun & Hrev).
    rewrite append_assoc, Hrun. cbn [append splitCommaAux].
    rewrite Hkl, Hcl, Hrev. cbn [append].
    rewrite (rev_string_app r (String cl "") (String d "")). reflexivity.
Qed.

Lemma splitCommaAux_join (x : string) (xs : list string) (inSep : bool) :
  Forall (fun x => x <> "" /\ trim x = x /\ includes x "," = false) (x :: xs) ->
  splitCommaAux (join ", " (x :: xs)) "" "" inSep = x :: xs.
Proof.
  revert x inSep. induction xs as [|y ys IH]; intros x inSep H.
  - inversion H as [|? ? (Hne & Htrim & Hcomma) _]; subst.
    cbn [join]. rewrite <- (append_nil_r x) at 1.
    rewrite (splitCommaAux_piece x "" inSep Hne Htrim Hcomma).
    cbn [splitCommaAux append]. now rewrite rev_rev_string.
  - inversion H as [|? ? (Hne & Htrim & Hcomma) Hrest]; subst.
    change (join ", " (x :: y :: ys)) with (x ++ ", " ++ join ", " (y :: ys))%string.
    rewrite (splitCommaAux_piece x _ inSep Hne Htrim Hcomma).
    cbn [append splitCommaAux Ascii.eqb Bool.eqb isSpace]. rewrite rev_rev_string.
    f_equal. change (isSpace " ") with true. cbv iota. now apply IH.
Qed.

End CommaLists.

Section TrimIdempotent.

Lemma trimStart_idempotent (s : string) : trimStart (trimStart s) = trimStart s.
Proof.
  induction s as [|c r IH]; cbn [trimStart]; [reflexivity|].
  destruct (isSpace c) eqn:E; [exact IH|]. cbn [trimStart]. now rewrite E.
Qed.

Lemma trimStart_snoc (w : string) (c : ascii) :
  isSpace c = false ->
  exists w', trimStart (w ++ String c "") = (w' ++ String c "")%string.
Proof.
  intros Hc. induction w as [|d w IH]; cbn [append trimStart].
  - rewrite Hc. now exists "".
  - destruct (isSpace d); [exact IH|]. now exists (String d w).
Qed.

Lemma trimEnd_idempotent (s : string) : trimEnd (trimEnd s) = trimEnd s.
Proof. unfold trimEnd. now rewrite rev_rev_string, trimStart_idempotent. Qed.

Lemma trimEnd_keeps_head (c : ascii) (r : string) :
  isSpace c = false -> exists r', trimEnd (String c r) = String c r'.
Proof.
  intros Hc. unfold trimEnd. cbn [rev_string].
  rewrite (rev_string_acc r (String c "")).
  destruct (trimStart_snoc (rev_string r "") c Hc) as (w' & ->).
  rewrite rev_string_app. cbn [rev_string]. now exists (rev_string w' "").
Qed.

Lemma trim_idempotent (s : string) : trim (trim s) = trim s.
Proof.
  unfold trim at 1.
  assert (Hstart : trimStart (trim s) = trim s).
  { unfold trim. pose proof (trimStart_idempotent s) as Hi.
    destruct (trimStart_head _ Hi) as [E|(c & r & E & Hc)].
    - rewrite E. reflexivity.
    - rewrite E. destruct (trimEnd_keeps_head c r Hc) as (r' & ->).
      cbn [trimStart]. now rewrite Hc. }
  rewrite Hstart. unfold trim. apply trimEnd_idempotent.
Qed.

End TrimIdempotent.

(** X12.  Every string that [parseStringList] returns is non-empty and has
    no white space at either end, for a list given as an array and for one
    given as a text. *)
Theorem parseStringList_elements_trimmed :
  forall (host : JsHost) (input : JsValue) (x : string),
    In x (parseStringList input) -> x <> "" /\ trim x = x.
Proof.
  intros host input x H.
  assert (Hgen : forall (f : string -> string) (l : list string),
             In x (filter nonEmpty (map (fun t => trim (f t)) l)) ->
             x <> "" /\ trim x = x).
  { intros f l Hx. apply filter_In in Hx. destruct Hx as [Hin Hne]. split.
    - intros ->. discriminate Hne.
    - apply in_map_iff in Hin. destruct Hin as (t & <- & _). apply trim_idempotent. }
  destruct input as [| |b|n|s|items|props]; cbn [parseStringList] in H;
    try contradiction.
  - exact (Hgen stripQuotes _ H).
  - rewrite <- (map_map toStr trim) in H.
    exact (Hgen (fun t => t) _ H).
Qed.

Lemma parseStringList_elements_trimmed_witness :
  "Node.js" <> "" /\ trim "Node.js" = "Node.js".
Proof.
  apply (parseStringList_elements_trimmed decimalHost (VStr " React ,  Node.js ")).
  right. left. reflexivity.
Defined.

(** X13.  A list of non-empty strings without white space at the ends is
    read back by [parseStringList] from the array of them; when in addition
    no string has a comma or a quote at its ends, it is also read back from
    the text that joins them with a comma and a space, the form in which the
    messages print such lists. *)
Theorem parseStringList_reads_back :
  forall (host : JsHost) (xs : list string),
    Forall (fun x => x <> "" /\ trim x = x) xs ->
    parseStringList (VArr (map VStr xs)) = xs
    /\ (Forall (fun x => includes x "," = false /\ stripQuotes x = x) xs ->
        parseStringList (VStr (join ", " xs)) = xs).
Proof.
  intros host xs Hclean.
  assert (Hkeep : forall f : string -> string,
             Forall (fun x => f x = x) xs ->
             filter nonEmpty (map (fun t => trim (f t)) xs) = xs).
  { intros f Hf. induction Hclean as [|x l (Hne & Htrim) _ IH]; [reflexivity|].
    inversion Hf as [|? ? Hx Hl]; subst. cbn [map filter].
    rewrite Hx, Htrim. destruct x as [|c r]; [contradiction|].
    cbn [nonEmpty String.eqb negb]. now rewrite IH. }
  split.
  - cbn [parseStringList]. rewrite map_map. cbn [toStr].
    apply (Hkeep (fun t => t)). apply Forall_forall. reflexivity.
  - intros Hplain. cbn [parseStringList]. destruct xs as [|x l]; [reflexivity|].
    unfold splitComma. rewrite splitCommaAux_join.
    + apply Hkeep. apply Forall_forall. intros y Hy.
      rewrite Forall_forall in Hplain. now apply Hplain.
    + apply Forall_forall. intros y Hy. rewrite Forall_forall in Hclean, Hplain.
      destruct (Hclean y Hy) as [H1 H2]. destruct (Hplain y Hy) as [H3 _]. auto.
Qed.

Lemma parseStringList_reads_back_witness :
  let xs := ["React"; "Data Analysis"; "UI/UX"] in
  parseStringList (host := decimalHost) (VArr (map VStr xs)) = xs
  /\ parseStringList (host := decimalHost) (VStr "React, Data Analysis, UI/UX") = xs.
Proof.
  cbv zeta.
  pose proof (parseStringList_reads_back decimalHost
                ["React"; "Data Analysis"; "UI/UX"]) as H.
  destruct H as [Harr Htext].
  - repeat constructor; discriminate.
  - split; [exact Harr|]. apply Htext. repeat constructor.
Defined.

(* ================================================================== *)
(** ** Duplicates *)
(* ================================================================== *)

Section Duplicates.
Context {host : JsHost}.

Lemma mapGet_mapPush (m : list (string * list nat)) (key k : string) (index : nat) :
  mapGet (mapPush m key index) k
  = if String.eqb key k then Some (entryOf m key ++ [index]) else mapGet m k.
Proof.
  unfold entryOf. induction m as [|[k' l] rest IH]; cbn [mapPush mapGet].
  - destruct (String.eqb key k); reflexivity.
  - destruct (String.eqb k' key) eqn:E; cbn [mapGet].
    + apply String.eqb_eq in E; subst k'. destruct (String.eqb key k); reflexivity.
    + destruct (String.eqb k' k) eqn:E2.
      * apply String.eqb_eq in E2; subst k'. rewrite String.eqb_sym in E.
        now rewrite E.
      * exact IH.
Qed.

Lemma mapPush_keys_in (m : list (string * list nat)) (key k : string) (index : nat) :
  In k (map fst (mapPush m key index)) -> k = key \/ In k (map fst m).
Proof.
  induction m as [|[k' l] rest IH]; cbn [mapPush map fst In].
  - intros [<-|[]]. now left.
  - destruct (String.eqb k' key); cbn [map fst In]; intros [<-|Hin]; auto.
    destruct (IH Hin); auto.
Qed.

Lemma mapPush_keys (m : list (string * list nat)) (key : string) (index : nat) :
  NoDup (map fst m) -> NoDup (map fst (mapPush m key index)).
Proof.
  induction m as [|[k' l] rest IH]; cbn [mapPush map fst]; intros H.
  - repeat constructor. intros [].
  - inversion H as [|? ? Hnot Hrest]; subst.
    destruct (String.eqb k' key) eqn:E; cbn [map fst].
    + now constructor.
    + constructor; [|now apply IH].
      intros Hin. destruct (mapPush_keys_in _ _ _ _ Hin) as [->|Hin'];
        [|contradiction].
      now rewrite String.eqb_refl in E.
Qed.

Lemma mapGet_In (m : list (string * list nat)) (k : string) (l : list nat) :
  NoDup (map fst m) -> In (k, l) m -> mapGet m k = Some l.
Proof.
  induction m as [|[k' l'] rest IH]; cbn [map fst In mapGet]; [contradiction|].
  intros H [E|Hin].
  - injection E as -> ->. now rewrite String.eqb_refl.
  - inversion H as [|? ? Hnot Hrest]; subst.
    destruct (String.eqb k' k) eqn:E; [|now apply IH].
    apply String.eqb_eq in E; subst k'. elim Hnot.
    change k with (fst (k, l)). now apply in_map.
Qed.

Lemma In_mapGet (m : list (string * list nat)) (k : string) (l : list nat) :
  mapGet m k = Some l -> In (k, l) m.
Proof.
  induction m as [|[k' l'] rest IH]; cbn [mapGet In]; [discriminate|].
  destruct (String.eqb k' k) eqn:E.
  - apply String.eqb_eq in E; subst k'. intros [= ->]. now left.
  - intros H. right. now apply IH.
Qed.

Lemma valueMapFrom_spec (field : string) (records : list JsObj) (index : nat)
  (m : list (string * list nat)) :
  NoDup (map fst m) ->
  NoDup (map fst (valueMapFrom field records index m))
  /\ forall k,
       mapGet (valueMapFrom field records index m) k
       = match indicesFrom (filedUnder field k) records index with
         | [] => mapGet m k
         | l => Some (entryOf m k ++ l)
         end.
Proof.
  revert index m. induction records as [|record rest IH]; intros index m Hm.
  - split; [exact Hm|reflexivity].
  - cbn [valueMapFrom]. cbv zeta.
    destruct (truthy (getFieldValue record field)) eqn:Et.
    + set (key := trim (toLowerCase (toStr (getFieldValue record field)))).
      destruct (IH (S index) (mapPush m key index) (mapPush_keys m key index Hm))
        as [Hnd Hget].
      split; [exact Hnd|]. intros k. rewrite Hget. cbn [indicesFrom].
      unfold filedUnder at 2. unfold duplicateKey. cbv zeta. rewrite Et. fold key.
      unfold entryOf at 1. rewrite mapGet_mapPush.
      destruct (String.eqb key k) eqn:E.
      * apply String.eqb_eq in E; subst k.
        destruct (indicesFrom (filedUnder field key) rest (S index)); [reflexivity|].
        now rewrite <- app_assoc.
      * reflexivity.
    + destruct (IH (S index) m Hm) as [Hnd Hget].
      split; [exact Hnd|]. intros k. rewrite Hget. cbn [indicesFrom].
      unfold filedUnder at 2. unfold duplicateKey. cbv zeta. rewrite Et.
      reflexivity.
Qed.

(** The entries of the [valueMap] of a field. *)
Lemma valueMap_entries (field : string) (records : list JsObj) (k : string)
  (l : list nat) :
  In (k, l) (valueMapFrom field records 0 [])
  <-> l <> [] /\ l = indicesFrom (filedUnder field k) records 0.
Proof.
  destruct (valueMapFrom_spec field records 0 [] (NoDup_nil _)) as [Hnd Hget].
  specialize (Hget k). cbn [mapGet] in Hget. unfold entryOf in Hget.
  cbn [mapGet app] in Hget. split.
  - intros Hin. apply (mapGet_In _ _ _ Hnd) in Hin. rewrite Hin in Hget.
    destruct (indicesFrom (filedUnder field k) records 0); [discriminate|].
    injection Hget as ->. split; [discriminate|reflexivity].
  - intros [Hne ->]. apply In_mapGet. rewrite Hget.
    destruct (indicesFrom (filedUnder field k) records 0); [contradiction|reflexivity].
Qed.

Lemma indicesFrom_spec {X : Type} (p : X -> bool) (xs : list X) (index i : nat) :
  In i (indicesFrom p xs index)
  <-> exists x, index <= i /\ nth_error xs (i - index) = Some x /\ p x = true.
Proof.
  revert index. induction xs as [|x rest IH]; intros index; cbn [indicesFrom].
  - split; [contradiction|]. intros (x & _ & H & _). now destruct (i - index).
  - assert (Hrest : In i (indicesFrom p rest (S index))
                    <-> exists y, index < i /\ nth_error rest (i - S index) = Some y
                                  /\ p y = true).
    { rewrite IH. split; intros (y & H1 & H2 & H3); exists y; repeat split; auto. }
    destruct (p x) eqn:Ep; cbn [In]; rewrite Hrest; split.
    + intros [<-|(y & H1 & H2 & H3)].
      * exists x. rewrite Nat.sub_diag. auto.
      * exists y. replace (i - index) with (S (i - S index)) by lia.
        repeat split; auto. lia.
    + intros (y & H1 & H2 & H3). destruct (Nat.eq_dec index i) as [E|E]; [now left|].
      right. exists y. replace (i - index) with (S (i - S index)) in H2 by lia.
      repeat split; auto. lia.
    + intros (y & H1 & H2 & H3). exists y.
      replace (i - index) with (S (i - S index)) by lia. repeat split; auto. lia.
    + intros (y & H1 & H2 & H3). destruct (Nat.eq_dec index i) as [E|E].
      * subst i. rewrite Nat.sub_diag in H2. cbn [nth_error] in H2.
        injection H2 as ->. congruence.
      * exists y. replace (i - index) with (S (i - S index)) in H2 by lia.
        repeat split; auto. lia.
Qed.

Lemma indicesFrom_sorted {X : Type} (p : X -> bool) (xs : list X) (index : nat) :
  StronglySorted Nat.lt (indicesFrom p xs index).
Proof.
  revert index. induction xs as [|x rest IH]; intros index; cbn [indicesFrom].
  - constructor.
  - destruct (p x); [|apply IH]. constructor; [apply IH|].
    apply Forall_forall. intros i Hi. apply indicesFrom_spec in Hi.
    destruct Hi as (_ & H & _). exact H.
Qed.

Lemma duplicatesOfField_spec (records : list JsObj) (field : string) (d : Duplicate) :
  In d (duplicatesOfField records field)
  <-> exists key,
        d = {| dup_indices := indicesFrom (filedUnder field key) records 0;
               dup_field := field;
               dup_message := duplicateMessage field key |}
        /\ 2 <= List.length (indicesFrom (filedUnder field key) records 0).
Proof.
  unfold duplicatesOfField. rewrite in_flat_map. split.
  - intros ([k l] & Hin & Hd). apply valueMap_entries in Hin. destruct Hin as [_ ->].
    destruct (Nat.ltb 1 _) eqn:E; [|contradiction].
    destruct Hd as [<-|[]]. exists k. split; [reflexivity|].
    apply Nat.ltb_lt in E. lia.
  - intros (key & -> & Hlen).
    exists (key, indicesFrom (filedUnder field key) records 0). split.
    + apply valueMap_entries. split; [|reflexivity].
      intros E. rewrite E in Hlen. cbn in Hlen. lia.
    + assert (E : Nat.ltb 1 (List.length (indicesFrom (filedUnder field key) records 0))
                  = true) by (apply Nat.ltb_lt; lia).
      rewrite E. now left.
Qed.

End Duplicates.

Section DuplicateKeys.
Context {host : JsHost}.

Lemma filedUnder_key (field key : string) (record : JsObj) :
  filedUnder field key record = true <-> duplicateKey record field = Some key.
Proof.
  unfold filedUnder. destruct (duplicateKey record field) as [k|].
  - rewrite String.eqb_eq. split; congruence.
  - split; discriminate.
Qed.

Lemma indicesFrom_records (field key : string) (records : list JsObj) (i : nat) :
  In i (indicesFrom (filedUnder field key) records 0)
  <-> exists record, nth_error records i = Some record
                     /\ duplicateKey record field = Some key.
Proof.
  rewrite indicesFrom_spec. rewrite Nat.sub_0_r.
  split; intros (record & H); exists record.
  - destruct H as (_ & H1 & H2). split; [exact H1|]. now apply filedUnder_key.
  - destruct H as (H1 & H2). repeat split; [lia|exact H1|]. now apply filedUnder_key.
Qed.

Lemma two_members (l : list nat) (i j : nat) :
  i <> j -> In i l -> In j l -> 2 <= List.length l.
Proof.
  intros Hne Hi Hj. destruct l as [|a [|b l]]; cbn [List.length]; try lia.
  - contradiction.
  - destruct Hi as [<-|[]]. destruct Hj as [<-|[]]. congruence.
Qed.

End DuplicateKeys.

(** X14.  Every duplicate that [findDuplicates] reports is on a key field
    of the data type and names a key; its indices are, in ascending order
    and without repetition, exactly the indices of the records whose value
    of the field is truthy and has that key (the text of the value in lower
    case, trimmed), and there are at least two of them. *)
Theorem findDuplicates_sound :
  forall (host : JsHost) (records : list JsObj) (dataType : string) (d : Duplicate),
    In d (findDuplicates records dataType) ->
    In (dup_field d) (getKeyFields dataType)
    /\ 2 <= List.length (dup_indices d)
    /\ StronglySorted Nat.lt (dup_indices d)
    /\ exists key,
         dup_message d
         = ("Duplicate " ++ dup_field d ++ ": " ++ quoted key
            ++ " found in multiple records")%string
         /\ forall i,
              In i (dup_indices d)
              <-> exists record,
                    nth_error records i = Some record
                    /\ duplicateKey record (dup_field d) = Some key.
Proof.
  intros host records dataType d Hd. unfold findDuplicates in Hd.
  apply in_flat_map in Hd. destruct Hd as (field & Hfield & Hd).
  apply duplicatesOfField_spec in Hd. destruct Hd as (key & -> & Hlen).
  cbn [dup_field dup_indices dup_message]. split; [exact Hfield|].
  split; [exact Hlen|]. split; [apply indicesFrom_sorted|].
  exists key. split; [reflexivity|]. intros i. apply indicesFrom_records.
Qed.

Lemma findDuplicates_sound_witness :
  let records := [[("email", VStr "Ana@Mail.io")]; [("email", VStr "bo@mail.io")];
                  [("email", VStr " ana@mail.io ")]] in
  let d := {| dup_indices := [0; 2]; dup_field := "email";
              dup_message := duplicateMessage "email" "ana@mail.io" |} in
  In (dup_field d) (getKeyFields "workers")
  /\ 2 <= List.length (dup_indices d)
  /\ StronglySorted Nat.lt (dup_indices d)
  /\ exists key,
       dup_message d
       = ("Duplicate " ++ dup_field d ++ ": " ++ quoted key
          ++ " found in multiple records")%string
       /\ forall i,
            In i (dup_indices d)
            <-> exists record,
                  nth_error records i = Some record
                  /\ duplicateKey (host := decimalHost) record (dup_field d) = Some key.
Proof.
  cbv zeta.
  apply (findDuplicates_sound decimalHost
           [[("email", VStr "Ana@Mail.io")]; [("email", VStr "bo@mail.io")];
            [("email", VStr " ana@mail.io ")]] "workers").
  left. reflexivity.
Defined.

(** X15.  Two records of a batch whose values of a key field of the data
    type are truthy and have the same key are reported together: some
    duplicate on that field, with the message for that key, has both
    indices. *)
Theorem findDuplicates_complete :
  forall (host : JsHost) (records : list JsObj) (dataType field key : string)
         (i j : nat) (ri rj : JsObj),
    In field (getKeyFields dataType) ->
    i <> j ->
    nth_error records i = Some ri ->
    nth_error records j = Some rj ->
    duplicateKey ri field = Some key ->
    duplicateKey rj field = Some key ->
    exists d,
      In d (findDuplicates records dataType)
      /\ dup_field d = field
      /\ dup_message d
         = ("Duplicate " ++ field ++ ": " ++ quoted key
            ++ " found in multiple records")%string
      /\ In i (dup_indices d)
      /\ In j (dup_indices d).
Proof.
  intros host records dataType field key i j ri rj Hfield Hne Hi Hj Hki Hkj.
  assert (Ii : In i (indicesFrom (filedUnder field key) records 0))
    by (apply indicesFrom_records; eauto).
  assert (Ij : In j (indicesFrom (filedUnder field key) records 0))
    by (apply indicesFrom_records; eauto).
  exists {| dup_indices := indicesFrom (filedUnder field key) records 0;
            dup_field := field;
            dup_message := duplicateMessage field key |}.
  cbn [dup_field dup_indices dup_message]. repeat split; auto.
  unfold findDuplicates. apply in_flat_map. exists field. split; [exact Hfield|].
  apply duplicatesOfField_spec. exists key. split; [reflexivity|].
  exact (two_members _ i j Hne Ii Ij).
Qed.

Lemma findDuplicates_complete_witness :
  let records := [[("email", VStr "Ana@Mail.io")]; [("email", VStr "bo@mail.io")];
                  [("email", VStr " ana@mail.io ")]] in
  exists d,
    In d (findDuplicates (host := decimalHost) records "workers")
    /\ dup_field d = "email"
    /\ dup_message d
       = ("Duplicate " ++ "email" ++ ": " ++ quoted "ana@mail.io"
          ++ " found in multiple records")%string
    /\ In 0 (dup_indices d)
    /\ In 2 (dup_indices d).
Proof.
  cbv zeta.
  apply (findDuplicates_complete decimalHost
           [[("email", VStr "Ana@Mail.io")]; [("email", VStr "bo@mail.io")];
            [("email", VStr " ana@mail.io ")]] "workers" "email" "ana@mail.io" 0 2
           [("email", VStr "Ana@Mail.io")] [("email", VStr " ana@mail.io ")]).
  - right. left. reflexivity.
  - discriminate.
  - reflexivity.
  - reflexivity.
  - reflexivity.
  - reflexivity.
Defined.

(* ================================================================== *)
(** ** When a batch is rejected *)
(* ================================================================== *)

Section ThrowsLemmas.

Lemma throws_bind_l {A B : Type} (m : Exec A) (k : A -> Exec B) :
  Throws m -> Throws (bind m k).
Proof.
  intros Hm st. unfold bind. destruct (Hm st) as (st' & ->). now exists st'.
Qed.

Lemma throws_bind_r {A B : Type} (m : Exec A) (k : A -> Exec B) :
  (forall a, Throws (k a)) -> Throws (bind m k).
Proof.
  intros Hk st. unfold bind. destruct (m st) as [a st'|st'].
  - apply Hk.
  - now exists st'.
Qed.

Lemma throws_forEachFrom {X : Type} (f : X -> nat -> Exec unit) (xs : list X)
  (x : X) (k : nat) :
  In x xs -> (forall i, Throws (f x i)) -> Throws (forEachFrom f xs k).
Proof.
  intros Hin Hx. revert k. induction xs as [|y ys IH]; intros k; [contradiction|].
  cbn [forEachFrom]. destruct Hin as [->|Hin].
  - apply throws_bind_l, Hx.
  - apply throws_bind_r. intros _. now apply IH.
Qed.

End ThrowsLemmas.

Section Rejection.
Context {host : JsHost}.
Variable env : Env.

Lemma checkPreferredPhases_throws (records : list JsObj) (record : JsObj) :
  In record records -> preferredPhasesOf record = None ->
  Throws (checkPreferredPhases records).
Proof.
  intros Hin Hnone. unfold checkPreferredPhases, forEach.
  apply (throws_forEachFrom _ records record 0 Hin). intros i.
  cbv beta zeta. unfold preferredPhasesOf in Hnone.
  destruct (nullish (getProp record "PreferredPhases")
                    (getProp record "preferredPhases")) eqn:E;
    try discriminate Hnone.
  cbn [isUndefined]. rewrite Hnone. apply throws_bind_l.
  intros st. now exists st.
Qed.

Lemma checkAvailableSlots_throws (records : list JsObj) (record : JsObj) :
  In record records -> availableSlotsOf record = None ->
  Throws (checkAvailableSlots records).
Proof.
  intros Hin Hnone. unfold checkAvailableSlots, forEach.
  apply (throws_forEachFrom _ records record 0 Hin). intros i.
  cbv beta zeta. unfold availableSlotsOf in Hnone.
  destruct (nullish (getProp record "AvailableSlots")
                    (getProp record "availableSlots")) eqn:E;
    try discriminate Hnone.
  cbn [isUndefined]. rewrite Hnone. apply throws_bind_l.
  intros st. now exists st.
Qed.

Lemma crossRecordBody_throws (records : list JsObj) (dataType : DataTypeKey) :
  (dataType = tasks /\ exists record, In record records /\ preferredPhasesOf record = None)
  \/ (dataType = workers
      /\ exists record, In record records /\ availableSlotsOf record = None) ->
  Throws (crossRecordBody env records (keyName dataType)).
Proof.
  unfold crossRecordBody.
  intros [(-> & record & Hin & Hnone)|(-> & record & Hin & Hnone)];
    apply throws_bind_r; intros _.
  - apply throws_bind_l. cbn [keyName String.eqb Ascii.eqb Bool.eqb when].
    change (String.eqb "tasks" "tasks") with true. cbn [when].
    apply throws_bind_r; intros _. apply throws_bind_r; intros _.
    exact (checkPreferredPhases_throws records record Hin Hnone).
  - apply throws_bind_r; intros _. apply throws_bind_l.
    change (String.eqb (keyName workers) "workers") with true. cbn [when].
    exact (checkAvailableSlots_throws records record Hin Hnone).
Qed.

End Rejection.

(** X16.  [validateBatch] is rejected whenever the batch is of tasks and
    the preferred phases of one of them make [parseNumberList] throw, and
    whenever the batch is of workers and the available slots of one of
    them do, whatever the rules, the registry and the other records are:
    the two lists are parsed outside the [try] block.  When it returns, it
    returns one result per record. *)
Theorem validateBatch_rejected_on_unparseable_lists :
  forall (host : JsHost) (env : Env) (rules : RuleMap) (records : list JsObj)
         (dataType : DataTypeKey),
    ((dataType = tasks
      /\ exists record, In record records /\ preferredPhasesOf record = None)
     \/ (dataType = workers
         /\ exists record, In record records /\ availableSlotsOf record = None) ->
     validateBatch env rules records dataType = None)
    /\ (forall results,
          validateBatch env rules records dataType = Some results ->
          List.length results = List.length records).
Proof.
  intros host env rules records dataType. split.
  - intros H. unfold validateBatch, performCrossRecordValidation.
    destruct (crossRecordBody_throws env records dataType H
                (initialResults env records (keyName dataType))) as (st & ->).
    reflexivity.
  - intros results Hr. exact (validateBatch_length env rules records dataType results Hr).
Qed.

(** The theorem of X16 on a batch of workers, the second of which has the
    available slots 0-4294967295. *)
Lemma validateBatch_rejected_on_unparseable_lists_witness :
  availableSlotsOf (host := decimalHost) workerWideSlots = None
  /\ validateBatch (host := decimalHost) (envAt (Some registry0)) defaultRules
       [workerReact; workerWideSlots] workers = None.
Proof.
  split; [vm_compute; reflexivity|].
  apply (proj1 (validateBatch_rejected_on_unparseable_lists decimalHost
                  (envAt (Some registry0)) defaultRules
                  [workerReact; workerWideSlots] workers)).
  right. split; [reflexivity|]. exists workerWideSlots.
  split; [right; now left | vm_compute; reflexivity].
Defined.

(* ================================================================== *)
(** ** What the cross-record validation adds to a result *)
(* ================================================================== *)

Section Severities.
Context {host : JsHost}.
Variable env : Env.

Lemma growsBySeverity_refl r : growsBySeverity r r.
Proof.
  repeat split; auto; exists []; rewrite app_nil_r; split; auto.
Qed.

Lemma growsBySeverity_trans r1 r2 r3 :
  growsBySeverity r1 r2 -> growsBySeverity r2 r3 -> growsBySeverity r1 r3.
Proof.
  intros (Hv & (e & He & Fe) & (w & Hw & Fw) & Hs)
         (Hv' & (e' & He' & Fe') & (w' & Hw' & Fw') & Hs').
  repeat split; try congruence.
  - exists (e ++ e'). rewrite He', He, app_assoc. split; [reflexivity|].
    apply Forall_app; auto.
  - exists (w ++ w'). rewrite Hw', Hw, app_assoc. split; [reflexivity|].
    apply Forall_app; auto.
Qed.

Lemma growsBySeverity_withErrors e r :
  err_severity e = SevError ->
  growsBySeverity r (withErrors (fun l => l ++ [e]) r).
Proof.
  intros He. repeat split; cbn [isValid errors warnings suggestions withErrors]; auto.
  - exists [e]. split; [reflexivity|]. now constructor.
  - exists []. rewrite app_nil_r. split; auto.
Qed.

Lemma growsBySeverity_withWarnings e r :
  err_severity e = SevWarning ->
  growsBySeverity r (withWarnings (fun l => l ++ [e]) r).
Proof.
  intros He. repeat split; cbn [isValid errors warnings suggestions withWarnings]; auto.
  - exists []. rewrite app_nil_r. split; auto.
  - exists [e]. split; [reflexivity|]. now constructor.
Qed.

Lemma crossRecordBody_growsBySeverity records dataType :
  Keeps growsBySeverity (crossRecordBody env records dataType).
Proof.
  unfold crossRecordBody, crossDatasetChecks, checkDuplicates,
    checkClientReferences, checkDurations, checkPreferredPhases,
    checkAvailableSlots, checkSkillCoverage, checkMaxConcurrency,
    checkPhaseSaturation, checkRequestedTasks.
  keeps growsBySeverity_refl growsBySeverity_trans;
    try (apply growsBySeverity_withErrors; reflexivity);
    try (apply growsBySeverity_withWarnings; reflexivity).
Qed.

End Severities.

(** X17.  [validateBatch] only appends to what [validateRecord] found for
    the record at the same index: the errors and the warnings of a result
    are those of [validateRecord] followed by the cross-record ones, which
    have severity error and severity warning respectively; the suggestions
    are those of [validateRecord]; and the result is valid exactly when
    [validateRecord] found the record valid, whatever errors were
    appended. *)
Theorem validateBatch_only_appends_findings :
  forall (host : JsHost) (env : Env) (rules : RuleMap) (records : list JsObj)
         (dataType : DataTypeKey) (results : list ValidationResult)
         (i : nat) (record : JsObj),
    validateBatch env rules records dataType = Some results ->
    nth_error records i = Some record ->
    let own := validateRecord env rules i record dataType in
    exists r crossErrors crossWarnings,
      nth_error results i = Some r
      /\ errors r = errors own ++ crossErrors
      /\ warnings r = warnings own ++ crossWarnings
      /\ suggestions r = suggestions own
      /\ isValid r = isValid own
      /\ Forall (fun e => err_severity e = SevError) crossErrors
      /\ Forall (fun e => err_severity e = SevWarning) crossWarnings.
Proof.
  intros host env rules records dataType results i record Hbatch Hrec own.
  apply validateBatch_Some in Hbatch as (cross & Hcross & ->).
  pose proof (validateRecordsFrom_nth env rules records dataType 0 i record Hrec) as Hper.
  cbn [Nat.add] in Hper. fold own in Hper.
  unfold performCrossRecordValidation in Hcross.
  pose proof (crossRecordBody_growsBySeverity env records (keyName dataType)
                (initialResults env records (keyName dataType))) as Hg.
  destruct (crossRecordBody env records (keyName dataType) _) as [[] st|st];
    [|discriminate Hcross].
  injection Hcross as <-. cbn [finalResults] in Hg.
  destruct (initialResults_nth env records (keyName dataType) i record Hrec)
    as (r0 & Hr0 & He0).
  assert (Hfresh : warnings r0 = [] /\ suggestions r0 = [] /\ isValid r0 = true).
  { pose proof (initialResultsFrom_fresh env records (keyName dataType) 0) as Hf.
    rewrite Forall_forall in Hf.
    destruct (Hf r0 (nth_error_In _ _ Hr0)) as (H1 & _ & H3 & H4). auto. }
  destruct Hfresh as (Hw0 & Hs0 & Hv0).
  destruct (Forall2_nth _ _ _ _ _ Hg Hr0)
    as (c & Hc & Hv & (es & Hes & Fes) & (ws & Hws & Fws) & Hs).
  exists (mergeInto own c), es, ws.
  rewrite (mergeZip_nth _ _ _ _ _ Hper Hc).
  cbn [mergeInto errors warnings suggestions isValid].
  rewrite Hes, He0, Hws, Hw0, Hs, Hs0, Hv, Hv0, app_nil_r, andb_true_r.
  cbn [app]. repeat split; auto.
Qed.

Lemma validateBatch_only_appends_findings_witness :
  let results :=
    match validateBatch (envAt (Some registry0)) defaultRules [taskPlain] tasks with
    | Some l => l
    | None => []
    end in
  let own := validateRecord (envAt (Some registry0)) defaultRules 0 taskPlain tasks in
  exists r crossErrors crossWarnings,
    nth_error results 0 = Some r
    /\ errors r = errors own ++ crossErrors
    /\ warnings r = warnings own ++ crossWarnings
    /\ suggestions r = suggestions own
    /\ isValid r = isValid own
    /\ Forall (fun e => err_severity e = SevError) crossErrors
    /\ Forall (fun e => err_severity e = SevWarning) crossWarnings.
Proof.
  cbv zeta.
  apply (validateBatch_only_appends_findings decimalHost (envAt (Some registry0))
           defaultRules [taskPlain] tasks _ 0 taskPlain).
  - vm_compute. reflexivity.
  - reflexivity.
Defined.

(** X18.  On a text that is a range a-b with a <= b, [parseNumberList]
    throws when the range has more than 2^32 - 1 integers; and a list that
    it returns, for b up to 2^53, is the list of the integers a, a+1, ...,
    b, of which there are at most 2^32 - 1. *)
Theorem parseNumberList_on_ranges :
  forall (host : JsHost) (s ma mb : string) (a b : Z),
    (String.prefix "[" (trim s) && endsWith (trim s) "]" = true ->
     json_parse_array (trim s) = None) ->
    matchRange (trim s) = Some (ma, mb) ->
    str_to_num ma = ofZ a ->
    str_to_num mb = ofZ b ->
    (0 <= a <= b)%Z ->
    ((4294967295 < b - a + 1)%Z -> parseNumberList (VStr s) = None)
    /\ (forall l,
          parseNumberList (VStr s) = Some l ->
          (b <= 9007199254740992)%Z ->
          l = map (fun i => ofZ (a + Z.of_nat i)) (seq 0 (Z.to_nat (b - a + 1)))
          /\ (Z.of_nat (List.length l) = b - a + 1)%Z
          /\ (b - a + 1 <= 4294967295)%Z).
Proof.
  intros host s ma mb a b Hjson Hrange Ha Hb [Ha0 Hab].
  assert (Hwide : (4294967295 < b - a + 1)%Z -> parseNumberList (VStr s) = None).
  { intros Hwide. cbn [parseNumberList]. cbv zeta.
    assert (Hparsed : (if String.prefix "[" (trim s) && endsWith (trim s) "]"
                       then json_parse_array (trim s) else None) = None).
    { destruct (String.prefix "[" (trim s) && endsWith (trim s) "]"); auto. }
    rewrite Hparsed, Hrange, Ha, Hb.
    assert (Hle : le (ofZ a) (ofZ b) = true).
    { unfold le, ofZ, Qle_bool. simpl. apply Z.leb_le. lia. }
    rewrite Hle. cbn [isFinite ofZ andb]. now apply arrayFromRange_None. }
  split; [exact Hwide|].
  intros l Hl _.
  destruct (Z.le_gt_cases (b - a + 1) 4294967295) as [Hlen|Hgt].
  - rewrite (parseNumberList_range s ma mb a b Hjson Hrange Ha Hb Hab Hlen) in Hl.
    injection Hl as <-. split; [reflexivity|]. split; [|exact Hlen].
    rewrite length_map, length_seq. lia.
  - rewrite (Hwide Hgt) in Hl. discriminate Hl.
Qed.

Lemma parseNumberList_on_ranges_witness :
  ((4294967295 < 8 - 5 + 1)%Z ->
   parseNumberList (host := decimalHost) (VStr " 5 - 8 ") = None)
  /\ (forall l,
        parseNumberList (host := decimalHost) (VStr " 5 - 8 ") = Some l ->
        (8 <= 9007199254740992)%Z ->
        l = map (fun i => ofZ (5 + Z.of_nat i)) (seq 0 (Z.to_nat (8 - 5 + 1)))
        /\ (Z.of_nat (List.length l) = 8 - 5 + 1)%Z
        /\ (8 - 5 + 1 <= 4294967295)%Z).
Proof.
  apply (parseNumberList_on_ranges decimalHost " 5 - 8 " "5" "8" 5 8).
  - discriminate.
  - reflexivity.
  - reflexivity.
  - reflexivity.
  - lia.
Defined.

(* ================================================================== *)
(** ** Duplicates in a batch *)
(* ================================================================== *)

Section DuplicateWarnings.
Context {host : JsHost}.
Variable env : Env.

Lemma grows_keeps_warning r r' w :
  grows r r' -> In w (warnings r) -> In w (warnings r').
Proof.
  intros (_ & _ & (more & ->) & _) Hin. apply in_or_app. now left.
Qed.

Lemma pushWarnings_run (w : ValidationError) (indices : list nat) (k : nat)
  (st : list ValidationResult) :
  Forall (fun i => i < List.length st) indices ->
  exists st',
    forEachFrom (fun index _ => pushWarning index w) indices k st = Normal tt st'
    /\ Forall2 grows st st'
    /\ forall i, In i indices ->
         exists r, nth_error st' i = Some r /\ In w (warnings r).
Proof.
  intros Hall. revert k st Hall.
  induction indices as [|i rest IH]; intros k st Hall; cbn [forEachFrom].
  - exists st. split; [reflexivity|]. split.
    + apply Forall2_R_refl, grows_refl.
    + intros i [].
  - inversion Hall as [|? ? Hi Hrest]; subst.
    unfold bind, pushWarning.
    destruct (nth_error st i) as [r0|] eqn:E;
      [|apply nth_error_None in E; lia].
    set (st1 := updateAt (withWarnings (fun l => l ++ [w])) i st).
    assert (Hlen : List.length st1 = List.length st) by apply updateAt_length.
    assert (G1 : Forall2 grows st st1).
    { apply updateAt_Forall2; [apply grows_refl|]. intros r. apply grows_withWarnings. }
    destruct (IH (S k) st1) as (st' & Hrun & G2 & Hin).
    { rewrite Hlen. exact Hrest. }
    exists st'. split; [exact Hrun|]. split.
    + exact (Forall2_grows_trans _ _ _ G1 G2).
    + intros j [<-|Hj]; [|now apply Hin].
      assert (H1 : nth_error st1 i = Some (withWarnings (fun l => l ++ [w]) r0)).
      { unfold st1. now apply updateAt_nth_same. }
      destruct (Forall2_nth _ _ _ _ _ G2 H1) as (r & Hr & Hg).
      exists r. split; [exact Hr|]. apply (grows_keeps_warning _ _ _ Hg).
      cbn [warnings withWarnings]. apply in_or_app. right. now left.
Qed.

Lemma duplicateWarnings_run (ds : list Duplicate) (k : nat)
  (st : list ValidationResult) :
  Forall (fun d => Forall (fun i => i < List.length st) (dup_indices d)) ds ->
  exists st',
    forEachFrom
      (fun d _ => forEach (fun index _ => pushWarning index (duplicateWarning d))
                          (dup_indices d)) ds k st
    = Normal tt st'
    /\ Forall2 grows st st'
    /\ forall d i, In d ds -> In i (dup_indices d) ->
         exists r, nth_error st' i = Some r /\ In (duplicateWarning d) (warnings r).
Proof.
  intros Hall. revert k st Hall.
  induction ds as [|d rest IH]; intros k st Hall; cbn [forEachFrom].
  - exists st. split; [reflexivity|]. split.
    + apply Forall2_R_refl, grows_refl.
    + intros d i [].
  - inversion Hall as [|? ? Hd Hrest]; subst.
    destruct (pushWarnings_run (duplicateWarning d) (dup_indices d) 0 st Hd)
      as (st1 & Hrun1 & G1 & Hin1).
    assert (Hlen : List.length st1 = List.length st).
    { symmetry. exact (Forall2_length_eq _ _ _ G1). }
    destruct (IH (S k) st1) as (st' & Hrun & G2 & Hin).
    { rewrite Hlen. exact Hrest. }
    exists st'. unfold bind, forEach. rewrite Hrun1. split; [exact Hrun|]. split.
    + exact (Forall2_grows_trans _ _ _ G1 G2).
    + intros d' i [<-|Hd'] Hi; [|now apply Hin].
      destruct (Hin1 i Hi) as (r1 & Hr1 & Hw1).
      destruct (Forall2_nth _ _ _ _ _ G2 Hr1) as (r & Hr & Hg).
      exists r. split; [exact Hr|]. exact (grows_keeps_warning _ _ _ Hg Hw1).
Qed.

Lemma afterDuplicates_grows records dataType :
  Keeps grows
    (bind (when (String.eqb dataType "tasks")
             (bind (checkClientReferences env records)
                (fun _ => bind (checkDurations records)
                            (fun _ => checkPreferredPhases records))))
       (fun _ => bind (when (String.eqb dataType "workers")
                         (checkAvailableSlots records))
                   (fun _ => crossDatasetChecks env records dataType))).
Proof.
  unfold crossDatasetChecks, checkClientReferences, checkDurations,
    checkPreferredPhases, checkAvailableSlots, checkSkillCoverage,
    checkMaxConcurrency, checkPhaseSaturation, checkRequestedTasks.
  keeps grows_refl grows_trans;
    try apply grows_withErrors; try apply grows_withWarnings.
Qed.

Lemma crossRecordBody_duplicates records dataType final :
  crossRecordBody env records dataType (initialResults env records dataType)
  = Normal tt final ->
  forall d i, In d (findDuplicates records dataType) -> In i (dup_indices d) ->
    exists c, nth_error final i = Some c /\ In (duplicateWarning d) (warnings c).
Proof.
  intros Hrun d i Hd Hi. unfold crossRecordBody in Hrun.
  apply bind_Normal in Hrun as ([] & st1 & H1 & Hrest).
  destruct (duplicateWarnings_run (findDuplicates records dataType) 0
              (initialResults env records dataType)) as (st1' & Hrun1 & _ & Hin).
  { unfold initialResults. rewrite initialResultsFrom_length.
    apply findDuplicates_below. }
  assert (H1' : checkDuplicates records dataType (initialResults env records dataType)
                = Normal tt st1') by exact Hrun1.
  rewrite H1' in H1. injection H1 as <-.
  destruct (Hin d i Hd Hi) as (r1 & Hr1 & Hw1).
  pose proof (afterDuplicates_grows records dataType st1') as G.
  rewrite Hrest in G. cbn [finalResults] in G.
  destruct (Forall2_nth _ _ _ _ _ G Hr1) as (c & Hc & Hg).
  exists c. split; [exact Hc|]. exact (grows_keeps_warning _ _ _ Hg Hw1).
Qed.

End DuplicateWarnings.

(** X19.  In a batch that is validated, two records whose values of a key
    field of the data type are truthy and have the same key both get the
    same warning, of severity warning, on that field, with the message
    "Duplicate <field>: <key> found in multiple records" (the key in
    quotes). *)
Theorem duplicate_records_are_both_warned :
  forall (host : JsHost) (env : Env) (rules : RuleMap) (records : list JsObj)
         (dataType : DataTypeKey) (results : list ValidationResult)
         (field key : string) (i j : nat) (ri rj : JsObj),
    validateBatch env rules records dataType = Some results ->
    In field (getKeyFields (keyName dataType)) ->
    i <> j ->
    nth_error records i = Some ri ->
    nth_error records j = Some rj ->
    duplicateKey ri field = Some key ->
    duplicateKey rj field = Some key ->
    exists w resultI resultJ,
      nth_error results i = Some resultI
      /\ nth_error results j = Some resultJ
      /\ In w (warnings resultI)
      /\ In w (warnings resultJ)
      /\ err_field w = field
      /\ err_severity w = SevWarning
      /\ err_message w
         = ("Duplicate " ++ field ++ ": " ++ quoted key
            ++ " found in multiple records")%string.
Proof.
  intros host env rules records dataType results field key i j ri rj
         Hbatch Hfield Hne Hi Hj Hki Hkj.
  assert (Ii : In i (indicesFrom (filedUnder field key) records 0))
    by (apply indicesFrom_records; eauto).
  assert (Ij : In j (indicesFrom (filedUnder field key) records 0))
    by (apply indicesFrom_records; eauto).
  set (d := {| dup_indices := indicesFrom (filedUnder field key) records 0;
               dup_field := field;
               dup_message := duplicateMessage field key |}).
  assert (Hd : In d (findDuplicates records (keyName dataType))).
  { unfold findDuplicates. apply in_flat_map. exists field. split; [exact Hfield|].
    apply duplicatesOfField_spec. exists key. split; [reflexivity|].
    exact (two_members _ i j Hne Ii Ij). }
  apply validateBatch_Some in Hbatch as (cross & Hcross & ->).
  unfold performCrossRecordValidation in Hcross.
  destruct (crossRecordBody env records (keyName dataType)
              (initialResults env records (keyName dataType))) as [[] st|st] eqn:Hrun;
    [|discriminate Hcross].
  injection Hcross as <-.
  destruct (crossRecordBody_duplicates env records (keyName dataType) st Hrun d i Hd Ii)
    as (ci & Hci & Hwi).
  destruct (crossRecordBody_duplicates env records (keyName dataType) st Hrun d j Hd Ij)
    as (cj & Hcj & Hwj).
  pose proof (validateRecordsFrom_nth env rules records dataType 0 i ri Hi) as Hpi.
  pose proof (validateRecordsFrom_nth env rules records dataType 0 j rj Hj) as Hpj.
  cbn [Nat.add] in Hpi, Hpj.
  exists (duplicateWarning d),
         (mergeInto (validateRecord env rules i ri dataType) ci),
         (mergeInto (validateRecord env rules j rj dataType) cj).
  rewrite (mergeZip_nth _ _ _ _ _ Hpi Hci), (mergeZip_nth _ _ _ _ _ Hpj Hcj).
  cbn [mergeInto warnings]. repeat split; try reflexivity.
  - apply in_or_app. now right.
  - apply in_or_app. now right.
Qed.

Lemma duplicate_records_are_both_warned_witness :
  let records := [[("name", VStr "Ana"); ("email", VStr "Ana@Mail.io")];
                  [("name", VStr "Bo"); ("email", VStr "bo@mail.io")];
                  [("name", VStr "Ana B"); ("email", VStr " ana@mail.io ")]] in
  let results :=
    match validateBatch (envAt (Some registry0)) defaultRules records workers with
    | Some l => l
    | None => []
    end in
  exists w resultI resultJ,
    nth_error results 0 = Some resultI
    /\ nth_error results 2 = Some resultJ
    /\ In w (warnings resultI)
    /\ In w (warnings resultJ)
    /\ err_field w = "email"
    /\ err_severity w = SevWarning
    /\ err_message w
       = ("Duplicate " ++ "email" ++ ": " ++ quoted "ana@mail.io"
          ++ " found in multiple records")%string.
Proof.
  cbv zeta.
  apply (duplicate_records_are_both_warned decimalHost (envAt (Some registry0))
           defaultRules
           [[("name", VStr "Ana"); ("email", VStr "Ana@Mail.io")];
            [("name", VStr "Bo"); ("email", VStr "bo@mail.io")];
            [("name", VStr "Ana B"); ("email", VStr " ana@mail.io ")]]
           workers _ "email" "ana@mail.io" 0 2
           [("name", VStr "Ana"); ("email", VStr "Ana@Mail.io")]
           [("name", VStr "Ana B"); ("email", VStr " ana@mail.io ")]).
  - vm_compute. reflexivity.
  - right. left. reflexivity.
  - discriminate.
  - reflexivity.
  - reflexivity.
  - reflexivity.
  - reflexivity.
Defined.

(* ================================================================== *)
(** ** The errors of a record do not depend on the rest of the batch *)
(* ================================================================== *)

Section AddsErrors.
Context {X : Type}.

Lemma addsErrors_same (xs : list X) (st st' : list ValidationResult) :
  Forall2 sameErrors st st' -> addsErrors (fun _ => []) xs st st'.
Proof.
  intros H. split.
  - symmetry. exact (Forall2_length_eq _ _ _ H).
  - intros i x r _ Hr. destruct (Forall2_nth _ _ _ _ _ H Hr) as (r' & Hr' & Hs).
    exists r'. split; [exact Hr'|]. rewrite app_nil_r. exact Hs.
Qed.

Lemma addsErrors_trans (f g : X -> list ValidationError) (xs : list X)
  (st st1 st2 : list ValidationResult) :
  addsErrors f xs st st1 -> addsErrors g xs st1 st2 ->
  addsErrors (fun x => f x ++ g x) xs st st2.
Proof.
  intros [L1 H1] [L2 H2]. split; [congruence|].
  intros i x r Hx Hr. destruct (H1 i x r Hx Hr) as (r1 & Hr1 & E1).
  destruct (H2 i x r1 Hx Hr1) as (r2 & Hr2 & E2).
  exists r2. split; [exact Hr2|]. now rewrite E2, E1, app_assoc.
Qed.

Lemma addsErrors_ext (f g : X -> list ValidationError) (xs : list X)
  (st st' : list ValidationResult) :
  (forall x, f x = g x) -> addsErrors f xs st st' -> addsErrors g xs st st'.
Proof.
  intros Hfg [L H]. split; [exact L|]. intros i x r Hx Hr.
  destruct (H i x r Hx Hr) as (r' & Hr' & E). exists r'. now rewrite <- Hfg.
Qed.

Lemma pushWhere_length (c : X -> bool) (e : X -> ValidationError) (xs : list X)
  (st : list ValidationResult) :
  List.length (pushWhere c e xs st) = List.length st.
Proof.
  revert st. induction xs as [|x xs IH]; intros [|r st]; cbn [pushWhere List.length];
    auto.
Qed.

Lemma addsErrors_pushWhere (c : X -> bool) (e : X -> ValidationError) (xs : list X)
  (st : list ValidationResult) :
  addsErrors (fun x => errorWhen (c x) (e x)) xs st (pushWhere c e xs st).
Proof.
  split; [apply pushWhere_length|]. intros i x r Hx Hr.
  rewrite (pushWhere_nth c e xs st i x r Hx Hr). eexists. split; [reflexivity|].
  unfold errorWhen. destruct (c x); cbn [errors withErrors]; [reflexivity|].
  now rewrite app_nil_r.
Qed.

End AddsErrors.

Section ParsedLists.
Context {host : JsHost}.

(** A loop that parses a list of each record, when it is given, and pushes
    an error when the list is refused: if it completes, it has pushed the
    error where the list was refused. *)
Lemma forEachFrom_listRefused (raw : JsObj -> JsValue) (refuse : list JsNum -> bool)
  (e : ValidationError) (records : list JsObj) (pre st final : list ValidationResult) :
  List.length records <= List.length st ->
  forEachFrom
    (fun record index =>
       if isUndefined (raw record) then ret tt else
       bind (orThrow (parseNumberList (raw record)))
            (fun l => when (refuse l) (pushError index e)))
    records (List.length pre) (pre ++ st)
  = Normal tt final ->
  final = pre ++ pushWhere (fun record => listRefused (raw record) refuse)
                           (fun _ => e) records st.
Proof.
  revert pre st. induction records as [|x xs IH]; intros pre st Hlen Hrun.
  - cbn [forEachFrom ret] in Hrun. injection Hrun as <-. now destruct st.
  - destruct st as [|r st]; [cbn [List.length] in Hlen; lia|].
    cbn [forEachFrom] in Hrun. apply bind_Normal in Hrun as ([] & st1 & Hstep & Hrun).
    assert (Hst1 : st1 = pre ++ (if listRefused (raw x) refuse
                                 then withErrors (fun l => l ++ [e]) r else r) :: st).
    { unfold listRefused. destruct (isUndefined (raw x)).
      - cbn [ret negb andb] in *. now injection Hstep as <-.
      - destruct (parseNumberList (raw x)) as [l|]; cbn [orThrow negb andb] in *.
        + unfold bind, ret in Hstep. destruct (refuse l); cbn [when] in Hstep.
          * unfold pushError in Hstep. rewrite nth_error_app2 in Hstep by lia.
            rewrite Nat.sub_diag in Hstep. cbn [nth_error] in Hstep.
            injection Hstep as <-. now rewrite updateAt_app.
          * unfold ret in Hstep. now injection Hstep as <-.
        + unfold bind, throw in Hstep. discriminate Hstep. }
    subst st1. set (r' := if listRefused (raw x) refuse then _ else r) in *.
    replace (pre ++ r' :: st) with ((pre ++ [r']) ++ st) in Hrun
      by (now rewrite <- app_assoc).
    replace (S (List.length pre)) with (List.length (pre ++ [r'])) in Hrun
      by (rewrite length_app; cbn [List.length]; lia).
    apply IH in Hrun; [|cbn [List.length] in Hlen; lia].
    rewrite Hrun, <- app_assoc. reflexivity.
Qed.

End ParsedLists.

Section ErrorsOfARecord.
Context {host : JsHost}.
Variable env : Env.

Lemma when_adds (b : bool) (m : Exec unit) (f : JsObj -> list ValidationError)
  (records : list JsObj) (st final : list ValidationResult) :
  (b = true -> m st = Normal tt final -> addsErrors f records st final) ->
  when b m st = Normal tt final ->
  addsErrors (fun record => if b then f record else []) records st final.
Proof.
  intros Hm Hrun. destruct b; cbn [when] in Hrun.
  - now apply Hm.
  - unfold ret in Hrun. injection Hrun as <-.
    apply addsErrors_same, Forall2_R_refl, sameErrors_refl.
Qed.

Lemma taskChecks_adds (records : list JsObj) (st final : list ValidationResult) :
  List.length st = List.length records ->
  bind (checkClientReferences env records)
    (fun _ => bind (checkDurations records)
                (fun _ => checkPreferredPhases records)) st
  = Normal tt final ->
  addsErrors (taskErrorsOf env) records st final.
Proof.
  intros Hlen Hrun.
  apply bind_Normal in Hrun as ([] & s1 & H1 & Hrun).
  apply bind_Normal in Hrun as ([] & s2 & H2 & H3).
  set (c1 := fun record : JsObj =>
               truthy (clientReferenceOf record)
               && negb (isValidClientReference env (clientReferenceOf record))).
  set (c2 := fun record : JsObj =>
               negb (isFinite (durationOf record)) || lt (durationOf record) (ofNat 1)).
  assert (E1 : checkClientReferences env records st
               = Normal tt (pushWhere c1 (fun _ => clientReferenceError) records st)).
  { apply (forEach_pushWhere c1 (fun _ => clientReferenceError) records st). lia. }
  rewrite E1 in H1. injection H1 as <-.
  assert (E2 : checkDurations records (pushWhere c1 (fun _ => clientReferenceError) records st)
               = Normal tt (pushWhere c2 (fun _ => durationError) records
                              (pushWhere c1 (fun _ => clientReferenceError) records st))).
  { apply (forEach_pushWhere c2 (fun _ => durationError) records).
    rewrite pushWhere_length. lia. }
  rewrite E2 in H2. injection H2 as <-.
  apply (forEachFrom_listRefused
           (fun record => nullish (getProp record "PreferredPhases")
                                  (getProp record "preferredPhases"))
           (fun phases => isEmpty phases) preferredPhasesError records []) in H3;
    [|rewrite !pushWhere_length; lia].
  cbn [app] in H3. subst final.
  apply (addsErrors_ext
           (fun record =>
              errorWhen (c1 record) clientReferenceError
              ++ (errorWhen (c2 record) durationError
                  ++ errorWhen
                       (listRefused (nullish (getProp record "PreferredPhases")
                                             (getProp record "preferredPhases"))
                                    (fun phases => isEmpty phases))
                       preferredPhasesError))).
  { reflexivity. }
  eapply addsErrors_trans; [apply addsErrors_pushWhere|].
  eapply addsErrors_trans; [apply addsErrors_pushWhere|].
  apply (addsErrors_pushWhere
           (fun record => listRefused (nullish (getProp record "PreferredPhases")
                                               (getProp record "preferredPhases"))
                                      (fun phases => isEmpty phases))
           (fun _ => preferredPhasesError)).
Qed.

Lemma checkAvailableSlots_adds (records : list JsObj) (st final : list ValidationResult) :
  List.length st = List.length records ->
  checkAvailableSlots records st = Normal tt final ->
  addsErrors workerErrorsOf records st final.
Proof.
  intros Hlen Hrun.
  apply (forEachFrom_listRefused
           (fun record => nullish (getProp record "AvailableSlots")
                                  (getProp record "availableSlots"))
           (fun slots => isEmpty slots || existsb (fun n => negb (isFinite n)) slots)
           availableSlotsError records []) in Hrun; [|lia].
  cbn [app] in Hrun. subst final.
  apply (addsErrors_pushWhere
           (fun record => listRefused (nullish (getProp record "AvailableSlots")
                                               (getProp record "availableSlots"))
                            (fun slots => isEmpty slots
                                          || existsb (fun n => negb (isFinite n)) slots))
           (fun _ => availableSlotsError)).
Qed.

Lemma checkPhaseSaturation_sameErrors (registryWorkers records : list JsObj) :
  Keeps sameErrors (checkPhaseSaturation registryWorkers records).
Proof.
  unfold checkPhaseSaturation. keeps sameErrors_refl sameErrors_trans.
Qed.

End ErrorsOfARecord.

Section RegistryErrors.
Context {host : JsHost}.
Variable env : Env.

Lemma coverage_adds (registryWorkers records : list JsObj)
  (st final : list ValidationResult) :
  List.length st = List.length records ->
  finalResults
    (bind (checkSkillCoverage registryWorkers records)
       (fun _ => bind (checkMaxConcurrency registryWorkers records)
                   (fun _ => checkPhaseSaturation registryWorkers records)) st)
  = final ->
  addsErrors (coverageErrorsOf registryWorkers) records st final.
Proof.
  intros Hlen Hrun.
  set (c1 := fun t : JsObj =>
               negb (isEmpty (missingSkills (workerSkillsOf registryWorkers) t))).
  set (e1 := fun t : JsObj =>
               skillCoverageError (missingSkills (workerSkillsOf registryWorkers) t)).
  set (q := fun t : JsObj =>
              qualifiedWorkers registryWorkers (map toLowerCase (requiredSkillsOf t))).
  set (c2 := fun t : JsObj =>
               isFinite (maxConcurrentOf t) && gt (maxConcurrentOf t) (ofNat (q t))).
  set (e2 := fun t : JsObj => maxConcurrentError (maxConcurrentOf t) (q t)).
  assert (E1 : checkSkillCoverage registryWorkers records st
               = Normal tt (pushWhere c1 e1 records st)).
  { apply (forEach_pushWhere c1 e1 records st). lia. }
  assert (E2 : checkMaxConcurrency registryWorkers records (pushWhere c1 e1 records st)
               = Normal tt (pushWhere c2 e2 records (pushWhere c1 e1 records st))).
  { apply (forEach_pushWhere c2 e2 records). rewrite pushWhere_length. lia. }
  unfold bind in Hrun. rewrite E1, E2 in Hrun.
  pose proof (checkPhaseSaturation_sameErrors registryWorkers records
                (pushWhere c2 e2 records (pushWhere c1 e1 records st))) as Hsat.
  rewrite Hrun in Hsat.
  apply (addsErrors_ext (fun t => errorWhen (c1 t) (e1 t)
                                  ++ (errorWhen (c2 t) (e2 t) ++ []))).
  { intros t. now rewrite app_nil_r. }
  eapply addsErrors_trans; [apply addsErrors_pushWhere|].
  eapply addsErrors_trans; [apply addsErrors_pushWhere|].
  now apply addsErrors_same.
Qed.

Lemma crossDatasetChecks_adds (records : list JsObj) (dataType : string)
  (st final : list ValidationResult) :
  List.length st = List.length records ->
  crossDatasetChecks env records dataType st = Normal tt final ->
  addsErrors (registryErrorsOf env dataType) records st final.
Proof.
  intros Hlen Hrun. unfold crossDatasetChecks, tryCatch in Hrun. cbv zeta in Hrun.
  match type of Hrun with
  | match ?m with _ => _ end = _ =>
      assert (Hfinal : finalResults m = final)
        by (destruct m as [[] s|s]; now injection Hrun as <-)
  end.
  clear Hrun. unfold registryErrorsOf.
  destruct (registry env) as [reg|].
  - cbn [orThrow] in Hfinal. unfold bind at 1 in Hfinal. unfold ret at 1 in Hfinal.
    cbv zeta.
    destruct (negb (isEmpty (getData tasks reg))
              && negb (isEmpty (getData workers reg))
              && String.eqb dataType "tasks") eqn:On.
    + assert (Hdt : dataType = "tasks").
      { apply andb_true_iff in On. destruct On as [_ E]. now apply String.eqb_eq. }
      subst dataType. rewrite andb_false_r. cbn [when] in Hfinal.
      change (String.eqb "tasks" "clients") with false in Hfinal.
      rewrite andb_false_r in Hfinal. cbn [when] in Hfinal.
      apply (addsErrors_ext (coverageErrorsOf (getData workers reg)));
        [intros record; now rewrite app_nil_r|].
      apply coverage_adds; [exact Hlen|].
      rewrite <- Hfinal. unfold bind.
      destruct (checkSkillCoverage (getData workers reg) records st) as [[] s1|s1];
        [|reflexivity].
      destruct (checkMaxConcurrency (getData workers reg) records s1) as [[] s2|s2];
        [|reflexivity].
      destruct (checkPhaseSaturation (getData workers reg) records s2) as [[] s3|s3];
        reflexivity.
    + cbn [when app] in Hfinal. unfold bind, ret in Hfinal.
      destruct (negb (isEmpty (getData clients reg))
                && negb (isEmpty (getData tasks reg))
                && String.eqb dataType "clients") eqn:Oc; cbn [when] in Hfinal.
      * unfold requestErrorsOf. cbv zeta.
        set (c := fun x : JsObj =>
                    negb (isEmpty (unknownTaskIds (knownTaskIds (getData tasks reg)) x))).
        set (e := fun x : JsObj =>
                    unknownTaskIdsError
                      (unknownTaskIds (knownTaskIds (getData tasks reg)) x)).
        assert (E : checkRequestedTasks (getData tasks reg) records st
                    = Normal tt (pushWhere c e records st)).
        { apply (forEach_pushWhere c e records st). lia. }
        rewrite E in Hfinal. cbn [finalResults] in Hfinal. subst final.
        apply (addsErrors_pushWhere c e).
      * unfold ret in Hfinal. cbn [finalResults] in Hfinal. subst final.
        apply addsErrors_same, Forall2_R_refl, sameErrors_refl.
  - cbn [orThrow] in Hfinal. unfold bind, throw in Hfinal. cbn [finalResults] in Hfinal.
    subst final. apply addsErrors_same, Forall2_R_refl, sameErrors_refl.
Qed.

End RegistryErrors.

Section CrossErrorsOfARecord.
Context {host : JsHost}.
Variable env : Env.

Lemma crossRecordBody_adds (records : list JsObj) (dataType : string)
  (init final : list ValidationResult) :
  List.length init = List.length records ->
  crossRecordBody env records dataType init = Normal tt final ->
  addsErrors (crossErrorsOf env dataType) records init final.
Proof.
  intros Hlen Hrun. unfold crossRecordBody in Hrun.
  apply bind_Normal in Hrun as ([] & s1 & H1 & Hrun).
  apply bind_Normal in Hrun as ([] & s2 & H2 & Hrun).
  apply bind_Normal in Hrun as ([] & s3 & H3 & H4).
  assert (A1 : addsErrors (fun _ : JsObj => []) records init s1).
  { apply addsErrors_same.
    pose proof (checkDuplicates_sameErrors records dataType init) as G.
    now rewrite H1 in G. }
  assert (L1 : List.length s1 = List.length records) by (destruct A1; congruence).
  assert (A2 : addsErrors (fun record => if String.eqb dataType "tasks"
                                         then taskErrorsOf env record else [])
                 records s1 s2).
  { refine (when_adds _ _ (taskErrorsOf env) records s1 s2 _ H2).
    intros _. now apply taskChecks_adds. }
  assert (L2 : List.length s2 = List.length records) by (destruct A2; congruence).
  assert (A3 : addsErrors (fun record => if String.eqb dataType "workers"
                                         then workerErrorsOf record else [])
                 records s2 s3).
  { refine (when_adds _ _ workerErrorsOf records s2 s3 _ H3).
    intros _. now apply checkAvailableSlots_adds. }
  assert (L3 : List.length s3 = List.length records) by (destruct A3; congruence).
  pose proof (crossDatasetChecks_adds env records dataType s3 final L3 H4) as A4.
  apply (addsErrors_ext
           (fun record =>
              [] ++ ((if String.eqb dataType "tasks" then taskErrorsOf env record else [])
                     ++ ((if String.eqb dataType "workers"
                          then workerErrorsOf record else [])
                         ++ registryErrorsOf env dataType record)))).
  { reflexivity. }
  eapply addsErrors_trans; [exact A1|].
  eapply addsErrors_trans; [exact A2|].
  eapply addsErrors_trans; [exact A3|exact A4].
Qed.

(** The errors of a result of a batch: those of [validateRecord], then
    those of the cross-record checks on the record. *)
Lemma validateBatch_errors (rules : RuleMap) (records : list JsObj)
  (dataType : DataTypeKey) (results : list ValidationResult) (i : nat)
  (record : JsObj) :
  validateBatch env rules records dataType = Some results ->
  nth_error records i = Some record ->
  exists r,
    nth_error results i = Some r
    /\ errors r = errors (validateRecord env rules i record dataType)
                  ++ crossErrorsOf env (keyName dataType) record.
Proof.
  intros Hbatch Hrec.
  apply validateBatch_Some in Hbatch as (cross & Hcross & ->).
  unfold performCrossRecordValidation in Hcross.
  destruct (crossRecordBody env records (keyName dataType)
              (initialResults env records (keyName dataType))) as [[] st|st] eqn:Hrun;
    [|discriminate Hcross].
  injection Hcross as <-.
  destruct (crossRecordBody_adds records (keyName dataType) _ st
              (initialResultsFrom_length env records (keyName dataType) 0) Hrun)
    as [_ Hadds].
  destruct (initialResults_nth env records (keyName dataType) i record Hrec)
    as (r0 & Hr0 & He0).
  destruct (Hadds i record r0 Hrec Hr0) as (c & Hc & Hec).
  pose proof (validateRecordsFrom_nth env rules records dataType 0 i record Hrec) as Hper.
  cbn [Nat.add] in Hper.
  exists (mergeInto (validateRecord env rules i record dataType) c).
  rewrite (mergeZip_nth _ _ _ _ _ Hper Hc). split; [reflexivity|].
  cbn [mergeInto errors]. now rewrite Hec, He0.
Qed.

End CrossErrorsOfARecord.

(* ================================================================== *)
(** ** Skill coverage *)
(* ================================================================== *)

Section SkillCoverage.
Context {host : JsHost}.

Lemma inList_map_toLowerCase (skill : string) (skills : list string) :
  inList (toLowerCase skill) (map toLowerCase skills)
  = existsb (fun has => String.eqb (toLowerCase has) (toLowerCase skill)) skills.
Proof.
  unfold inList. induction skills as [|has rest IH]; cbn [map existsb]; [reflexivity|].
  now rewrite IH, (String.eqb_sym (toLowerCase skill)).
Qed.

Lemma inList_workerSkillsOf (registryWorkers : list JsObj) (skill : string) :
  inList (toLowerCase skill) (workerSkillsOf registryWorkers)
  = coveredBy registryWorkers skill.
Proof.
  unfold workerSkillsOf, coveredBy.
  induction registryWorkers as [|w rest IH]; cbn [flat_map existsb]; [reflexivity|].
  unfold inList in *. rewrite map_app, existsb_app, IH.
  f_equal. apply inList_map_toLowerCase.
Qed.

(** What the code computes is what the specification names. *)
Lemma missingSkills_uncovered (registryWorkers : list JsObj) (t : JsObj) :
  missingSkills (workerSkillsOf registryWorkers) t = uncoveredSkills registryWorkers t.
Proof.
  unfold missingSkills, uncoveredSkills. apply filter_ext. intros skill.
  now rewrite inList_workerSkillsOf.
Qed.

Lemma coveredBy_spec (registryWorkers : list JsObj) (skill : string) :
  coveredBy registryWorkers skill = true
  <-> exists w has, In w registryWorkers /\ In has (skillsOf w)
                    /\ toLowerCase has = toLowerCase skill.
Proof.
  unfold coveredBy. rewrite existsb_exists. split.
  - intros (w & Hw & H). apply existsb_exists in H as (has & Hhas & E).
    apply String.eqb_eq in E. eauto.
  - intros (w & has & Hw & Hhas & E). exists w. split; [exact Hw|].
    apply existsb_exists. exists has. split; [exact Hhas|]. now apply String.eqb_eq.
Qed.

Lemma uncoveredSkills_spec (registryWorkers : list JsObj) (t : JsObj) (skill : string) :
  In skill (uncoveredSkills registryWorkers t)
  <-> In skill (requiredSkillsOf t)
      /\ forall w has, In w registryWorkers -> In has (skillsOf w) ->
           toLowerCase has <> toLowerCase skill.
Proof.
  unfold uncoveredSkills. rewrite filter_In, negb_true_iff. split.
  - intros [Hin Hcov]. split; [exact Hin|]. intros w has Hw Hhas E.
    assert (C : coveredBy registryWorkers skill = true)
      by (apply coveredBy_spec; eauto).
    congruence.
  - intros [Hin Hnone]. split; [exact Hin|].
    destruct (coveredBy registryWorkers skill) eqn:C; [|reflexivity].
    apply coveredBy_spec in C as (w & has & Hw & Hhas & E).
    now elim (Hnone w has Hw Hhas).
Qed.

Variable env : Env.

Lemma reportedOn_app (field : string) (l1 l2 : list ValidationError) :
  reportedOn field (l1 ++ l2) = reportedOn field l1 ++ reportedOn field l2.
Proof. apply filter_app. Qed.

Lemma reportedOn_errorWhen (field : string) (c : bool) (e : ValidationError) :
  reportedOn field (errorWhen c e)
  = errorWhen (c && String.eqb (err_field e) field) e.
Proof.
  unfold reportedOn, errorWhen. destruct c; cbn [filter andb]; [|reflexivity].
  now destruct (String.eqb (err_field e) field).
Qed.

(** Of the errors that the cross-record validation adds to a task, the
    one on the required skills. *)
Lemma crossErrorsOf_RequiredSkills (reg : Registry) (t : JsObj) :
  registry env = Some reg ->
  getData workers reg <> [] -> getData tasks reg <> [] ->
  reportedOn "RequiredSkills" (crossErrorsOf env "tasks" t)
  = errorWhen (negb (isEmpty (uncoveredSkills (getData workers reg) t)))
              (skillCoverageError (uncoveredSkills (getData workers reg) t)).
Proof.
  intros Hreg Hw Ht. unfold crossErrorsOf, registryErrorsOf. rewrite Hreg. cbv zeta.
  destruct (getData workers reg) as [|w ws] eqn:Ew; [congruence|].
  destruct (getData tasks reg) as [|t0 ts] eqn:Et; [congruence|].
  change (String.eqb "tasks" "tasks") with true.
  change (String.eqb "tasks" "workers") with false.
  change (String.eqb "tasks" "clients") with false.
  cbn [isEmpty negb andb]. rewrite andb_false_r.
  unfold taskErrorsOf, coverageErrorsOf. cbv zeta.
  rewrite !reportedOn_app, !reportedOn_errorWhen, missingSkills_uncovered.
  cbn [err_field clientReferenceError durationError preferredPhasesError
       skillCoverageError maxConcurrentError mkError].
  change (String.eqb "RequiredSkills" "RequiredSkills") with true.
  rewrite andb_true_r.
  repeat match goal with
         | |- context [errorWhen (?c && String.eqb ?a ?b) ?e] =>
             change (String.eqb a b) with false; rewrite (andb_false_r c)
         end.
  cbn [errorWhen app reportedOn filter]. now rewrite !app_nil_r.
Qed.

End SkillCoverage.

(** C6, as the code has it.  With workers and tasks in the registry, in
    the results that [validateBatch] returns for a batch of tasks, the
    errors of a task are those of its own validation followed by the
    cross-record ones, of which exactly one is on the required skills when
    some required skill is had by no worker of the registry, up to case,
    and none otherwise; its message lists the required skills that are not
    covered, in their order.  With one worker of skills [React], a task
    that requires [React; Python] gets an error that names Python and not
    React. *)
Theorem skill_coverage_names_uncovered_skill :
  forall (host : JsHost) (env : Env) (rules : RuleMap) (records : list JsObj)
         (results : list ValidationResult) (reg : Registry) (t : JsObj) (i : nat),
    registry env = Some reg ->
    getData workers reg <> [] ->
    getData tasks reg <> [] ->
    validateBatch env rules records tasks = Some results ->
    nth_error records i = Some t ->
    let missing := uncoveredSkills (getData workers reg) t in
    (forall skill,
       In skill missing
       <-> In skill (requiredSkillsOf t)
           /\ forall w has, In w (getData workers reg) -> In has (skillsOf w) ->
                toLowerCase has <> toLowerCase skill)
    /\ exists r added,
         nth_error results i = Some r
         /\ errors r = errors (validateRecord env rules i t tasks) ++ added
         /\ reportedOn "RequiredSkills" added
            = (if isEmpty missing then [] else [skillCoverageError missing])
         /\ err_severity (skillCoverageError missing) = SevError
         /\ err_message (skillCoverageError missing)
            = ("Missing worker coverage for skills: " ++ join ", " missing)%string
         /\ (forall w,
               getData workers reg = [w] -> skillsOf w = ["React"] ->
               requiredSkillsOf t = ["React"; "Python"] ->
               exists e,
                 In e (errors r)
                 /\ err_severity e = SevError
                 /\ err_message e = "Missing worker coverage for skills: Python"
                 /\ includes (err_message e) "Python" = true
                 /\ includes (err_message e) "React" = false).
Proof.
  intros host env rules records results reg t i Hreg Hw Ht Hbatch Hrec missing.
  split; [intros skill; apply uncoveredSkills_spec|].
  destruct (validateBatch_errors env rules records tasks results i t Hbatch Hrec)
    as (r & Hr & He).
  cbn [keyName] in He.
  pose proof (crossErrorsOf_RequiredSkills env reg t Hreg Hw Ht) as Hon.
  fold missing in Hon.
  exists r, (crossErrorsOf env "tasks" t).
  split; [exact Hr|]. split; [exact He|]. split.
  { rewrite Hon. unfold errorWhen. now destruct missing. }
  split; [reflexivity|]. split; [reflexivity|].
  intros w Ew Hskills Hreq.
  assert (Hmissing : missing = ["Python"]).
  { unfold missing, uncoveredSkills, coveredBy. rewrite Ew, Hreq.
    cbn [existsb filter]. rewrite Hskills. reflexivity. }
  exists (skillCoverageError ["Python"]). split.
  - rewrite He. apply in_or_app. right.
    assert (Hin : In (skillCoverageError ["Python"])
                    (reportedOn "RequiredSkills" (crossErrorsOf env "tasks" t))).
    { rewrite Hon, Hmissing. now left. }
    unfold reportedOn in Hin. now apply filter_In in Hin.
  - repeat split; reflexivity.
Qed.

(** The theorem of C6 on the scenario of the claim, one worker of skills
    [React] and a task that requires [React; Python], and on a registry
    with two workers, where React is covered by the skill REACT of the
    second one and Python by neither. *)
Lemma skill_coverage_names_uncovered_skill_witness :
  (exists results,
     validateBatch (envAt (Some (registryOf [] [workerReact] [taskReactPython])))
       defaultRules [taskReactPython] tasks = Some results
     /\ exists r e,
          nth_error results 0 = Some r
          /\ In e (errors r)
          /\ err_severity e = SevError
          /\ err_message e = "Missing worker coverage for skills: Python"
          /\ includes (err_message e) "Python" = true
          /\ includes (err_message e) "React" = false)
  /\ (exists results,
        validateBatch
          (envAt (Some (registryOf [] [workerNode; workerUpperReact] [taskT1])))
          defaultRules [taskPlain; taskReactPython] tasks = Some results
        /\ exists r added,
             nth_error results 1 = Some r
             /\ errors r
                = errors (validateRecord
                            (envAt (Some (registryOf [] [workerNode; workerUpperReact]
                                            [taskT1])))
                            defaultRules 1 taskReactPython tasks) ++ added
             /\ reportedOn "RequiredSkills" added = [skillCoverageError ["Python"]]
             /\ err_message (skillCoverageError ["Python"])
                = "Missing worker coverage for skills: Python").
Proof.
  split.
  - eexists. split; [vm_compute; reflexivity|].
    destruct (skill_coverage_names_uncovered_skill decimalHost
                (envAt (Some (registryOf [] [workerReact] [taskReactPython])))
                defaultRules [taskReactPython] _
                (registryOf [] [workerReact] [taskReactPython]) taskReactPython 0
                eq_refl ltac:(discriminate) ltac:(discriminate) eq_refl eq_refl)
      as (_ & r & added & Hr & _ & _ & _ & _ & Hclaim).
    destruct (Hclaim workerReact eq_refl eq_refl eq_refl) as (e & He).
    exists r, e. split; [exact Hr|exact He].
  - eexists. split; [vm_compute; reflexivity|].
    destruct (skill_coverage_names_uncovered_skill decimalHost
                (envAt (Some (registryOf [] [workerNode; workerUpperReact] [taskT1])))
                defaultRules [taskPlain; taskReactPython] _
                (registryOf [] [workerNode; workerUpperReact] [taskT1])
                taskReactPython 1
                eq_refl ltac:(discriminate) ltac:(discriminate) eq_refl eq_refl)
      as (_ & r & added & Hr & He & Hon & _ & Hmsg & _).
    exists r, added. split; [exact Hr|]. split; [exact He|].
    split; [exact Hon|exact Hmsg].
Defined.

(** C6, as stated, fails: with the worker in the registry and no task
    there, the task requiring React and Python gets no error at all. *)
Lemma skill_coverage_skipped_without_registry_tasks :
  getData workers (registryOf [] [workerReact] []) = [workerReact]
  /\ skillsOf workerReact = ["React"]
  /\ requiredSkillsOf taskReactPython = ["React"; "Python"]
  /\ exists r,
       validateBatch (envAt (Some (registryOf [] [workerReact] []))) defaultRules
         [taskReactPython] tasks = Some [r]
       /\ errors r = [].
Proof.
  repeat split; try reflexivity.
  eexists. split; [vm_compute; reflexivity | reflexivity].
Qed.

(** X20.  The errors that [validateBatch] adds to those of [validateRecord]
    depend on the record and the registry alone: a record gets the same
    cross-record errors in any two batches of its data type that are
    validated, wherever it stands in them, whatever the other records and
    the rules are. *)
Theorem cross_errors_depend_on_the_record_alone :
  forall (host : JsHost) (env : Env) (rules rules' : RuleMap)
         (records records' : list JsObj) (dataType : DataTypeKey)
         (results results' : list ValidationResult) (i j : nat) (record : JsObj),
    validateBatch env rules records dataType = Some results ->
    validateBatch env rules' records' dataType = Some results' ->
    nth_error records i = Some record ->
    nth_error records' j = Some record ->
    exists r r' crossErrors,
      nth_error results i = Some r
      /\ nth_error results' j = Some r'
      /\ errors r = errors (validateRecord env rules i record dataType) ++ crossErrors
      /\ errors r' = errors (validateRecord env rules' j record dataType) ++ crossErrors.
Proof.
  intros host env rules rules' records records' dataType results results' i j record
         Hb Hb' Hi Hj.
  destruct (validateBatch_errors env rules records dataType results i record Hb Hi)
    as (r & Hr & He).
  destruct (validateBatch_errors env rules' records' dataType results' j record Hb' Hj)
    as (r' & Hr' & He').
  exists r, r', (crossErrorsOf env (keyName dataType) record). auto.
Qed.

Lemma cross_errors_depend_on_the_record_alone_witness :
  let env := envAt (Some registry0) in
  let results :=
    match validateBatch env defaultRules [taskPlain; taskOfClient] tasks with
    | Some l => l
    | None => []
    end in
  let results' :=
    match validateBatch env [] [taskOfClient] tasks with
    | Some l => l
    | None => []
    end in
  exists r r' crossErrors,
    nth_error results 1 = Some r
    /\ nth_error results' 0 = Some r'
    /\ errors r = errors (validateRecord env defaultRules 1 taskOfClient tasks)
                  ++ crossErrors
    /\ errors r' = errors (validateRecord env [] 0 taskOfClient tasks) ++ crossErrors.
Proof.
  cbv zeta.
  apply (cross_errors_depend_on_the_record_alone decimalHost (envAt (Some registry0))
           defaultRules [] [taskPlain; taskOfClient] [taskOfClient] tasks).
  - vm_compute. reflexivity.
  - vm_compute. reflexivity.
  - reflexivity.
  - reflexivity.
Defined.

Section OnePerCheck.
Context {host : JsHost}.
Variable env : Env.

Lemma crossErrorsOf_fields (dataType : DataTypeKey) (record : JsObj) :
  NoDup (map err_field (crossErrorsOf env (keyName dataType) record))
  /\ incl (map err_field (crossErrorsOf env (keyName dataType) record))
          (crossErrorFields dataType).
Proof.
  unfold crossErrorsOf, registryErrorsOf, taskErrorsOf, workerErrorsOf,
    coverageErrorsOf, requestErrorsOf, errorWhen.
  destruct dataType; cbn [keyName crossErrorFields];
    repeat match goal with
           | |- context [String.eqb ?a ?b] =>
               let v := eval vm_compute in (String.eqb a b) in
               change (String.eqb a b) with v
           end;
    cbv zeta; destruct (registry env) as [reg|];
    rewrite ?andb_false_r; cbv beta iota;
    repeat (cbv beta iota;
            match goal with
            | |- context [if ?c then _ else _] => destruct c
            end);
    cbn [app map err_field clientReferenceError durationError preferredPhasesError
         availableSlotsError skillCoverageError maxConcurrentError
         unknownTaskIdsError mkError];
    (split;
     [repeat constructor; cbn [In]; intuition discriminate
     |intros x Hx; cbn [In] in *; intuition auto]).
Qed.

End OnePerCheck.

(** X21.  The cross-record errors of a result come from the checks of its
    data type, at most one from each: their fields are pairwise distinct
    and are among clientId, Duration, PreferredPhases, RequiredSkills and
    MaxConcurrent for a task, AvailableSlots for a worker and
    RequestedTaskIDs for a client. *)
Theorem cross_errors_one_per_check :
  forall (host : JsHost) (env : Env) (rules : RuleMap) (records : list JsObj)
         (dataType : DataTypeKey) (results : list ValidationResult)
         (i : nat) (record : JsObj),
    validateBatch env rules records dataType = Some results ->
    nth_error records i = Some record ->
    exists r crossErrors,
      nth_error results i = Some r
      /\ errors r = errors (validateRecord env rules i record dataType) ++ crossErrors
      /\ NoDup (map err_field crossErrors)
      /\ incl (map err_field crossErrors) (crossErrorFields dataType)
      /\ List.length crossErrors <= List.length (crossErrorFields dataType).
Proof.
  intros host env rules records dataType results i record Hb Hi.
  destruct (validateBatch_errors env rules records dataType results i record Hb Hi)
    as (r & Hr & He).
  destruct (crossErrorsOf_fields env dataType record) as [Hnd Hincl].
  exists r, (crossErrorsOf env (keyName dataType) record).
  repeat split; auto.
  rewrite <- (length_map err_field). now apply NoDup_incl_length.
Qed.

Lemma cross_errors_one_per_check_witness :
  let env := envAt (Some registry0) in
  let results :=
    match validateBatch env defaultRules [taskPlain; taskOfClient] tasks with
    | Some l => l
    | None => []
    end in
  exists r crossErrors,
    nth_error results 1 = Some r
    /\ errors r = errors (validateRecord env defaultRules 1 taskOfClient tasks)
                  ++ crossErrors
    /\ NoDup (map err_field crossErrors)
    /\ incl (map err_field crossErrors) (crossErrorFields tasks)
    /\ List.length crossErrors <= List.length (crossErrorFields tasks).
Proof.
  cbv zeta.
  apply (cross_errors_one_per_check decimalHost (envAt (Some registry0))
           defaultRules [taskPlain; taskOfClient] tasks).
  - vm_compute. reflexivity.
  - reflexivity.
Defined.

(* ================================================================== *)
(** ** What a batch reads of the registry *)
(* ================================================================== *)

Section RegistryReads.
Context {host : JsHost}.
Variable env : Env.

Lemma validateRecordsFrom_withRegistry state rules records dataType k :
  validateRecordsFrom (withRegistry env state) rules records dataType k
  = validateRecordsFrom env rules records dataType k.
Proof.
  revert k. induction records as [|r rs IH]; intros k; cbn [validateRecordsFrom];
    [reflexivity|].
  now rewrite IH.
Qed.

Lemma initialResultsFrom_withRegistry state records dataType k :
  initialResultsFrom (withRegistry env state) records dataType k
  = initialResultsFrom env records dataType k.
Proof.
  revert k. induction records as [|r rs IH]; intros k; cbn [initialResultsFrom];
    [reflexivity|].
  now rewrite IH.
Qed.

Lemma crossDatasetChecks_workers state records st :
  crossDatasetChecks (withRegistry env state) records "workers" st = Normal tt st.
Proof.
  unfold crossDatasetChecks, tryCatch. cbn [registry withRegistry].
  destruct state as [reg|]; [|reflexivity].
  unfold bind, orThrow, ret. cbv zeta.
  change (String.eqb "workers" "tasks") with false.
  change (String.eqb "workers" "clients") with false.
  rewrite !andb_false_r. reflexivity.
Qed.

Lemma crossDatasetChecks_clients_workers reg registryWorkers records st :
  crossDatasetChecks (withRegistry env (Some (setData workers registryWorkers reg)))
    records "clients" st
  = crossDatasetChecks (withRegistry env (Some reg)) records "clients" st.
Proof.
  unfold crossDatasetChecks, tryCatch, bind, orThrow, ret.
  cbn [registry withRegistry]. cbv zeta.
  change (String.eqb "clients" "tasks") with false.
  rewrite !andb_false_r. reflexivity.
Qed.

Lemma isValidClientReference_tasks reg registryTasks ref :
  isValidClientReference (withRegistry env (Some (setData tasks registryTasks reg))) ref
  = isValidClientReference (withRegistry env (Some reg)) ref.
Proof. reflexivity. Qed.

Lemma crossDatasetChecks_tasks_tasks reg t ts t' ts' records st :
  getData tasks reg = t :: ts ->
  crossDatasetChecks (withRegistry env (Some (setData tasks (t' :: ts') reg)))
    records "tasks" st
  = crossDatasetChecks (withRegistry env (Some reg)) records "tasks" st.
Proof.
  intros Hreg. unfold crossDatasetChecks, tryCatch, bind, orThrow, ret.
  cbn [registry withRegistry]. cbv zeta.
  change (String.eqb "tasks" "clients") with false.
  rewrite !andb_false_r.
  change (getData tasks (setData tasks (t' :: ts') reg)) with (t' :: ts').
  change (getData workers (setData tasks (t' :: ts') reg)) with (getData workers reg).
  rewrite Hreg. reflexivity.
Qed.

End RegistryReads.

Section RegistryReadsOfABatch.
Context {host : JsHost}.
Variable env : Env.

Lemma bind_ext {A B : Type} (m : Exec A) (k k' : A -> Exec B) st :
  (forall a st', k a st' = k' a st') -> bind m k st = bind m k' st.
Proof. intros H. unfold bind. destruct (m st); auto. Qed.

Lemma validateBatch_by_body state state' rules records dataType :
  (forall st, crossRecordBody (withRegistry env state) records (keyName dataType) st
              = crossRecordBody (withRegistry env state') records (keyName dataType) st) ->
  validateBatch (withRegistry env state) rules records dataType
  = validateBatch (withRegistry env state') rules records dataType.
Proof.
  intros Hbody. unfold validateBatch, performCrossRecordValidation, initialResults.
  now rewrite !validateRecordsFrom_withRegistry, !initialResultsFrom_withRegistry, Hbody.
Qed.

Lemma crossRecordBody_workers state state' records st :
  crossRecordBody (withRegistry env state) records "workers" st
  = crossRecordBody (withRegistry env state') records "workers" st.
Proof.
  unfold crossRecordBody. change (String.eqb "workers" "tasks") with false.
  cbn [when]. apply bind_ext. intros _ s1. apply bind_ext. intros _ s2.
  apply bind_ext. intros _ s3. now rewrite !crossDatasetChecks_workers.
Qed.

Lemma crossRecordBody_clients_workers reg registryWorkers records st :
  crossRecordBody (withRegistry env (Some (setData workers registryWorkers reg)))
    records "clients" st
  = crossRecordBody (withRegistry env (Some reg)) records "clients" st.
Proof.
  unfold crossRecordBody. change (String.eqb "clients" "tasks") with false.
  cbn [when]. apply bind_ext. intros _ s1. apply bind_ext. intros _ s2.
  apply bind_ext. intros _ s3. apply crossDatasetChecks_clients_workers.
Qed.

Lemma crossRecordBody_tasks_tasks reg t ts t' ts' records st :
  getData tasks reg = t :: ts ->
  crossRecordBody (withRegistry env (Some (setData tasks (t' :: ts') reg)))
    records "tasks" st
  = crossRecordBody (withRegistry env (Some reg)) records "tasks" st.
Proof.
  intros Hreg. unfold crossRecordBody. apply bind_ext. intros _ s1.
  change (checkClientReferences
            (withRegistry env (Some (setData tasks (t' :: ts') reg))) records)
    with (checkClientReferences (withRegistry env (Some reg)) records).
  apply bind_ext. intros _ s2. apply bind_ext. intros _ s3.
  now apply (crossDatasetChecks_tasks_tasks env reg t ts).
Qed.

End RegistryReadsOfABatch.

(** X22.  What [validateBatch] reads of the registry depends on the data
    type: a batch of workers is validated in the same way whatever the
    registry holds, and also when it cannot be read; a batch of clients in
    the same way whatever workers the registry holds; and a batch of tasks
    in the same way whatever tasks the registry holds, as long as it holds
    one. *)
Theorem what_a_batch_reads_of_the_registry :
  forall (host : JsHost) (env : Env) (rules : RuleMap) (records : list JsObj),
    (forall state state',
       validateBatch (withRegistry env state) rules records workers
       = validateBatch (withRegistry env state') rules records workers)
    /\ (forall reg registryWorkers,
          validateBatch (withRegistry env (Some (setData workers registryWorkers reg)))
            rules records clients
          = validateBatch (withRegistry env (Some reg)) rules records clients)
    /\ (forall reg registryTasks,
          getData tasks reg <> [] -> registryTasks <> [] ->
          validateBatch (withRegistry env (Some (setData tasks registryTasks reg)))
            rules records tasks
          = validateBatch (withRegistry env (Some reg)) rules records tasks).
Proof.
  intros host env rules records. split; [|split].
  - intros state state'. apply validateBatch_by_body. intros st.
    apply crossRecordBody_workers.
  - intros reg registryWorkers. apply validateBatch_by_body. intros st.
    apply crossRecordBody_clients_workers.
  - intros reg registryTasks Hreg Hnew. apply validateBatch_by_body. intros st.
    destruct (getData tasks reg) as [|t ts] eqn:E; [contradiction|].
    destruct registryTasks as [|t' ts']; [contradiction|].
    now apply (crossRecordBody_tasks_tasks env reg t ts).
Qed.

Lemma what_a_batch_reads_of_the_registry_witness :
  validateBatch (withRegistry (envAt None)
                   (Some (setData tasks [taskT1] (registryOf [] [workerReact] [taskT2]))))
    defaultRules [taskReactPython] tasks
  = validateBatch (withRegistry (envAt None) (Some (registryOf [] [workerReact] [taskT2])))
      defaultRules [taskReactPython] tasks.
Proof.
  apply (proj2 (proj2 (what_a_batch_reads_of_the_registry decimalHost (envAt None)
                         defaultRules [taskReactPython]))).
  - discriminate.
  - discriminate.
Defined.

(* ================================================================== *)
(** ** The score and the number of findings *)
(* ================================================================== *)

Section ScoreBounds.

Lemma Qfloor_upper (x : Q) (m : Z) : (x < inject_Z (m + 1))%Q -> (Qfloor x <= m)%Z.
Proof.
  intros H. pose proof (Qfloor_le x) as H1.
  assert (H2 : (inject_Z (Qfloor x) < inject_Z (m + 1))%Q)
    by (eapply Qle_lt_trans; eauto).
  rewrite <- Zlt_Qlt in H2. lia.
Qed.

Lemma Qfloor_lower (x : Q) (m : Z) : (inject_Z m <= x)%Q -> (m <= Qfloor x)%Z.
Proof. intros H. rewrite <- (Qfloor_Z m). now apply Qfloor_resp_le. Qed.

Lemma ratio_bounds (n f : nat) :
  n <= f -> 0 < f ->
  (0 <= inject_Z (Z.of_nat n) / inject_Z (Z.of_nat f) <= 1)%Q.
Proof.
  intros Hnf Hf.
  assert (Hpos : (0 < inject_Z (Z.of_nat f))%Q).
  { change 0%Q with (inject_Z 0). rewrite <- Zlt_Qlt. lia. }
  assert (Hn : (0 <= inject_Z (Z.of_nat n))%Q).
  { change 0%Q with (inject_Z 0). rewrite <- Zle_Qle. lia. }
  assert (Hle : (inject_Z (Z.of_nat n) <= inject_Z (Z.of_nat f))%Q).
  { rewrite <- Zle_Qle. lia. }
  split.
  - apply Qle_shift_div_l; [exact Hpos|]. now rewrite Qmult_0_l.
  - apply Qle_shift_div_r; [exact Hpos|]. now rewrite Qmult_1_l.
Qed.

Lemma specScore_bounds (e w s n f : nat) :
  n <= f -> 0 < f ->
  let penalty := (20 * Z.of_nat e + 10 * Z.of_nat w + 5 * Z.of_nat s)%Z in
  exists k,
    specScore e w s n f = ofZ k
    /\ (clampZ 0 100 (100 - penalty) <= k <= clampZ 0 100 (110 - penalty))%Z.
Proof.
  intros Hnf Hf penalty. unfold specScore. cbv zeta.
  set (x := (100 - 20 * inject_Z (Z.of_nat e) - 10 * inject_Z (Z.of_nat w)
             - 5 * inject_Z (Z.of_nat s)
             + 10 * (inject_Z (Z.of_nat n) / inject_Z (Z.of_nat f)) + (1 # 2))%Q).
  exists (clampZ 0 100 (Qfloor x)). split; [reflexivity|].
  destruct (ratio_bounds n f Hnf Hf) as [H0 H1].
  set (ratio := (inject_Z (Z.of_nat n) / inject_Z (Z.of_nat f))%Q) in *.
  assert (Hp : (inject_Z penalty
                == 20 * inject_Z (Z.of_nat e) + 10 * inject_Z (Z.of_nat w)
                   + 5 * inject_Z (Z.of_nat s))%Q).
  { unfold penalty. rewrite !inject_Z_plus, !inject_Z_mult. reflexivity. }
  assert (Hlow : (100 - penalty <= Qfloor x)%Z).
  { apply Qfloor_lower. unfold Z.sub. rewrite inject_Z_plus, inject_Z_opp, Hp.
    unfold x. change (inject_Z 100) with 100%Q. lra. }
  assert (Hup : (Qfloor x <= 110 - penalty)%Z).
  { apply Qfloor_upper. unfold Z.sub.
    rewrite !inject_Z_plus, inject_Z_opp, Hp.
    unfold x. change (inject_Z 110) with 110%Q. change (inject_Z 1) with 1%Q. lra. }
  unfold clampZ. lia.
Qed.

End ScoreBounds.

(** X23.  The score of [validateRecord] on a record with at least one
    field lies between clamp(0, 100, 100 - p) and clamp(0, 100, 110 - p),
    where p = 20 e + 10 w + 5 s counts the errors, warnings and suggestions
    of the result.  So a record without findings scores 100, an invalid
    record scores at most 90 and a record with six errors or more scores
    0. *)
Theorem score_reflects_findings :
  forall (host : JsHost) (env : Env) (rules : RuleMap) (call : nat)
         (record : JsObj) (dataType : DataTypeKey),
    record <> [] ->
    let r := validateRecord env rules call record dataType in
    let penalty := (20 * Z.of_nat (List.length (errors r))
                    + 10 * Z.of_nat (List.length (warnings r))
                    + 5 * Z.of_nat (List.length (suggestions r)))%Z in
    exists k,
      score r = ofZ k
      /\ (clampZ 0 100 (100 - penalty) <= k <= clampZ 0 100 (110 - penalty))%Z
      /\ (errors r = [] -> warnings r = [] -> suggestions r = [] -> k = 100%Z)
      /\ (isValid r = false -> (k <= 90)%Z)
      /\ (6 <= List.length (errors r) -> k = 0%Z).
Proof.
  intros host env rules call record dataType Hne r penalty.
  assert (Hscore : score r
                   = specScore (List.length (errors r)) (List.length (warnings r))
                       (List.length (suggestions r)) (nonEmptyFieldCount record)
                       (fieldCount record)).
  { exact (calculateQualityScore_spec record (errors r) (warnings r) (suggestions r) Hne). }
  assert (Hnf : nonEmptyFieldCount record <= fieldCount record).
  { unfold nonEmptyFieldCount, fieldCount. apply filter_length_le. }
  assert (Hf : 0 < fieldCount record).
  { unfold fieldCount, keys. rewrite length_map. destruct record; [congruence|].
    cbn [List.length]. lia. }
  destruct (specScore_bounds (List.length (errors r)) (List.length (warnings r))
              (List.length (suggestions r)) _ _ Hnf Hf) as (k & Hk & Hlow & Hup).
  fold penalty in Hlow, Hup.
  exists k. split; [now rewrite Hscore|]. split; [split; assumption|].
  unfold clampZ in Hlow, Hup. split; [|split].
  - intros He Hw Hs. unfold penalty in *. rewrite He, Hw, Hs in *.
    cbn [List.length] in *. lia.
  - intros Hinvalid.
    assert (He : 1 <= List.length (errors r)).
    { unfold r, validateRecord in Hinvalid. cbv zeta in Hinvalid.
      cbn [isValid] in Hinvalid. apply Nat.eqb_neq in Hinvalid.
      unfold r, validateRecord. cbv zeta. cbn [errors]. lia. }
    unfold penalty in *. lia.
  - intros He. unfold penalty in *. lia.
Qed.

Lemma score_reflects_findings_witness :
  let r := validateRecord (envAt None) defaultRules 0 taskPlain tasks in
  let penalty := (20 * Z.of_nat (List.length (errors r))
                  + 10 * Z.of_nat (List.length (warnings r))
                  + 5 * Z.of_nat (List.length (suggestions r)))%Z in
  exists k,
    score r = ofZ k
    /\ (clampZ 0 100 (100 - penalty) <= k <= clampZ 0 100 (110 - penalty))%Z
    /\ (errors r = [] -> warnings r = [] -> suggestions r = [] -> k = 100%Z)
    /\ (isValid r = false -> (k <= 90)%Z)
    /\ (6 <= List.length (errors r) -> k = 0%Z).
Proof.
  cbv zeta.
  apply (score_reflects_findings decimalHost (envAt None) defaultRules 0 taskPlain tasks).
  discriminate.
Defined.

(* ================================================================== *)
(** ** The kind of a sheet *)
(* ================================================================== *)

Section HeaderText.

Lemma toLowerCase_app (a b : string) :
  toLowerCase (a ++ b) = (toLowerCase a ++ toLowerCase b)%string.
Proof.
  induction a as [|c r IH]; cbn [append toLowerCase]; [reflexivity|now rewrite IH].
Qed.

Lemma prefix_append (t s b : string) :
  String.prefix t s = true -> String.prefix t (s ++ b) = true.
Proof.
  revert s. induction t as [|c t IH]; intros s H; [now destruct (s ++ b)%string|].
  destruct s as [|d s]; [discriminate H|]. cbn [append]. simpl in *.
  destruct (ascii_dec c d); [now apply IH|discriminate H].
Qed.

Lemma includes_append_r (s b t : string) :
  includes s t = true -> includes (s ++ b) t = true.
Proof.
  induction s as [|c r IH]; cbn [includes append]; intros H.
  - rewrite orb_false_r in H. destruct t; [|discriminate H].
    destruct b; reflexivity.
  - apply orb_true_iff in H. destruct H as [H|H].
    + change (String c (r ++ b)) with (String c r ++ b)%string.
      cbn [includes]. now rewrite (prefix_append _ _ b H).
    + change (String c (r ++ b)) with (String c r ++ b)%string.
      cbn [includes append]. rewrite (IH H). apply orb_true_r.
Qed.

Lemma includes_append_l (a s t : string) :
  includes s t = true -> includes (a ++ s) t = true.
Proof.
  intros H. induction a as [|c r IH]; cbn [append]; [exact H|].
  cbn [includes]. rewrite IH. apply orb_true_r.
Qed.

Lemma join_In (sep h : string) (hs : list string) :
  In h hs -> exists a b, join sep hs = (a ++ h ++ b)%string.
Proof.
  induction hs as [|x rest IH]; [contradiction|].
  intros [->|Hin].
  - exists "". destruct rest as [|y rest'].
    + exists "". cbn [join append]. now rewrite append_nil_r.
    + exists (sep ++ join sep (y :: rest'))%string. reflexivity.
  - destruct (IH Hin) as (a & b & E). destruct rest as [|y rest']; [contradiction|].
    exists (x ++ sep ++ a)%string, b.
    change (join sep (x :: y :: rest')) with (x ++ sep ++ join sep (y :: rest'))%string.
    now rewrite E, !append_assoc.
Qed.

(** A text that some header contains, in whatever case, is found in the
    lowered text of the header row. *)
Lemma headerStr_includes (headers : list string) (h marker : string) :
  In h headers -> includes (toLowerCase h) marker = true ->
  includes (toLowerCase (join " " headers)) marker = true.
Proof.
  intros Hin Hm. destruct (join_In " " h headers Hin) as (a & b & ->).
  rewrite !toLowerCase_app. apply includes_append_l. now apply includes_append_r.
Qed.

End HeaderText.

(** X24.  A header row in which some header contains, in whatever case,
    one of clientid, clientname, prioritylevel, grouptag and attributesjson
    is taken for a sheet of clients, whatever the other headers are: so is
    a sheet of tasks that has a column clientId. *)
Theorem detectDataType_client_columns_win :
  forall (headers : list string) (h : string),
    In h headers ->
    includes (toLowerCase h) "clientid"
    || includes (toLowerCase h) "clientname"
    || includes (toLowerCase h) "prioritylevel"
    || includes (toLowerCase h) "grouptag"
    || includes (toLowerCase h) "attributesjson" = true ->
    FileParser.detectDataType headers = FileParser.Known clients.
Proof.
  intros headers h Hin Hm. unfold FileParser.detectDataType. cbv zeta.
  assert (H : includes (toLowerCase (join " " headers)) "clientid"
              || includes (toLowerCase (join " " headers)) "clientname"
              || includes (toLowerCase (join " " headers)) "prioritylevel"
              || includes (toLowerCase (join " " headers)) "grouptag"
              || includes (toLowerCase (join " " headers)) "attributesjson" = true).
  { repeat (apply orb_true_iff in Hm; destruct Hm as [Hm|Hm]);
      rewrite (headerStr_includes headers h _ Hin Hm);
      rewrite ?orb_true_r; reflexivity. }
  now rewrite H.
Qed.

Lemma detectDataType_client_columns_win_witness :
  FileParser.detectDataType
    ["title"; "description"; "clientId"; "requiredSkills"; "estimatedHours";
     "deadline"; "priority"; "status"; "budget"; "complexity"]
  = FileParser.Known clients.
Proof.
  apply (detectDataType_client_columns_win
           ["title"; "description"; "clientId"; "requiredSkills"; "estimatedHours";
            "deadline"; "priority"; "status"; "budget"; "complexity"] "clientId").
  - right. right. left. reflexivity.
  - reflexivity.
Defined.

(* ================================================================== *)
(** ** The rows of a sheet *)
(* ================================================================== *)

Section RowObjects.

Lemma getProp_setProp (o : JsObj) (k k' : string) (v : JsValue) :
  getProp (FileParser.setProp o k v) k'
  = if String.eqb k k' then v else getProp o k'.
Proof.
  induction o as [|[k0 v0] rest IH]; cbn [FileParser.setProp getProp].
  - reflexivity.
  - destruct (String.eqb k0 k) eqn:E; cbn [getProp].
    + apply String.eqb_eq in E; subst k0. destruct (String.eqb k k'); reflexivity.
    + destruct (String.eqb k0 k') eqn:E'.
      * apply String.eqb_eq in E'; subst k0. rewrite String.eqb_sym in E.
        now rewrite E.
      * exact IH.
Qed.

Lemma getProp_assignCell (row : list JsValue) (obj : JsObj) (header h : string)
  (colIndex : nat) :
  getProp (FileParser.assignCell row obj header colIndex) h
  = if String.eqb header h && negb (String.eqb header "__proto__")
    then orElse (nth colIndex row VUndefined) (VStr "")
    else getProp obj h.
Proof.
  unfold FileParser.assignCell. destruct (String.eqb header "__proto__").
  - now rewrite andb_false_r.
  - rewrite getProp_setProp, andb_true_r. reflexivity.
Qed.

Lemma getProp_assignCells_other (row : list JsValue) (headers : list string)
  (colIndex : nat) (obj : JsObj) (h : string) :
  ~ In h headers ->
  getProp (FileParser.assignCells row headers colIndex obj) h = getProp obj h.
Proof.
  revert colIndex obj. induction headers as [|x rest IH]; intros colIndex obj Hnot;
    cbn [FileParser.assignCells]; [reflexivity|].
  rewrite IH by (intros Hin; apply Hnot; now right).
  rewrite getProp_assignCell.
  destruct (String.eqb x h) eqn:E; [|reflexivity].
  apply String.eqb_eq in E. elim Hnot. now left.
Qed.

Lemma getProp_assignCells_nth (row : list JsValue) (headers : list string)
  (colIndex : nat) (obj : JsObj) (p : nat) (h : string) :
  NoDup headers -> nth_error headers p = Some h -> h <> "__proto__" ->
  getProp (FileParser.assignCells row headers colIndex obj) h
  = orElse (nth (colIndex + p) row VUndefined) (VStr "").
Proof.
  revert colIndex obj p. induction headers as [|x rest IH];
    intros colIndex obj p Hnd Hp Hh; [now destruct p|].
  inversion Hnd as [|? ? Hnot Hrest]; subst. cbn [FileParser.assignCells].
  destruct p as [|p]; cbn [nth_error] in Hp.
  - injection Hp as ->. rewrite getProp_assignCells_other by exact Hnot.
    rewrite getProp_assignCell, String.eqb_refl, Nat.add_0_r.
    apply String.eqb_neq in Hh. now rewrite Hh.
  - rewrite (IH (S colIndex) _ p Hrest Hp Hh). f_equal. f_equal. lia.
Qed.

Lemma rowObjectsFrom_nth (headers : list string) (rows : list (list JsValue))
  (index j : nat) (row : list JsValue) :
  nth_error rows j = Some row ->
  nth_error (FileParser.rowObjectsFrom headers rows index) j
  = Some (FileParser.rowObject headers row (index + j)).
Proof.
  revert index j. induction rows as [|r rest IH]; intros index j H; [now destruct j|].
  destruct j as [|j]; cbn [nth_error FileParser.rowObjectsFrom] in *.
  - injection H as ->. now rewrite Nat.add_0_r.
  - rewrite (IH (S index) j H). f_equal. f_equal. lia.
Qed.

Lemma rowObjectsFrom_length (headers : list string) (rows : list (list JsValue))
  (index : nat) :
  List.length (FileParser.rowObjectsFrom headers rows index) = List.length rows.
Proof.
  revert index. induction rows as [|r rest IH]; intros index;
    cbn [FileParser.rowObjectsFrom List.length]; auto.
Qed.

End RowObjects.

(** X25.  [parseFile] makes one object of every row below the header that
    has a filled cell, in the order of the sheet.  Unless a header is
    named so, the object at index j has [_rowIndex] j + 2; when the headers
    are pairwise distinct, the property named by a header holds the cell of
    its column, and the empty string when the cell is falsy: a cell that
    is missing, 0 or [false] is stored as the empty string. *)
Theorem parseFile_row_objects :
  forall (headers : list string) (body : list (list JsValue)) (j : nat)
         (row : list JsValue),
    nth_error (filter (existsb FileParser.isFilled) body) j = Some row ->
    List.length (FileParser.dataOf headers body)
    = List.length (filter (existsb FileParser.isFilled) body)
    /\ exists obj,
         nth_error (FileParser.dataOf headers body) j = Some obj
         /\ (~ In "_rowIndex" headers ->
             getProp obj "_rowIndex" = VNum (ofNat (j + 2)))
         /\ (NoDup headers ->
             forall p h, nth_error headers p = Some h -> h <> "__proto__" ->
               getProp obj h = orElse (nth p row VUndefined) (VStr "")
               /\ (truthy (nth p row VUndefined) = false -> getProp obj h = VStr "")).
Proof.
  intros headers body j row Hrow. unfold FileParser.dataOf.
  split; [apply rowObjectsFrom_length|].
  exists (FileParser.rowObject headers row j).
  split; [exact (rowObjectsFrom_nth headers _ 0 j row Hrow)|].
  unfold FileParser.rowObject. split.
  - intros Hnot. rewrite getProp_assignCells_other by exact Hnot. reflexivity.
  - intros Hnd p h Hp Hh.
    rewrite (getProp_assignCells_nth row headers 0 _ p h Hnd Hp Hh). cbn [Nat.add].
    split; [reflexivity|]. intros Hfalsy. unfold orElse. now rewrite Hfalsy.
Qed.

Lemma parseFile_row_objects_witness :
  let headers := ["name"; "budget"; "active"] in
  let body := [[VStr "Acme"; VNum (ofNat 0); VBool false]; [];
               [VStr "Bolt"; VNum (ofNat 7)]] in
  List.length (FileParser.dataOf headers body)
  = List.length (filter (existsb FileParser.isFilled) body)
  /\ exists obj,
       nth_error (FileParser.dataOf headers body) 1 = Some obj
       /\ (~ In "_rowIndex" headers -> getProp obj "_rowIndex" = VNum (ofNat (1 + 2)))
       /\ (NoDup headers ->
           forall p h, nth_error headers p = Some h -> h <> "__proto__" ->
             getProp obj h
             = orElse (nth p [VStr "Bolt"; VNum (ofNat 7)] VUndefined) (VStr "")
             /\ (truthy (nth p [VStr "Bolt"; VNum (ofNat 7)] VUndefined) = false ->
                 getProp obj h = VStr "")).
Proof.
  cbv zeta.
  apply (parseFile_row_objects ["name"; "budget"; "active"]
           [[VStr "Acme"; VNum (ofNat 0); VBool false]; [];
            [VStr "Bolt"; VNum (ofNat 7)]] 1 [VStr "Bolt"; VNum (ofNat 7)]).
  reflexivity.
Defined.

Section RowNumbers.

Lemma filter_length_all {X : Type} (p : X -> bool) (l : list X) :
  List.length (filter p l) = List.length l <-> forallb p l = true.
Proof.
  induction l as [|x rest IH]; cbn [filter forallb List.length]; [tauto|].
  pose proof (filter_length_le p rest) as Hle.
  destruct (p x); cbn [List.length andb].
  - rewrite <- IH. split; lia.
  - split; [lia|discriminate].
Qed.

End RowNumbers.

(** X26.  The number [_rowIndex] of a row counts the rows with a filled
    cell only: a row of the sheet gets two more than the number of such
    rows above it, which is its row number in the sheet (the header being
    row 1) exactly when no row above it is blank. *)
Theorem row_numbers_skip_blank_rows :
  forall (headers : list string) (before after : list (list JsValue))
         (row : list JsValue),
    existsb FileParser.isFilled row = true ->
    ~ In "_rowIndex" headers ->
    let j := List.length (filter (existsb FileParser.isFilled) before) in
    exists obj,
      nth_error (FileParser.dataOf headers (before ++ row :: after)) j = Some obj
      /\ getProp obj "_rowIndex" = VNum (ofNat (j + 2))
      /\ j <= List.length before
      /\ (j = List.length before
          <-> forallb (existsb FileParser.isFilled) before = true).
Proof.
  intros headers before after row Hrow Hhead j.
  exists (FileParser.rowObject headers row j). split; [|split; [|split]].
  - unfold FileParser.dataOf. rewrite <- (Nat.add_0_l j) at 2.
    apply rowObjectsFrom_nth. rewrite filter_app. cbn [filter]. rewrite Hrow.
    unfold j. rewrite nth_error_app2 by lia. now rewrite Nat.sub_diag.
  - unfold FileParser.rowObject. rewrite getProp_assignCells_other by exact Hhead.
    reflexivity.
  - apply filter_length_le.
  - apply filter_length_all.
Qed.

Lemma row_numbers_skip_blank_rows_witness :
  let headers := ["name"; "budget"] in
  let before := [[VStr "Acme"; VNum (ofNat 5)]; [VStr ""; VNull]] in
  let row := [VStr "Bolt"; VNum (ofNat 7)] in
  exists obj,
    nth_error (FileParser.dataOf headers (before ++ row :: [])) 1 = Some obj
    /\ getProp obj "_rowIndex" = VNum (ofNat (1 + 2))
    /\ 1 <= List.length before
    /\ (1 = List.length before
        <-> forallb (existsb FileParser.isFilled) before = true).
Proof.
  cbv zeta.
  apply (row_numbers_skip_blank_rows ["name"; "budget"]
           [[VStr "Acme"; VNum (ofNat 5)]; [VStr ""; VNull]] []
           [VStr "Bolt"; VNum (ofNat 7)]).
  - reflexivity.
  - cbn [In]. intros [H|[H|[]]]; discriminate H.
Defined.

(* ================================================================== *)
(** ** What parsing a file does to the registry *)
(* ================================================================== *)

Section ParsedFiles.
Context {host : JsHost}.

Lemma getData_setData (key other : DataTypeKey) (data : list JsObj) (reg : Registry) :
  getData key (setData key data reg) = data
  /\ (other <> key -> getData other (setData key data reg) = getData other reg).
Proof.
  split; [now destruct key|]. intros Hne. destruct key, other; try reflexivity;
    now elim Hne.
Qed.

Lemma sheetData_blank (headers : list (option JsValue)) (body : list (list JsValue)) :
  forallb (fun row => negb (existsb FileParser.isFilled row)) body = true ->
  FileParser.sheetData headers body = [].
Proof.
  intros H. unfold FileParser.sheetData.
  assert (E : filter (existsb FileParser.isFilled) body = []).
  { induction body as [|row rest IH]; [reflexivity|].
    cbn [forallb filter] in *. apply andb_true_iff in H. destruct H as [H1 H2].
    apply negb_true_iff in H1. rewrite H1. now apply IH. }
  now rewrite E.
Qed.

(** On a header row of strings the cells are read as the strings are. *)
Lemma assignHeaderCells_textCells (row : list JsValue) (headers : list string)
  (colIndex : nat) (obj : JsObj) :
  FileParser.assignHeaderCells row (textCells headers) colIndex obj
  = FileParser.assignCells row headers colIndex obj.
Proof.
  revert colIndex obj. induction headers as [|h rest IH]; intros colIndex obj;
    cbn [textCells map FileParser.assignHeaderCells FileParser.assignCells];
    [reflexivity|].
  apply IH.
Qed.

Lemma sheetData_textCells (headers : list string) (body : list (list JsValue)) :
  FileParser.sheetData (textCells headers) body = FileParser.dataOf headers body.
Proof.
  unfold FileParser.sheetData, FileParser.dataOf.
  generalize 0. induction (filter (existsb FileParser.isFilled) body) as [|row rest IH];
    intros index; cbn [FileParser.sheetRowObjectsFrom FileParser.rowObjectsFrom];
    [reflexivity|].
  rewrite IH. f_equal. apply assignHeaderCells_textCells.
Qed.

Lemma joinedText_textCells (headers : list string) :
  map FileParser.joinedText (textCells headers) = headers.
Proof.
  unfold textCells. rewrite map_map. cbn [FileParser.joinedText toStr].
  apply map_id.
Qed.

Lemma someIncludes_textCells (field : string) (headers : list string) :
  FileParser.someIncludes field (textCells headers)
  = FileParser.Done
      (existsb (fun header => includes (toLowerCase header) (toLowerCase field)) headers).
Proof.
  induction headers as [|h rest IH]; cbn [textCells map FileParser.someIncludes existsb];
    [reflexivity|].
  destruct (includes (toLowerCase h) (toLowerCase field)); [reflexivity|exact IH].
Qed.

Lemma missingFieldsAmong_textCells (fields headers : list string) :
  FileParser.missingFieldsAmong fields (textCells headers)
  = FileParser.Done
      (filter (fun field =>
                 negb (existsb (fun header =>
                                  includes (toLowerCase header) (toLowerCase field))
                               headers))
              fields).
Proof.
  induction fields as [|field rest IH]; cbn [FileParser.missingFieldsAmong filter];
    [reflexivity|].
  rewrite someIncludes_textCells, IH.
  now destruct (existsb _ headers).
Qed.

Lemma validateSheetStructure_textCells (data : list JsObj) (type : FileParser.FileType)
  (headers : list string) :
  FileParser.validateSheetStructure data type (textCells headers)
  = FileParser.Done (FileParser.validateBasicStructure data type headers).
Proof.
  unfold FileParser.validateSheetStructure, FileParser.validateBasicStructure,
    FileParser.missingFieldsOf.
  destruct data as [|row rest]; [reflexivity|].
  now rewrite missingFieldsAmong_textCells.
Qed.

(** When the search for a field among the headers throws: a cell that is
    not a string stands before every header that includes the field. *)
Lemma someIncludes_Fails (field : string) (headers : list (option JsValue))
  (cell : JsValue) :
  FileParser.someIncludes field headers = FileParser.Fails cell
  <-> exists before after,
        headers = before ++ Some cell :: after
        /\ isText cell = false
        /\ forall c, In (Some c) before ->
             exists h, c = VStr h /\ includes (toLowerCase h) (toLowerCase field) = false.
Proof.
  induction headers as [|[c|] rest IH]; cbn [FileParser.someIncludes].
  - split; [discriminate|]. intros (before & after & E & _). now destruct before.
  - assert (Hother : isText c = false ->
                     (@FileParser.Fails bool c = FileParser.Fails cell
                      <-> exists before after,
                            Some c :: rest = before ++ Some cell :: after
                            /\ isText cell = false
                            /\ forall c0, In (Some c0) before ->
                                 exists h, c0 = VStr h
                                   /\ includes (toLowerCase h) (toLowerCase field) = false)).
    { intros Hc. split.
      - intros [= <-]. exists [], rest. split; [reflexivity|]. split; [exact Hc|].
        intros c0 [].
      - intros ([|x before] & after & E & Hcell & Hbefore).
        + now injection E as ->.
        + injection E as <- _. destruct (Hbefore c (or_introl eq_refl)) as (h & -> & _).
          discriminate Hc. }
    destruct c as [| |b|n|h|items|o]; try (apply Hother; reflexivity).
    destruct (includes (toLowerCase h) (toLowerCase field)) eqn:Einc.
    + split; [discriminate|].
      intros ([|x before] & after & E & Hcell & Hbefore).
      * injection E as <-. discriminate Hcell.
      * injection E as <- _. destruct (Hbefore (VStr h) (or_introl eq_refl))
          as (h' & [= <-] & Hno). congruence.
    + rewrite IH. split.
      * intros (before & after & -> & Hcell & Hbefore).
        exists (Some (VStr h) :: before), after. split; [reflexivity|].
        split; [exact Hcell|]. intros c0 [[= <-]|Hin]; [eauto|now apply Hbefore].
      * intros ([|x before] & after & E & Hcell & Hbefore).
        -- injection E as <-. discriminate Hcell.
        -- injection E as <- ->. exists before, after. split; [reflexivity|].
           split; [exact Hcell|]. intros c0 Hin. apply Hbefore. now right.
  - rewrite IH. split.
    + intros (before & after & -> & Hcell & Hbefore).
      exists (None :: before), after. split; [reflexivity|]. split; [exact Hcell|].
      intros c0 [Hin|Hin]; [discriminate Hin|now apply Hbefore].
    + intros ([|x before] & after & E & Hcell & Hbefore); [discriminate E|].
      injection E as <- ->. exists before, after. split; [reflexivity|].
      split; [exact Hcell|]. intros c0 Hin. apply Hbefore. now right.
Qed.

Lemma missingFieldsAmong_Fails (fields : list string) (headers : list (option JsValue)) :
  (exists cell, FileParser.missingFieldsAmong fields headers = FileParser.Fails cell)
  <-> exists field cell,
        In field fields /\ FileParser.someIncludes field headers = FileParser.Fails cell.
Proof.
  induction fields as [|f rest IH]; cbn [FileParser.missingFieldsAmong].
  - split; [intros (cell & H); discriminate H|intros (field & cell & [] & _)].
  - destruct (FileParser.someIncludes f headers) as [found|cell0] eqn:E.
    + destruct (FileParser.missingFieldsAmong rest headers) as [missing|cell1] eqn:E'.
      * split; [intros (cell & H); discriminate H|].
        intros (field & cell & [<-|Hin] & H); [congruence|].
        assert (Hex : exists cell, FileParser.Done missing = FileParser.Fails cell :> FileParser.Attempt (list string)).
        { apply IH. eauto. }
        destruct Hex as (c & Hc). discriminate Hc.
      * split; [|eauto].
        intros _. destruct (proj1 IH (ex_intro _ cell1 eq_refl)) as (field & cell & Hin & H).
        exists field, cell. split; [now right|exact H].
    + split; [|eauto]. intros _. exists f, cell0. split; [now left|exact E].
Qed.

Lemma sheetData_nil (headers : list (option JsValue)) (body : list (list JsValue)) :
  FileParser.sheetData headers body = []
  <-> forallb (fun row => negb (existsb FileParser.isFilled row)) body = true.
Proof.
  split; [|apply sheetData_blank].
  unfold FileParser.sheetData. intros H.
  assert (E : filter (existsb FileParser.isFilled) body = []).
  { destruct (filter (existsb FileParser.isFilled) body); [reflexivity|].
    discriminate H. }
  clear H. induction body as [|row rest IH]; [reflexivity|].
  cbn [filter forallb] in *.
  destruct (existsb FileParser.isFilled row); [discriminate E|].
  cbn [negb andb]. now apply IH.
Qed.

Lemma validateSheetStructure_Fails (data : list JsObj) (kind : FileParser.FileType)
  (headers : list (option JsValue)) :
  (exists cell,
     FileParser.validateSheetStructure data kind headers = FileParser.Fails cell)
  <-> data <> []
      /\ exists field before cell after,
           In field (FileParser.getRequiredFields kind)
           /\ headers = before ++ Some cell :: after
           /\ isText cell = false
           /\ forall c, In (Some c) before ->
                exists h, c = VStr h
                  /\ includes (toLowerCase h) (toLowerCase field) = false.
Proof.
  unfold FileParser.validateSheetStructure.
  destruct data as [|row rest].
  - split; [intros (cell & H); discriminate H|intros [H _]; now elim H].
  - pose proof (missingFieldsAmong_Fails (FileParser.getRequiredFields kind) headers)
      as Hm.
    destruct (FileParser.missingFieldsAmong _ headers) as [missing|cell0].
    + split; [intros (cell & H); discriminate H|].
      intros (_ & field & before & cell & after & Hin & E & Hcell & Hbefore).
      assert (Hex : exists cell, FileParser.someIncludes field headers
                                 = FileParser.Fails cell).
      { exists cell. apply someIncludes_Fails. eauto. }
      destruct Hex as (c & Hc).
      destruct (proj2 Hm (ex_intro _ field (ex_intro _ c (conj Hin Hc)))) as (c' & Hc').
      discriminate Hc'.
    + split; [|eauto]. intros _. split; [discriminate|].
      destruct (proj1 Hm (ex_intro _ cell0 eq_refl)) as (field & cell & Hin & H).
      apply someIncludes_Fails in H as (before & after & E & Hcell & Hbefore).
      exists field, before, cell, after. auto.
Qed.

End ParsedFiles.

(** X27.  [parseFile] leaves the registry as it is when the extension is
    not supported, when reading throws, when the sheet has no rows and
    when the kind of the sheet is unknown, and in the first three cases it
    returns no data, the kind unknown and one error on the file.  It also
    leaves the registry as it is, and returns such a failure, when the
    check of the required columns throws, which it does exactly when the
    sheet has a row with a filled cell and, for some required field of the
    kind, a header cell that is not a string comes before every header
    that includes the field.  Otherwise, for a sheet of a known kind it
    stores the objects of the rows under that kind and leaves the other
    kinds as they are; it has done so also when the answer of the
    completion service cannot be spread and the result is a failure with no
    data and the kind unknown; and a sheet whose rows are all blank empties
    what the registry held for its kind.  On a header row of strings the
    check never throws. *)
Theorem parseFile_registry_effect :
  forall (host : JsHost)
         (validateDataWithAI : list JsObj -> FileParser.FileType -> JsValue)
         (noMethodMessage notIterableMessage : JsValue -> string)
         (fileName : string) (sheet : FileParser.Sheet) (reg : Registry),
    let outcome :=
      FileParser.parseFile validateDataWithAI noMethodMessage notIterableMessage
        fileName sheet reg in
    let extension := FileParser.extensionOf fileName in
    let refused := String.eqb extension "" || negb (FileParser.supported extension) in
    ((refused = true \/ forall headers body, sheet <> FileParser.Rows headers body) ->
     snd outcome = reg
     /\ FileParser.data (fst outcome) = []
     /\ FileParser.type (fst outcome) = FileParser.Unknown
     /\ exists message, FileParser.errors (fst outcome) = [FileParser.fileError message])
    /\ (forall headers body,
          sheet = FileParser.Rows headers body -> refused = false ->
          let data := FileParser.sheetData headers body in
          let kind := FileParser.detectDataType (map FileParser.joinedText headers) in
          match FileParser.validateSheetStructure data kind headers with
          | FileParser.Fails cell =>
              snd outcome = reg
              /\ fst outcome
                 = FileParser.failure ("Error parsing file: " ++ noMethodMessage cell)
          | FileParser.Done _ =>
              match kind with
              | FileParser.Known key =>
                  getData key (snd outcome) = data
                  /\ (forall other, other <> key ->
                        getData other (snd outcome) = getData other reg)
                  /\ (FileParser.spread
                        (validateDataWithAI (firstn 10 data) (FileParser.Known key))
                      = None ->
                      FileParser.data (fst outcome) = []
                      /\ FileParser.type (fst outcome) = FileParser.Unknown)
                  /\ (forallb (fun row => negb (existsb FileParser.isFilled row)) body
                      = true ->
                      getData key (snd outcome) = [])
              | FileParser.Unknown => snd outcome = reg
              end
          end)
    /\ (forall data kind headers,
          (exists cell,
             FileParser.validateSheetStructure data kind headers = FileParser.Fails cell)
          <-> data <> []
              /\ exists field before cell after,
                   In field (FileParser.getRequiredFields kind)
                   /\ headers = before ++ Some cell :: after
                   /\ isText cell = false
                   /\ forall c, In (Some c) before ->
                        exists h, c = VStr h
                          /\ includes (toLowerCase h) (toLowerCase field) = false)
    /\ (forall headers body,
          FileParser.sheetData headers body = []
          <-> forallb (fun row => negb (existsb FileParser.isFilled row)) body = true)
    /\ (forall data kind headers body,
          FileParser.validateSheetStructure data kind (textCells headers)
          = FileParser.Done (FileParser.validateBasicStructure data kind headers)
          /\ FileParser.sheetData (textCells headers) body
             = FileParser.dataOf headers body
          /\ FileParser.detectDataType (map FileParser.joinedText (textCells headers))
             = FileParser.detectDataType headers).
Proof.
  intros host ai noMethod notIterable fileName sheet reg outcome extension refused.
  unfold outcome, FileParser.parseFile. cbv zeta. fold extension. fold refused.
  split; [|split; [|split; [|split]]].
  - intros [Href|Hsheet].
    + rewrite Href. cbn [fst snd FileParser.failure FileParser.data FileParser.type
                         FileParser.errors]. eauto.
    + destruct refused; [cbn; eauto|].
      destruct sheet as [m| |headers body];
        [cbn; eauto|cbn; eauto|now elim (Hsheet headers body)].
  - intros headers body -> Href. rewrite Href.
    destruct (FileParser.validateSheetStructure _ _ headers) as [basicErrors|cell];
      [|split; reflexivity].
    destruct (FileParser.detectDataType (map FileParser.joinedText headers))
      as [key|] eqn:Ekind.
    + destruct (getData_setData key key (FileParser.sheetData headers body) reg)
        as [Hget _].
      split; [|split; [|split]].
      * destruct (FileParser.spread _); exact Hget.
      * intros other Hne.
        destruct (getData_setData key other (FileParser.sheetData headers body) reg)
          as [_ Hother].
        destruct (FileParser.spread _); now apply Hother.
      * intros Hnone. rewrite Hnone. cbn. auto.
      * intros Hblank. rewrite (sheetData_blank headers body Hblank) in *.
        destruct (FileParser.spread _); exact Hget.
    + destruct (FileParser.spread _); reflexivity.
  - intros data kind headers. apply validateSheetStructure_Fails.
  - intros headers body. apply sheetData_nil.
  - intros data kind headers body.
    split; [apply validateSheetStructure_textCells|].
    split; [apply sheetData_textCells|].
    now rewrite joinedText_textCells.
Qed.

(** The theorem of X27 on a sheet of clients whose second header cell is
    the number 2024, and on a sheet of tasks when the answer of the
    completion service is an object. *)
Lemma parseFile_registry_effect_witness :
  (let outcome :=
     FileParser.parseFile (host := decimalHost) (fun _ _ => VArr [])
       (fun _ => "header.toLowerCase is not a function")
       (fun _ => "aiErrors is not iterable")
       "clients.xlsx"
       (FileParser.Rows [Some (VStr "ClientID"); Some (VNum (ofNat 2024))]
          [[VStr "C1"; VNum (ofNat 5)]])
       (registryOf [clientAcme] [] []) in
   snd outcome = registryOf [clientAcme] [] []
   /\ fst outcome
      = FileParser.failure "Error parsing file: header.toLowerCase is not a function")
  /\ (let outcome :=
        FileParser.parseFile (host := decimalHost) (fun _ _ => VObj [])
          (fun _ => "header.toLowerCase is not a function")
          (fun _ => "aiErrors is not iterable")
          "tasks.CSV"
          (FileParser.Rows (textCells ["TaskID"; "TaskName"])
             [[VStr "T1"; VStr "Build"]])
          registry0 in
      getData tasks (snd outcome)
      = FileParser.dataOf ["TaskID"; "TaskName"] [[VStr "T1"; VStr "Build"]]
      /\ FileParser.data (fst outcome) = []
      /\ FileParser.type (fst outcome) = FileParser.Unknown).
Proof.
  cbv zeta. split.
  - pose proof (proj1 (proj2 (parseFile_registry_effect decimalHost (fun _ _ => VArr [])
                                (fun _ => "header.toLowerCase is not a function")
                                (fun _ => "aiErrors is not iterable")
                                "clients.xlsx"
                                (FileParser.Rows
                                   [Some (VStr "ClientID"); Some (VNum (ofNat 2024))]
                                   [[VStr "C1"; VNum (ofNat 5)]])
                                (registryOf [clientAcme] [] [])))
                  [Some (VStr "ClientID"); Some (VNum (ofNat 2024))]
                  [[VStr "C1"; VNum (ofNat 5)]] eq_refl eq_refl) as H.
    cbv zeta in H.
    change (FileParser.validateSheetStructure
              (FileParser.sheetData [Some (VStr "ClientID"); Some (VNum (ofNat 2024))]
                 [[VStr "C1"; VNum (ofNat 5)]])
              (FileParser.detectDataType
                 (map FileParser.joinedText
                    [Some (VStr "ClientID"); Some (VNum (ofNat 2024))]))
              [Some (VStr "ClientID"); Some (VNum (ofNat 2024))])
      with (@FileParser.Fails (list ValidationError) (VNum (ofNat 2024))) in H.
    exact H.
  - pose proof (proj1 (proj2 (parseFile_registry_effect decimalHost (fun _ _ => VObj [])
                                (fun _ => "header.toLowerCase is not a function")
                                (fun _ => "aiErrors is not iterable")
                                "tasks.CSV"
                                (FileParser.Rows (textCells ["TaskID"; "TaskName"])
                                   [[VStr "T1"; VStr "Build"]])
                                registry0))
                  (textCells ["TaskID"; "TaskName"])
                  [[VStr "T1"; VStr "Build"]] eq_refl eq_refl) as H.
    cbv zeta in H.
    change (FileParser.validateSheetStructure
              (FileParser.sheetData (textCells ["TaskID"; "TaskName"])
                 [[VStr "T1"; VStr "Build"]])
              (FileParser.detectDataType
                 (map FileParser.joinedText (textCells ["TaskID"; "TaskName"])))
              (textCells ["TaskID"; "TaskName"]))
      with (FileParser.Done
              (FileParser.validateBasicStructure
                 (FileParser.dataOf ["TaskID"; "TaskName"] [[VStr "T1"; VStr "Build"]])
                 (FileParser.Known tasks) ["TaskID"; "TaskName"])) in H.
    change (FileParser.detectDataType
              (map FileParser.joinedText (textCells ["TaskID"; "TaskName"])))
      with (FileParser.Known tasks) in H.
    destruct H as (Hget & _ & Hfail & _). split; [exact Hget|].
    apply Hfail. reflexivity.
Defined.

(* ================================================================== *)
(** ** The basic structure of the rows *)
(* ================================================================== *)

Section BasicStructure.

Lemma rowErrors_nameless (type : FileParser.FileType) (row : JsObj) (index : nat) :
  FileParser.rowErrors type row index
  = if nameless type row then [FileParser.rowError index (nameMessage type)] else [].
Proof. destruct type as [[| |]|]; reflexivity. Qed.

Lemma rowErrorsFrom_nameless (type : FileParser.FileType) (data : list JsObj)
  (index : nat) :
  FileParser.rowErrorsFrom type data index
  = map (fun i => FileParser.rowError i (nameMessage type))
        (indicesFrom (nameless type) data index).
Proof.
  revert index. induction data as [|row rest IH]; intros index;
    cbn [FileParser.rowErrorsFrom indicesFrom]; [reflexivity|].
  rewrite rowErrors_nameless, IH. now destruct (nameless type row).
Qed.

Lemma filter_rowErrors (severity : Severity) (message : string) (l : list nat) :
  filter (hasSeverity severity) (map (fun i => FileParser.rowError i message) l)
  = match severity with
    | SevError => map (fun i => FileParser.rowError i message) l
    | _ => []
    end.
Proof.
  induction l as [|i rest IH]; cbn [map filter]; [now destruct severity|].
  destruct severity; cbn [hasSeverity FileParser.rowError err_severity];
    now rewrite IH.
Qed.

Lemma indicesFrom_length {X : Type} (p : X -> bool) (xs : list X) (index : nat) :
  List.length (indicesFrom p xs index) <= List.length xs.
Proof.
  revert index. induction xs as [|x rest IH]; intros index;
    cbn [indicesFrom List.length]; [lia|].
  specialize (IH (S index)). destruct (p x); cbn [List.length]; lia.
Qed.

Lemma indicesFrom_none {X : Type} (p : X -> bool) (xs : list X) (index : nat) :
  (forall x, p x = false) -> indicesFrom p xs index = [].
Proof.
  intros H. revert index. induction xs as [|x rest IH]; intros index;
    cbn [indicesFrom]; [reflexivity|].
  now rewrite H.
Qed.

End BasicStructure.

(** X28.  On data with at least one row [validateBasicStructure] reports,
    as errors, exactly the rows in which none of the name columns of the
    kind is truthy, one error each, in the order of the rows, on the field
    row_<index + 2>; its only other finding is at most one warning, which
    comes first and is there exactly when some required field of the kind
    is contained in no header, in whatever case; for the kind unknown it
    reports nothing.  On no row at all it reports the one error that no
    data rows were found. *)
Theorem validateBasicStructure_findings :
  forall (data : list JsObj) (type : FileParser.FileType) (headers : list string),
    let found := FileParser.validateBasicStructure data type headers in
    (data = [] -> found = [FileParser.noDataError])
    /\ (data <> [] ->
        filter (hasSeverity SevError) found
        = map (fun i => FileParser.rowError i (nameMessage type))
              (indicesFrom (nameless type) data 0)
        /\ filter (hasSeverity SevWarning) found
           = match FileParser.missingFieldsOf type headers with
             | [] => []
             | missing => [FileParser.missingFieldsWarning missing]
             end
        /\ found = filter (hasSeverity SevWarning) found
                   ++ filter (hasSeverity SevError) found
        /\ List.length found <= S (List.length data)
        /\ (type = FileParser.Unknown -> found = [])).
Proof.
  intros data type headers found. split.
  - intros ->. reflexivity.
  - intros Hne. unfold found, FileParser.validateBasicStructure.
    destruct data as [|row rest]; [contradiction|]. cbv zeta.
    set (data := row :: rest).
    rewrite rowErrorsFrom_nameless.
    set (rows := map _ (indicesFrom (nameless type) data 0)).
    assert (He : filter (hasSeverity SevError) rows = rows)
      by apply (filter_rowErrors SevError).
    assert (Hw : filter (hasSeverity SevWarning) rows = [])
      by apply (filter_rowErrors SevWarning).
    assert (Hlen : List.length rows <= List.length data).
    { unfold rows. rewrite length_map. apply indicesFrom_length. }
    destruct (FileParser.missingFieldsOf type headers) as [|m ms] eqn:Em.
    + cbn [app]. rewrite He, Hw. repeat split; auto.
      intros ->. unfold rows. now rewrite indicesFrom_none.
    + cbn [app filter hasSeverity FileParser.missingFieldsWarning err_severity].
      rewrite He, Hw. repeat split; auto.
      * cbn [List.length]. lia.
      * intros ->. discriminate Em.
Qed.

Lemma validateBasicStructure_findings_witness :
  let data := [[("_rowIndex", VNum (ofNat 2)); ("name", VStr "Ana")];
               [("_rowIndex", VNum (ofNat 3)); ("name", VStr "")]] in
  let found :=
    FileParser.validateBasicStructure data (FileParser.Known workers) ["name"] in
  filter (hasSeverity SevError) found
  = map (fun i => FileParser.rowError i (nameMessage (FileParser.Known workers)))
        (indicesFrom (nameless (FileParser.Known workers)) data 0)
  /\ filter (hasSeverity SevWarning) found
     = match FileParser.missingFieldsOf (FileParser.Known workers) ["name"] with
       | [] => []
       | missing => [FileParser.missingFieldsWarning missing]
       end
  /\ found = filter (hasSeverity SevWarning) found ++ filter (hasSeverity SevError) found
  /\ List.length found <= S (List.length data)
  /\ (FileParser.Known workers = FileParser.Unknown -> found = []).
Proof.
  cbv zeta.
  apply (proj2 (validateBasicStructure_findings
                  [[("_rowIndex", VNum (ofNat 2)); ("name", VStr "Ana")];
                   [("_rowIndex", VNum (ofNat 3)); ("name", VStr "")]]
                  (FileParser.Known workers) ["name"])).
  discriminate.
Defined.

(* ================================================================== *)
(** ** The exported summary of a batch *)
(* ================================================================== *)

Section ExportedSummary.
Context {host : JsHost}.
Variable env : Env.

Lemma validateRecordsFrom_quality rules records dataType k :
  Forall (fun r => qualityScore r = score r)
         (validateRecordsFrom env rules records dataType k).
Proof.
  revert k. induction records as [|record rest IH]; intros k;
    cbn [validateRecordsFrom]; constructor; auto.
Qed.

Lemma mergeZip_quality (rs cs : list ValidationResult) :
  Forall (fun r => qualityScore r = score r) rs ->
  Forall (fun r => qualityScore r = score r) (mergeZip rs cs).
Proof.
  intros H. revert cs. induction H as [|r rs Hr Hrs IH]; intros cs; [constructor|].
  destruct cs as [|c cs]; cbn [mergeZip]; constructor; auto.
Qed.

Lemma fold_quality (results : list ValidationResult) (acc : JsNum) :
  Forall (fun r => qualityScore r = score r) results ->
  fold_left (fun sum r => add sum (ExportEngine.qualityOf r)) results acc
  = fold_left (fun sum r => add sum (score r)) results acc.
Proof.
  intros H. revert acc. induction H as [|r rs Hr _ IH]; intros acc; [reflexivity|].
  cbn [fold_left]. rewrite IH. unfold ExportEngine.qualityOf. rewrite Hr.
  now destruct (truthy (VNum (score r))).
Qed.

Lemma filter_partition_length {X : Type} (p : X -> bool) (l : list X) :
  List.length (filter p l) + List.length (filter (fun x => negb (p x)) l)
  = List.length l.
Proof.
  induction l as [|x rest IH]; [reflexivity|]. cbn [filter].
  destruct (p x); cbn [negb List.length]; lia.
Qed.

End ExportedSummary.

(** X29.  On the results of a batch the summary that
    [exportValidationReport] writes agrees with the one that
    [generateValidationReport] shows: the same number of records, which is
    the size of the batch, the same number of valid records, and the same
    average, since the quality score of every result is its score; the
    valid and the invalid records add up to the total. *)
Theorem exported_summary_agrees_with_report :
  forall (host : JsHost) (env : Env) (rules : RuleMap) (records : list JsObj)
         (dataType : DataTypeKey) (results : list ValidationResult)
         (advice : option (list string)),
    validateBatch env rules records dataType = Some results ->
    let exported := ExportEngine.summaryOf results in
    let shown := Report.summary (Report.generateValidationReport advice results) in
    ExportEngine.totalRecords exported = Report.totalRecords shown
    /\ ExportEngine.totalRecords exported = List.length records
    /\ ExportEngine.validRecords exported = Report.validRecords shown
    /\ ExportEngine.validRecords exported + ExportEngine.invalidRecords exported
       = ExportEngine.totalRecords exported
    /\ ExportEngine.averageQualityScore exported = Report.averageScore shown.
Proof.
  intros host env rules records dataType results advice Hbatch exported shown.
  pose proof (validateBatch_length env rules records dataType results Hbatch) as Hlen.
  apply validateBatch_Some in Hbatch as (cross & _ & ->).
  unfold exported, shown, ExportEngine.summaryOf, Report.generateValidationReport,
    Report.summaryOf, Report.averageOf.
  cbn [ExportEngine.totalRecords ExportEngine.validRecords
       ExportEngine.invalidRecords ExportEngine.averageQualityScore
       Report.summary Report.totalRecords Report.validRecords Report.averageScore].
  repeat split; auto.
  - apply filter_partition_length.
  - rewrite fold_quality; [reflexivity|].
    apply mergeZip_quality, validateRecordsFrom_quality.
Qed.

Lemma exported_summary_agrees_with_report_witness :
  let results :=
    match validateBatch (envAt (Some registry0)) defaultRules
            [taskPlain; taskOfClient] tasks with
    | Some l => l
    | None => []
    end in
  let exported := ExportEngine.summaryOf results in
  let shown := Report.summary (Report.generateValidationReport None results) in
  ExportEngine.totalRecords exported = Report.totalRecords shown
  /\ ExportEngine.totalRecords exported = 2
  /\ ExportEngine.validRecords exported = Report.validRecords shown
  /\ ExportEngine.validRecords exported + ExportEngine.invalidRecords exported
     = ExportEngine.totalRecords exported
  /\ ExportEngine.averageQualityScore exported = Report.averageScore shown.
Proof.
  cbv zeta.
  apply (exported_summary_agrees_with_report decimalHost (envAt (Some registry0))
           defaultRules [taskPlain; taskOfClient] tasks _ None).
  vm_compute. reflexivity.
Defined.

(* ================================================================== *)
(** ** The score of an allocation *)
(* ================================================================== *)

Section Doubles.

(** Rounding keeps the sign. *)
Lemma binary_round_aux_sign (s : bool) (m e : Z) (l : location) :
  let x := binary_round_aux Double.prec Double.emax s m e l in
  x = S754_nan \/ x = S754_zero s \/ x = S754_infinity s
  \/ exists m' e', x = S754_finite s m' e'.
Proof.
  cbv zeta. unfold binary_round_aux.
  destruct (shr_fexp Double.prec Double.emax m e l) as [mrs' e'].
  destruct (shr_fexp Double.prec Double.emax _ e' loc_Exact) as [mrs'' e''].
  destruct (shr_m mrs'') as [|p|p]; auto.
  destruct (Z.leb e'' (Double.emax - Double.prec)); eauto 6.
Qed.

Lemma binary_round_aux_plus (m e : Z) (l : location) :
  notBelowZero (binary_round_aux Double.prec Double.emax false m e l) = true.
Proof.
  destruct (binary_round_aux_sign false m e l) as [E|[E|[E|(m' & e' & E)]]];
    now rewrite E.
Qed.

Lemma binary_round_plus (m : positive) (e : Z) :
  notBelowZero (binary_round Double.prec Double.emax false m e) = true.
Proof.
  unfold binary_round. destruct (shl_align m e _) as [mz ez].
  apply binary_round_aux_plus.
Qed.

Lemma ofNat_plus (n : nat) : notBelowZero (Double.ofNat n) = true.
Proof.
  unfold Double.ofNat, Double.ofZ, binary_normalize.
  destruct (Z.of_nat n) as [|p|p] eqn:E; [reflexivity|apply binary_round_plus|lia].
Qed.

Lemma mul_plus (x y : Double.double) :
  notBelowZero x = true -> notBelowZero y = true ->
  notBelowZero (Double.mul x y) = true.
Proof.
  destruct x as [[|]|[|]| |[|] mx ex], y as [[|]|[|]| |[|] my ey];
    try discriminate; try reflexivity.
  intros _ _. apply binary_round_aux_plus.
Qed.

Lemma div_plus (x y : Double.double) :
  notBelowZero x = true -> notBelowZero y = true ->
  notBelowZero (Double.div x y) = true.
Proof.
  destruct x as [[|]|[|]| |[|] mx ex], y as [[|]|[|]| |[|] my ey];
    try discriminate; try reflexivity.
  intros _ _. unfold Double.div, SFdiv.
  destruct (SFdiv_core_binary Double.prec Double.emax (Z.pos mx) ex (Z.pos my) ey)
    as [[mz ez] lz].
  apply binary_round_aux_plus.
Qed.

Lemma add_plus (x y : Double.double) :
  notBelowZero x = true -> notBelowZero y = true ->
  notBelowZero (Double.add x y) = true.
Proof.
  destruct x as [[|]|[|]| |[|] mx ex], y as [[|]|[|]| |[|] my ey];
    try discriminate; try reflexivity.
  intros _ _. unfold Double.add, SFadd. cbv zeta. cbn [cond_Zopp].
  unfold binary_normalize.
  destruct (shl_align mx ex (Z.min ex ey)) as [m1 e1].
  destruct (shl_align my ey (Z.min ex ey)) as [m2 e2].
  cbn [fst Z.add]. apply binary_round_plus.
Qed.

(** [Math.max(0, y)] is not below zero, whatever [y] is. *)
Lemma max_zero_plus (y : Double.double) :
  notBelowZero (Double.max (Double.ofNat 0) y) = true.
Proof.
  change (Double.ofNat 0) with (S754_zero false).
  destruct y as [[|]|[|]| |[|] my ey]; reflexivity.
Qed.

Lemma min_plus (x y : Double.double) :
  notBelowZero x = true -> notBelowZero y = true ->
  notBelowZero (Double.min x y) = true.
Proof.
  destruct x as [[|]|[|]| |[|] mx ex], y as [[|]|[|]| |[|] my ey];
    try discriminate; try reflexivity; intros _ _; unfold Double.min;
    repeat match goal with
           | |- context [if ?c then _ else _] => destruct c
           end; reflexivity.
Qed.

(** A double that is not below zero is not less than 0. *)
Lemma notBelowZero_not_lt (x : Double.double) :
  notBelowZero x = true -> Double.gt (Double.ofNat 0) x = false.
Proof.
  change (Double.ofNat 0) with (S754_zero false).
  destruct x as [[|]|[|]| |[|] mx ex]; try discriminate; reflexivity.
Qed.

End Doubles.

Section AllocationScore.
Import PrioritizationEngine.

Lemma fold_addWeight_enabled (worker : Worker) (task : Task)
  (weights : list PriorityWeight) (totals : Double.double * Double.double) :
  fold_left (addWeight worker task) weights totals
  = fold_left (addWeight worker task) (filter pw_enabled weights) totals.
Proof.
  revert totals. induction weights as [|weight rest IH]; intros totals; [reflexivity|].
  cbn [fold_left filter]. destruct (pw_enabled weight) eqn:E.
  - cbn [fold_left]. apply IH.
  - rewrite <- IH. unfold addWeight at 2. now rewrite E.
Qed.

Lemma filter_none_enabled (weights : list PriorityWeight) :
  (forall weight, In weight weights -> pw_enabled weight = false) ->
  filter pw_enabled weights = [].
Proof.
  induction weights as [|weight rest IH]; intros H; [reflexivity|].
  cbn [filter]. rewrite (H weight (or_introl eq_refl)). apply IH.
  intros w Hw. apply H. now right.
Qed.

Variable worker : Worker.
Variable task : Task.
Hypothesis budget_plus : notBelowZero (budget task) = true.
Hypothesis hours_plus : notBelowZero (estimatedHours task) = true.
Hypothesis rate_plus : notBelowZero (hourlyRate worker) = true.

Lemma scoreFor_plus (id : string) : notBelowZero (scoreFor id worker task) = true.
Proof.
  unfold scoreFor.
  destruct (String.eqb id "skills-match").
  { unfold calculateSkillsMatch.
    destruct (requiredSkills task) as [[|s l]|]; try apply ofNat_plus.
    cbv zeta. apply mul_plus; [apply div_plus|]; apply ofNat_plus. }
  destruct (String.eqb id "availability").
  { unfold calculateAvailability.
    destruct (negb (String.eqb (availability worker) "available"));
      [apply ofNat_plus|apply max_zero_plus]. }
  destruct (String.eqb id "cost-efficiency").
  { unfold calculateCostEfficiency.
    destruct (Double.isFalsy (budget task) || Double.isFalsy (hourlyRate worker));
      [apply ofNat_plus|].
    cbv zeta. apply min_plus; [|apply ofNat_plus].
    apply mul_plus; [|apply ofNat_plus].
    apply min_plus; [|apply ofNat_plus].
    apply div_plus; [exact budget_plus|].
    apply mul_plus; [exact rate_plus|].
    destruct (Double.isFalsy (estimatedHours task)); [apply ofNat_plus|exact hours_plus]. }
  destruct (String.eqb id "experience-level").
  { unfold calculateExperience. cbv zeta. apply min_plus; [|apply ofNat_plus].
    apply mul_plus; [apply div_plus|]; apply ofNat_plus. }
  destruct (String.eqb id "location-proximity").
  { unfold calculateLocationProximity.
    destruct (String.eqb (location worker) ""); apply ofNat_plus. }
  apply ofNat_plus.
Qed.

Lemma fold_addWeight_plus (weights : list PriorityWeight)
  (totals : Double.double * Double.double) :
  (forall weight, In weight weights -> pw_enabled weight = true ->
     notBelowZero (pw_weight weight) = true) ->
  notBelowZero (fst totals) = true -> notBelowZero (snd totals) = true ->
  notBelowZero (fst (fold_left (addWeight worker task) weights totals)) = true
  /\ notBelowZero (snd (fold_left (addWeight worker task) weights totals)) = true.
Proof.
  revert totals. induction weights as [|weight rest IH]; intros totals Hw H1 H2;
    [now split|].
  cbn [fold_left]. apply IH.
  - intros w Hin. apply Hw. now right.
  - unfold addWeight. destruct (pw_enabled weight) eqn:E; cbn [negb]; [|exact H1].
    cbv zeta. cbn [fst]. apply add_plus; [exact H1|].
    apply mul_plus; [apply scoreFor_plus|].
    apply div_plus; [|apply ofNat_plus]. apply Hw; [now left|exact E].
  - unfold addWeight. destruct (pw_enabled weight) eqn:E; cbn [negb]; [|exact H2].
    cbv zeta. cbn [snd]. apply add_plus; [exact H2|]. apply Hw; [now left|exact E].
Qed.

Lemma calculateAllocationScore_plus (weights : list PriorityWeight) :
  (forall weight, In weight weights -> pw_enabled weight = true ->
     notBelowZero (pw_weight weight) = true) ->
  notBelowZero (calculateAllocationScore weights worker task) = true.
Proof.
  intros Hw. unfold calculateAllocationScore. cbv zeta.
  destruct (fold_addWeight_plus weights (Double.ofNat 0, Double.ofNat 0) Hw
              (ofNat_plus 0) (ofNat_plus 0)) as [H1 H2].
  destruct (Double.gt _ _); [|apply ofNat_plus].
  apply mul_plus; [apply div_plus; assumption|apply ofNat_plus].
Qed.

End AllocationScore.

(** X30.  [calculateAllocationScore], on the doubles of the source, reads
    the enabled weights only: the score is the one that the enabled
    weights give, in their order, and it is 0 when no weight is enabled.
    When the enabled weights, the budget and the estimated hours of the
    task and the hourly rate of the worker are not below zero, every score
    that enters it and the result are not below zero: they are [NaN] or
    have the sign plus.  The result is not bounded by 100: with the weight
    skills-match enabled alone, of weight 7, and a task without required
    skills, it is 100 times 7/100, divided by 7, times 100, which is
    100.00000000000003, whoever the worker is. *)
Theorem allocation_score_not_below_zero :
  forall (weights : list PrioritizationEngine.PriorityWeight)
         (worker : PrioritizationEngine.Worker) (task : PrioritizationEngine.Task),
    PrioritizationEngine.calculateAllocationScore weights worker task
    = PrioritizationEngine.calculateAllocationScore
        (filter PrioritizationEngine.pw_enabled weights) worker task
    /\ ((forall weight, In weight weights ->
           PrioritizationEngine.pw_enabled weight = false) ->
        PrioritizationEngine.calculateAllocationScore weights worker task
        = Double.ofNat 0)
    /\ ((forall weight, In weight weights ->
           PrioritizationEngine.pw_enabled weight = true ->
           notBelowZero (PrioritizationEngine.pw_weight weight) = true) ->
        notBelowZero (PrioritizationEngine.budget task) = true ->
        notBelowZero (PrioritizationEngine.estimatedHours task) = true ->
        notBelowZero (PrioritizationEngine.hourlyRate worker) = true ->
        (forall id,
           notBelowZero (PrioritizationEngine.scoreFor id worker task) = true)
        /\ notBelowZero
             (PrioritizationEngine.calculateAllocationScore weights worker task) = true
        /\ Double.gt (Double.ofNat 0)
             (PrioritizationEngine.calculateAllocationScore weights worker task) = false)
    /\ (forall weight,
          PrioritizationEngine.pw_id weight = "skills-match" ->
          PrioritizationEngine.pw_enabled weight = true ->
          PrioritizationEngine.pw_weight weight = Double.ofNat 7 ->
          PrioritizationEngine.requiredSkills task = None
          \/ PrioritizationEngine.requiredSkills task = Some [] ->
          PrioritizationEngine.calculateAllocationScore [weight] worker task
          = S754_finite false 7036874417766402 (-46)
          /\ Double.gt (PrioritizationEngine.calculateAllocationScore [weight] worker task)
                       (Double.ofNat 100) = true).
Proof.
  intros weights worker task.
  assert (Henabled : PrioritizationEngine.calculateAllocationScore weights worker task
                     = PrioritizationEngine.calculateAllocationScore
                         (filter PrioritizationEngine.pw_enabled weights) worker task).
  { unfold PrioritizationEngine.calculateAllocationScore. cbv zeta.
    now rewrite fold_addWeight_enabled. }
  split; [exact Henabled|]. split; [|split].
  - intros Hnone. rewrite Henabled, (filter_none_enabled weights Hnone). reflexivity.
  - intros Hw Hb Hh Hr.
    pose proof (calculateAllocationScore_plus worker task Hb Hh Hr weights Hw) as Hplus.
    split; [intros id; exact (scoreFor_plus worker task Hb Hh Hr id)|].
    split; [exact Hplus|exact (notBelowZero_not_lt _ Hplus)].
  - intros weight Hid Hen Hw Hskills.
    assert (Hscore : PrioritizationEngine.scoreFor "skills-match" worker task
                     = Double.ofNat 100).
    { change (PrioritizationEngine.scoreFor "skills-match" worker task)
        with (PrioritizationEngine.calculateSkillsMatch worker task).
      unfold PrioritizationEngine.calculateSkillsMatch.
      now destruct Hskills as [-> | ->]. }
    assert (E : PrioritizationEngine.calculateAllocationScore [weight] worker task
                = S754_finite false 7036874417766402 (-46)).
    { unfold PrioritizationEngine.calculateAllocationScore. cbv zeta.
      cbn [fold_left]. unfold PrioritizationEngine.addWeight.
      rewrite Hen, Hid, Hw, Hscore. cbn [negb fst snd]. vm_compute. reflexivity. }
    split; [exact E|]. rewrite E. vm_compute. reflexivity.
Qed.

(** The theorem of X30 on three weights, the last one disabled, a worker
    who has one of the two required skills and a budget of 1000 for 10
    hours at the rate 80: the score is 55.00000000000001. *)
Lemma allocation_score_not_below_zero_witness :
  let weight := fun id value enabled =>
    {| PrioritizationEngine.pw_id := id; PrioritizationEngine.pw_name := id;
       PrioritizationEngine.pw_description := "";
       PrioritizationEngine.pw_weight := Double.ofNat value;
       PrioritizationEngine.pw_category := "";
       PrioritizationEngine.pw_enabled := enabled |} in
  let weights := [weight "skills-match" 30 true; weight "cost-efficiency" 20 true;
                  weight "location-proximity" 10 false] in
  let worker :=
    {| PrioritizationEngine.skills := ["React"];
       PrioritizationEngine.availability := "available";
       PrioritizationEngine.hourlyRate := Double.ofNat 80;
       PrioritizationEngine.location := "Pune";
       PrioritizationEngine.currentProjects := None;
       PrioritizationEngine.completedProjects := None |} in
  let task :=
    {| PrioritizationEngine.requiredSkills := Some ["React"; "Python"];
       PrioritizationEngine.estimatedHours := Double.ofNat 10;
       PrioritizationEngine.budget := Double.ofNat 1000 |} in
  PrioritizationEngine.calculateAllocationScore weights worker task
  = PrioritizationEngine.calculateAllocationScore
      [weight "skills-match" 30 true; weight "cost-efficiency" 20 true] worker task
  /\ PrioritizationEngine.calculateAllocationScore weights worker task
     = S754_finite false 7740561859543041 (-47)
  /\ Double.gt (Double.ofNat 0)
       (PrioritizationEngine.calculateAllocationScore weights worker task) = false.
Proof.
  cbv zeta.
  match goal with
  | |- PrioritizationEngine.calculateAllocationScore ?ws ?w ?t = _ /\ _ =>
      destruct (allocation_score_not_below_zero ws w t) as (Hen & _ & Hplus & _)
  end.
  split; [exact Hen|]. split; [vm_compute; reflexivity|].
  apply Hplus; try reflexivity.
  intros weight [<-|[<-|[<-|[]]]] _; reflexivity.
Defined.
